(** * EasyTL dispatch core: a shallow embedding and its properties

    The development follows [src/easytl/easytl.py] (the [EasyTL] entry
    points), [src/easytl/gemini_service.py] (the [GeminiService] class) and
    [src/easytl/googletl_service.py] (the [GoogleTLService] class).
    Python functions become functions in a state-and-exception monad over a
    [world] that holds the class attributes of the services and the log of
    the requests sent to the translation backends.  The SDK clients are
    external collaborators: they are represented by one oracle, [backend],
    which answers a request given the requests sent before it. *)

From Stdlib Require Import String List ZArith QArith Bool Lia Arith Permutation.
Import ListNotations.
Close Scope Q_scope.
Open Scope string_scope.
Open Scope list_scope.

Set Implicit Arguments.

(** ** Python values *)

(** The response objects handed back by the SDK clients.  The dispatch code
    inspects them only structurally: [isinstance(_, list)], [hasattr],
    attribute access and subscripting. *)
#[warnings="-register-all"]
Inductive pyval : Type :=
| PyNone
| PyStr (s : string)
| PyList (items : list pyval)
| PyDict (entries : list (string * pyval))
| PyObj (cls : string) (attrs : list (string * pyval)).

(** Exceptions.  [assert cond, payload] raises [AssertionError] with the
    payload as its argument; the payload is not itself raised. *)
#[warnings="-register-all"]
Inductive exn : Type :=
| AssertionError (payload : option exn)
| InvalidResponseFormatException (msg : string)
| InvalidTextInputException (msg : string)
| InvalidAPITypeException (msg : string)
| EasyTLException (msg : string)
| TypeError (msg : string)
| AttributeError (msg : string)
| KeyError (key : string)
| IndexError (msg : string)
| ValueError (msg : string)
| UnboundLocalError (msg : string)
| SdkError (cls : string) (msg : string).

Inductive res (A : Type) : Type :=
| Ok (a : A)
| Raise (e : exn).
Arguments Ok {A} a.
Arguments Raise {A} e.

Fixpoint assoc {A : Type} (k : string) (l : list (string * A)) : option A :=
  match l with
  | [] => None
  | (k', v) :: l' => if String.eqb k k' then Some v else assoc k l'
  end.

(** [isinstance(v, list)] *)
Definition isinstance_list (v : pyval) : bool :=
  match v with PyList _ => true | _ => false end.

(** [isinstance(v, cls)] for the SDK response classes. *)
Definition isinstance (v : pyval) (c : string) : bool :=
  match v with PyObj cls _ => String.eqb cls c | _ => false end.

(** [hasattr(v, name)], for the data attributes the dispatch code asks for
    ([text], [choices], [content]); only SDK objects carry them. *)
Definition hasattr (v : pyval) (name : string) : bool :=
  match v with
  | PyObj _ attrs => match assoc name attrs with Some _ => true | None => false end
  | _ => false
  end.

(** [v.name] *)
Definition getattr (v : pyval) (name : string) : res pyval :=
  match v with
  | PyObj _ attrs =>
      match assoc name attrs with
      | Some x => Ok x
      | None => Raise (AttributeError name)
      end
  | _ => Raise (AttributeError name)
  end.

(** [v[key]] with a string key *)
Definition getitem (v : pyval) (key : string) : res pyval :=
  match v with
  | PyDict entries =>
      match assoc key entries with
      | Some x => Ok x
      | None => Raise (KeyError key)
      end
  | PyList _ => Raise (TypeError "list indices must be integers or slices, not str")
  | PyStr _ => Raise (TypeError "string indices must be integers, not 'str'")
  | PyNone => Raise (TypeError "'NoneType' object is not subscriptable")
  | PyObj _ _ => Raise (TypeError "object is not subscriptable")
  end.

(** [v[0]] *)
Definition getitem0 (v : pyval) : res pyval :=
  match v with
  | PyList (x :: _) => Ok x
  | PyList [] => Raise (IndexError "list index out of range")
  | PyStr (String c _) => Ok (PyStr (String c EmptyString))
  | PyStr EmptyString => Raise (IndexError "string index out of range")
  | PyDict _ => Raise (KeyError "0")
  | PyNone => Raise (TypeError "'NoneType' object is not subscriptable")
  | PyObj _ _ => Raise (TypeError "object is not subscriptable")
  end.

Definition is_none (v : pyval) : bool :=
  match v with PyNone => true | _ => false end.

(** The [text] argument of the entry points: a [str], a non-string iterable
    of strings, a single [ModelTranslationMessage], or anything else. *)
Inductive text_arg : Type :=
| TStr (s : string)
| TIter (units : list string)
| TMsg (content : string)
| TOther.

(** [isinstance(text, str)] *)
Definition is_str (t : text_arg) : bool :=
  match t with TStr _ => true | _ => false end.

(** Modelled from the spec: [util._is_iterable_of_strings] is not among the
    sources; the spec's input shapes are "a single string" and "an iterable
    of strings", and the helper is true exactly for the second. *)
Definition _is_iterable_of_strings (t : text_arg) : bool :=
  match t with TIter _ => true | _ => false end.

(** [isinstance(text, ModelTranslationMessage)] *)
Definition is_message (t : text_arg) : bool :=
  match t with TMsg _ => true | _ => false end.

(** [isinstance(text, typing.Iterable)]: a [str] is iterable too. *)
Definition is_iterable (t : text_arg) : bool :=
  match t with TStr _ | TIter _ => true | _ => false end.

(** ** Backends, decorators, requests *)

Inductive api : Type :=
| deepl | gemini | openai | google_translate | anthropic | azure.

Definition api_eqb (a b : api) : bool :=
  match a, b with
  | deepl, deepl | gemini, gemini | openai, openai
  | google_translate, google_translate | anthropic, anthropic | azure, azure => true
  | _, _ => false
  end.

(** A decorator factory as a retry policy: the decorated function calls the
    function it wraps with the arguments it was given, and calls it again,
    up to [retries] more times, while it raises. *)
Inductive decorator : Type :=
| retry_on_exception (retries : nat).

(** What reaches a backend: the credential probe of [test_credentials], or
    the request for one translation unit. *)
Inductive request : Type :=
| CredentialProbe (a : api)
| UnitRequest (a : api) (asynchronous : bool)
              (instructions : option string) (contents : string).

(** Keyword-argument values of the [_set_attributes] calls. *)
Inductive pyarg : Type :=
| ArgNone
| ArgNotGiven
| ArgStr (s : string)
| ArgBool (b : bool)
| ArgInt (z : Z)
| ArgFloat (q : Q)
| ArgStrs (l : list string)
| ArgDecorator (d : decorator).

(** ** Class attributes of the services *)

(** [genai.GenerativeModel(model_name=..., system_instruction=...)] *)
Record GenerativeModel : Type := {
  model_name : string;
  system_instruction : option string
}.

(** [GenerationConfig(candidate_count=..., ...)] *)
Record GenerationConfig : Type := {
  gc_candidate_count : Z;
  gc_stop_sequences : option (list string);
  gc_max_output_tokens : option Z;
  gc_temperature : Q;
  gc_top_p : Q;
  gc_top_k : Z
}.

(** [asyncio.Semaphore(value)]: the initial value is the capacity. *)
Record Semaphore : Type := { capacity : Z }.

(** The class attributes of [GeminiService] (gemini_service.py, 21-43).
    [_client] and [_generation_config] are only annotated in the class body:
    they hold nothing until [_redefine_client] runs. *)
Record GeminiAttrs : Type := {
  _system_message : option string;
  _model : string;
  _temperature : Q;
  _top_p : Q;
  _top_k : Z;
  _candidate_count : Z;
  _stream : bool;
  _stop_sequences : option (list string);
  _max_output_tokens : option Z;
  _client : option GenerativeModel;
  _generation_config : option GenerationConfig;
  _semaphore_value : Z;
  _semaphore : Semaphore;
  _decorator_to_use : option decorator;
  _log_directory : option string
}.

(** Modelled from the spec: the classes of the other five services are not
    among the sources.  The spec's Settings Record of a backend is the set
    of options of the last override; the dispatch code reads the class
    attributes [_decorator_to_use], [_system_message] (OpenAI), [_system]
    (Anthropic) and [_default_translation_instructions]. *)
Record ServiceAttrs : Type := {
  settings_record : list (string * pyarg);
  decorator_to_use : option decorator;
  system_message : option string;
  default_translation_instructions : string
}.

(** The argument validation helpers of [util.llm_util], which the sources
    only call: what each one does with the arguments it is given.  The first
    stands for [_validate_easytl_llm_translation_settings] applied to the
    curated [locals()] of the entry point. *)
Record llm_util : Type := {
  validate_settings : api -> list (string * pyarg) -> option exn;
  validate_stop_sequences : pyarg -> option exn;
  validate_text_length : text_arg -> string -> api -> option exn;
  validate_response_schema : pyarg -> res pyarg
}.

(** ** The world: service state, request log, environment *)

Record world : Type := {
  Gemini : GeminiAttrs;
  Services : api -> ServiceAttrs;
  sent : list request;
  (** the SDK clients: the answer to a request, given the requests before it *)
  backend : list request -> request -> res pyval;
  (** the event loop: the order in which the tasks of a batch complete *)
  scheduler : nat -> list nat;
  (** [util._estimate_cost(text, model)]: the cost estimator *)
  estimate_cost : string -> string -> Z * Q * string;
  (** the validation helpers *)
  util : llm_util
}.

Definition with_Gemini (g : GeminiAttrs) (w : world) : world :=
  {| Gemini := g; Services := Services w; sent := sent w;
     backend := backend w; scheduler := scheduler w;
     estimate_cost := estimate_cost w; util := util w |}.

Definition with_Services (s : api -> ServiceAttrs) (w : world) : world :=
  {| Gemini := Gemini w; Services := s; sent := sent w;
     backend := backend w; scheduler := scheduler w;
     estimate_cost := estimate_cost w; util := util w |}.

Definition with_sent (l : list request) (w : world) : world :=
  {| Gemini := Gemini w; Services := Services w; sent := l;
     backend := backend w; scheduler := scheduler w;
     estimate_cost := estimate_cost w; util := util w |}.

(** ** The monad of the dispatch code: state and exceptions *)

Definition M (A : Type) : Type := world -> res A * world.

Definition ret {A : Type} (a : A) : M A := fun w => (Ok a, w).

Definition raise {A : Type} (e : exn) : M A := fun w => (Raise e, w).

Definition bind {A B : Type} (m : M A) (k : A -> M B) : M B :=
  fun w =>
    match m w with
    | (Ok a, w') => k a w'
    | (Raise e, w') => (Raise e, w')
    end.

Declare Scope py_scope.
Delimit Scope py_scope with py.
Notation "x <- c1 ;; c2" := (bind c1 (fun x => c2))
  (at level 61, c1 at next level, right associativity) : py_scope.
Notation "c1 ;; c2" := (bind c1 (fun _ => c2))
  (at level 61, right associativity) : py_scope.
Open Scope py_scope.

(** A pure computation that may raise. *)
Definition lift {A : Type} (r : res A) : M A := fun w => (r, w).

(** [assert cond, payload] *)
Definition assert_ (cond : bool) (payload : exn) : M unit :=
  if cond then ret tt else raise (AssertionError (Some payload)).

(** [try: m  except Exception as e: ...] *)
Definition try_ {A : Type} (m : M A) : M (res A) :=
  fun w => let (r, w') := m w in (Ok r, w').

(** [[f(x) for x in l]] *)
Fixpoint for_each {A B : Type} (f : A -> M B) (l : list A) : M (list B) :=
  match l with
  | [] => ret []
  | x :: l' => y <- f x ;; ys <- for_each f l' ;; ret (y :: ys)
  end.

(** One call of an SDK client: the request is logged and answered. *)
Definition send (r : request) : M pyval :=
  fun w => (backend w (sent w) r, with_sent (sent w ++ [r]) w).

(** [x in [..]] for an optional string ([None] is in no list of strings) *)
Definition in_strings (x : option string) (l : list string) : bool :=
  match x with
  | Some s => existsb (String.eqb s) l
  | None => false
  end.

(** ** Decorators *)

(** The function a retry decorator returns: [call] stands for the wrapped
    function applied to the arguments the decorated function received. *)
Fixpoint retry {A : Type} (retries : nat) (call : M A) : M A :=
  fun w =>
    match call w with
    | (Ok a, w') => (Ok a, w')
    | (Raise e, w') =>
        match retries with
        | O => (Raise e, w')
        | S n => retry n call w'
        end
    end.

(** [d(f)] for a decorator factory [d] *)
Definition apply_decorator {A B : Type} (d : decorator) (f : A -> M B) : A -> M B :=
  match d with
  | retry_on_exception n => fun x => retry n (f x)
  end.

(** [d(f)] where [d] is an attribute that may hold [None] *)
Definition call_decorator {A B : Type} (d : option decorator) (f : A -> M B)
  : M (A -> M B) :=
  match d with
  | Some d' => ret (apply_decorator d' f)
  | None => raise (TypeError "'NoneType' object is not callable")
  end.

(** A call with keyword arguments: a keyword the signature does not have
    raises [TypeError] before the body runs. *)
Definition call_with_keywords {A : Type} (signature keywords : list string) (body : M A)
  : M A :=
  match find (fun k => negb (existsb (String.eqb k) signature)) keywords with
  | Some k => raise (TypeError ("got an unexpected keyword argument '" ++ k ++ "'"))
  | None => body
  end.

Definition newline : string := String (Ascii.ascii_of_nat 10) EmptyString.

(** [f"{x}"] for an optional string *)
Definition fmt (x : option string) : string :=
  match x with Some s => s | None => "None" end.

(** [s * n] for a string [s] *)
Fixpoint str_repeat (s : string) (n : nat) : string :=
  match n with
  | O => ""
  | S n' => s ++ str_repeat s n'
  end.

(** [len(text)]: the characters of a [str], the items of an iterable *)
Definition len (t : text_arg) : nat :=
  match t with
  | TStr s => String.length s
  | TIter l => List.length l
  | _ => 0
  end.

(** Modelled from the spec: [util._convert_iterable_to_str] is not among the
    sources; the spec has the estimator receive "the concatenation of
    instructions and text", so the helper joins the items of its argument
    (for a [str], its characters) without a separator. *)
Definition _convert_iterable_to_str (t : text_arg) : string :=
  match t with
  | TStr s => s
  | TIter l => String.concat "" l
  | _ => ""
  end.

(** How an f-string renders an argument that is neither a string nor an
    iterable; the sources do not determine it. *)
Definition object_repr : string := "<object>".

(** ** gemini_service.py *)

Module GeminiService.

Definition _default_translation_instructions : string :=
  "Please translate the following text into English.".

Definition _default_model : string := "gemini-pro".

(** The class body (lines 21-43). *)
Definition class_attributes : GeminiAttrs := {|
  _system_message := Some _default_translation_instructions;
  _model := _default_model;
  _temperature := 0.5;
  _top_p := 0.9;
  _top_k := 40;
  _candidate_count := 1;
  _stream := false;
  _stop_sequences := None;
  _max_output_tokens := None;
  _client := None;
  _generation_config := None;
  _semaphore_value := 15;
  _semaphore := {| capacity := 15 |};
  _decorator_to_use := None;
  _log_directory := None
|}.

Definition attrs : M GeminiAttrs := fun w => (Ok (Gemini w), w).

Definition _set_decorator (decorator : option decorator) : M unit :=
  fun w =>
    let g := Gemini w in
    (Ok tt, with_Gemini {|
      _system_message := _system_message g; _model := _model g;
      _temperature := _temperature g; _top_p := _top_p g; _top_k := _top_k g;
      _candidate_count := _candidate_count g; _stream := _stream g;
      _stop_sequences := _stop_sequences g;
      _max_output_tokens := _max_output_tokens g;
      _client := _client g; _generation_config := _generation_config g;
      _semaphore_value := _semaphore_value g; _semaphore := _semaphore g;
      _decorator_to_use := decorator;
      _log_directory := _log_directory g |} w).

(** [GeminiService._system_message = v] *)
Definition set_system_message (v : option string) : M unit :=
  fun w =>
    let g := Gemini w in
    (Ok tt, with_Gemini {|
      _system_message := v; _model := _model g;
      _temperature := _temperature g; _top_p := _top_p g; _top_k := _top_k g;
      _candidate_count := _candidate_count g; _stream := _stream g;
      _stop_sequences := _stop_sequences g;
      _max_output_tokens := _max_output_tokens g;
      _client := _client g; _generation_config := _generation_config g;
      _semaphore_value := _semaphore_value g; _semaphore := _semaphore g;
      _decorator_to_use := _decorator_to_use g;
      _log_directory := _log_directory g |} w).

(** The parameter names of [_set_attributes] (lines 104-114). *)
Definition _set_attributes_signature : list string :=
  ["model"; "system_message"; "temperature"; "top_p"; "top_k";
   "candidate_count"; "stream"; "stop_sequences"; "max_output_tokens";
   "semaphore"; "logging_directory"].

Definition _set_attributes (model : string) (system_message : option string)
    (temperature top_p : Q) (top_k candidate_count : Z) (stream : bool)
    (stop_sequences : option (list string)) (max_output_tokens : option Z)
    (semaphore : option Z) (logging_directory : option string) : M unit :=
  fun w =>
    let g := Gemini w in
    (Ok tt, with_Gemini {|
      _model := model;
      _system_message := system_message;
      _temperature := temperature;
      _top_p := top_p;
      _top_k := top_k;
      _candidate_count := candidate_count;
      _stream := stream;
      _stop_sequences := stop_sequences;
      _max_output_tokens := max_output_tokens;
      _semaphore_value :=
        match semaphore with
        | Some n => n
        | None => if negb (String.eqb model "gemini--1.5-pro-latest") then 15 else 2
        end;
      _log_directory := logging_directory;
      _client := _client g; _generation_config := _generation_config g;
      _semaphore := _semaphore g;
      _decorator_to_use := _decorator_to_use g |} w).

Definition _redefine_client : M unit :=
  fun w =>
    let g := Gemini w in
    let client :=
      if String.eqb (_model g) "gemini--1.5-pro-latest"
      then {| model_name := _model g; system_instruction := _system_message g |}
      else {| model_name := _model g; system_instruction := None |} in
    let config := {|
      gc_candidate_count := _candidate_count g;
      gc_stop_sequences := _stop_sequences g;
      gc_max_output_tokens := _max_output_tokens g;
      gc_temperature := _temperature g;
      gc_top_p := _top_p g;
      gc_top_k := _top_k g |} in
    let rebuilt (sem : Semaphore) := {|
      _system_message := _system_message g; _model := _model g;
      _temperature := _temperature g; _top_p := _top_p g; _top_k := _top_k g;
      _candidate_count := _candidate_count g; _stream := _stream g;
      _stop_sequences := _stop_sequences g;
      _max_output_tokens := _max_output_tokens g;
      _client := Some client; _generation_config := Some config;
      _semaphore_value := _semaphore_value g; _semaphore := sem;
      _decorator_to_use := _decorator_to_use g;
      _log_directory := _log_directory g |} in
    (* asyncio.Semaphore(value) refuses a negative value *)
    if (_semaphore_value g <? 0)%Z
    then (Raise (ValueError "Semaphore initial value must be >= 0"),
          with_Gemini (rebuilt (_semaphore g)) w)
    else (Ok tt, with_Gemini (rebuilt {| capacity := _semaphore_value g |}) w).

(** [wrapper] of [_redefine_client_decorator(func)] *)
Definition _redefine_client_decorator {A : Type} (func : M A) : M A :=
  _redefine_client ;; func.

(** [GeminiService._client], unset until [_redefine_client] has run *)
Definition client : M GenerativeModel :=
  g <- attrs ;;
  match _client g with
  | Some c => ret c
  | None => raise (AttributeError "_client")
  end.

Definition text_request (g : GeminiAttrs) (text_to_translate : string) : string :=
  if String.eqb (_model g) "gemini--1.5-pro-latest"
  then text_to_translate
  else fmt (_system_message g) ++ newline ++ text_to_translate.

Definition __translate_text (text_to_translate : string) : M pyval :=
  g <- attrs ;;
  c <- client ;;
  send (UnitRequest gemini false (system_instruction c) (text_request g text_to_translate)).

(** The body of [async with GeminiService._semaphore]; the acquire and the
    release around it are the subject of [BoundedConcurrency] below. *)
Definition __translate_text_async (text_to_translate : string) : M pyval :=
  g <- attrs ;;
  c <- client ;;
  send (UnitRequest gemini true (system_instruction c) (text_request g text_to_translate)).

(** Modelled from the spec: [decorators._sync_logging_decorator] and
    [_async_logging_decorator] are not among the sources; log-file writing
    is an external collaborator, and the wrapped function's result is
    returned as it is. *)
Definition _logging_decorator {A : Type} (func : M A) : M A := func.

Definition _translate_text (text_to_translate : string) : M pyval :=
  _redefine_client_decorator (_logging_decorator (
    g <- attrs ;;
    match _decorator_to_use g with
    | None => __translate_text text_to_translate
    | Some d =>
        let _decorated_function := apply_decorator d __translate_text in
        _decorated_function text_to_translate
    end)).

(** Calling the wrapped coroutine function runs [_redefine_client] at once
    and hands back the coroutine; its body runs when it is awaited. *)
Definition _translate_text_async (text_to_translate : string) : M (M pyval) :=
  _redefine_client_decorator (ret (_logging_decorator (
    g <- attrs ;;
    match _decorator_to_use g with
    | None => __translate_text_async text_to_translate
    | Some d =>
        let _decorated_function := apply_decorator d __translate_text_async in
        _decorated_function text_to_translate
    end))).

Definition _test_api_key_validity : M (bool * option exn) :=
  _redefine_client_decorator (
    r <- try_ (c <- client ;; send (CredentialProbe gemini)) ;;
    match r with
    | Ok _ => ret (true, None)
    | Raise e => ret (false, Some e)
    end).

Definition _get_decorator : M (option decorator) :=
  g <- attrs ;; ret (_decorator_to_use g).

(** [total_text_to_estimate] of [_calculate_cost] (lines 379-399): the
    instructions as handed to the estimator, and the whole string.  The
    [ValueError] of line 385 needs an iterable with an item that is not a
    string, which [text_arg] does not have. *)
Definition estimated_instructions (text : text_arg)
    (translation_instructions : option string) : string :=
  let translation_instructions :=
    match translation_instructions with
    | None => _default_translation_instructions
    | Some i => i
    end in
  let translation_instructions :=
    if is_iterable text
    then str_repeat translation_instructions (len text)
    else translation_instructions in
  _convert_iterable_to_str (TStr translation_instructions).

Definition estimated_text (text : text_arg) : string :=
  if is_iterable text then _convert_iterable_to_str text
  else object_repr.

Definition total_text_to_estimate (text : text_arg)
    (translation_instructions : option string) : string :=
  estimated_instructions text translation_instructions
    ++ newline ++ estimated_text text.

Definition _calculate_cost (text : text_arg) (translation_instructions : option string)
    (model : option string) : M (Z * Q * string) :=
  _redefine_client_decorator (
    let model := match model with None => _default_model | Some m => m end in
    fun w => (Ok (estimate_cost w (total_text_to_estimate text translation_instructions) model), w)).

End GeminiService.

(** ** The services whose classes are not among the sources *)

Module Service.

Definition attrs (a : api) : M ServiceAttrs := fun w => (Ok (Services w a), w).

Definition update (a : api) (f : ServiceAttrs -> ServiceAttrs) : M unit :=
  fun w =>
    (Ok tt, with_Services (fun b => if api_eqb a b then f (Services w b) else Services w b) w).

(** Modelled from the spec: [XService._set_attributes] is missing for the
    five services; "a Settings Record is fully replaced, never partially
    merged, whenever override_previous_settings = true", and the injected
    decorator is one of its fields. *)
Definition _set_attributes (a : api) (options : list (string * pyarg)) : M unit :=
  update a (fun s => {|
    settings_record := options;
    decorator_to_use :=
      match assoc "decorator" options with
      | Some (ArgDecorator d) => Some d
      | _ => None
      end;
    system_message := system_message s;
    default_translation_instructions := default_translation_instructions s |}).

(** [AnthropicService._system = ...] (easytl.py, line 1121) *)
Definition set_system (a : api) (v : option string) : M unit :=
  update a (fun s => {|
    settings_record := settings_record s;
    decorator_to_use := decorator_to_use s;
    system_message := v;
    default_translation_instructions := default_translation_instructions s |}).

(** Modelled from the spec: [XService._translate_text] is missing; the SDK
    clients are "assumed to expose translate(text) -> response", so the
    primitive sends the unit and hands back the response. *)
Definition _translate_text (a : api) (text : string) : M pyval :=
  send (UnitRequest a false None text).

(** Modelled from the spec: [XService._translate_text_async] is missing; as
    [_translate_text], on the asynchronous client. *)
Definition _translate_text_async (a : api) (text : string) : M pyval :=
  send (UnitRequest a true None text).

(** Modelled from the spec: the primitives of the chat backends are missing;
    "for LLM backends a request is always (instructions, unit)", and the
    decorator, when there is one, is "applied to the innermost undecorated
    function reference". *)
Definition _translate_text_llm (a : api) (instructions : option string) (text : string)
  : M pyval :=
  s <- attrs a ;;
  match decorator_to_use s with
  | None => send (UnitRequest a false instructions text)
  | Some d => apply_decorator d (fun t => send (UnitRequest a false instructions t)) text
  end.

(** Modelled from the spec: as [_translate_text_llm], on the asynchronous
    client. *)
Definition _translate_text_llm_async (a : api) (instructions : option string)
    (text : string) : M pyval :=
  s <- attrs a ;;
  match decorator_to_use s with
  | None => send (UnitRequest a true instructions text)
  | Some d => apply_decorator d (fun t => send (UnitRequest a true instructions t)) text
  end.

(** Modelled from the spec: the credential tests of the five services are
    missing; [test_credentials] hands back "(valid: bool, error: optional)",
    the error being what the probe raised. *)
Definition _test_credentials (a : api) : M (bool * option exn) :=
  r <- try_ (send (CredentialProbe a)) ;;
  match r with
  | Ok _ => ret (true, None)
  | Raise e => ret (false, Some e)
  end.

(** Modelled from the spec: [_build_translation_batches] is missing; a
    TranslationBatch is the "ordered sequence of TranslationUnit produced
    from either a single string (batch of size 1) or an iterable of strings
    (batch size = iterable length)". *)
Definition _build_translation_batches (text : text_arg) : list string :=
  match text with
  | TStr s => [s]
  | TIter l => l
  | TMsg c => [c]
  | TOther => []
  end.

End Service.

(** ** asyncio.gather *)

(** The completion order of [n] tasks under a scheduler's choice: the
    choice, cleared of repetitions and of indices that are no task, then the
    tasks it left out. *)
Definition completion_order (choice : list nat) (n : nat) : list nat :=
  let picked := nodup Nat.eq_dec (filter (fun i => Nat.ltb i n) choice) in
  picked ++ filter (fun i => negb (existsb (Nat.eqb i) picked)) (seq 0 n).

(** The tasks run to completion in the given order; each result is kept with
    the index of its task.  The first exception ends the wait. *)
Fixpoint run_tasks {A : Type} (tasks : list (M A)) (order : list nat)
  : M (list (nat * A)) :=
  match order with
  | [] => ret []
  | i :: rest =>
      match nth_error tasks i with
      | Some t =>
          a <- t ;; finished <- run_tasks tasks rest ;; ret ((i, a) :: finished)
      | None => run_tasks tasks rest
      end
  end.

Fixpoint result_of {A : Type} (i : nat) (finished : list (nat * A)) : list A :=
  match finished with
  | [] => []
  | (j, a) :: rest => if Nat.eqb i j then [a] else result_of i rest
  end.

(** [await asyncio.gather] on the tasks: the results, in the order of the tasks. *)
Definition gather {A : Type} (tasks : list (M A)) : M (list A) :=
  fun w =>
    let n := List.length tasks in
    (finished <- run_tasks tasks (completion_order (scheduler w n) n) ;;
     ret (flat_map (fun i => result_of i finished) (seq 0 n))) w.

(** ** easytl.py *)

Definition rbind {A B : Type} (r : res A) (k : A -> res B) : res B :=
  match r with
  | Ok a => k a
  | Raise e => Raise e
  end.

Fixpoint map_res {A B : Type} (f : A -> res B) (l : list A) : res (list B) :=
  match l with
  | [] => Ok []
  | x :: l' => rbind (f x) (fun y => rbind (map_res f l') (fun ys => Ok (y :: ys)))
  end.

Definition arg_str (o : option string) : pyarg :=
  match o with Some s => ArgStr s | None => ArgNone end.
Definition arg_float (o : option Q) : pyarg :=
  match o with Some q => ArgFloat q | None => ArgNone end.
Definition arg_int (o : option Z) : pyarg :=
  match o with Some z => ArgInt z | None => ArgNone end.
Definition arg_strs (o : option (list string)) : pyarg :=
  match o with Some l => ArgStrs l | None => ArgNone end.
Definition arg_decorator (o : option decorator) : pyarg :=
  match o with Some d => ArgDecorator d | None => ArgNone end.

(** [x == s] for an optional string [x] *)
Definition is_ (x : option string) (s : string) : bool :=
  match x with Some y => String.eqb y s | None => false end.

(** [x or d]: [None] and the empty string are falsy *)
Definition or_ (x : option string) (d : string) : string :=
  match x with
  | Some EmptyString | None => d
  | Some s => s
  end.

(** Raise what a validation helper raised, if anything. *)
Definition check (o : option exn) : M unit :=
  match o with
  | Some e => raise e
  | None => ret tt
  end.

Definition malformed : exn :=
  EasyTLException "Malformed response received. Please try again.".

Definition invalid_text : exn :=
  InvalidTextInputException "text must be a string or an iterable of strings.".

Definition invalid_text_llm : exn :=
  InvalidTextInputException "text must be a string, an iterable of strings, a ModelTranslationMessage or an iterable of ModelTranslationMessages.".

Definition invalid_response_type_2 : exn :=
  InvalidResponseFormatException "Invalid response type specified. Must be 'text' or 'raw'.".

Definition invalid_response_type_4 : exn :=
  InvalidResponseFormatException "Invalid response type specified. Must be 'text', 'raw', 'json' or 'raw_json'.".

Definition invalid_response_type_azure : exn :=
  InvalidResponseFormatException "Invalid response type specified. Must be 'text' or 'json'.".

Definition invalid_format : exn :=
  InvalidResponseFormatException "Invalid format specified. Must be 'text' or 'html'.".

(** [r.choices[0].message.content] *)
Definition chat_content (r : pyval) : res pyval :=
  rbind (getattr r "choices") (fun choices =>
  rbind (getitem0 choices) (fun choice =>
  rbind (getattr choice "message") (fun message =>
  getattr message "content"))).

(** [r['translations'][0]['text']] *)
Definition azure_text (r : pyval) : res pyval :=
  rbind (getitem r "translations") (fun translations =>
  rbind (getitem0 translations) (fun first =>
  getitem first "text")).

Module EasyTL.

(** The [exception] entries of [api_services] (lines 91-98), by class name. *)
Definition expected_exception (a : api) : string :=
  match a with
  | deepl => "DeepLException"
  | gemini => "GoogleAPIError"
  | openai => "OpenAIError"
  | google_translate => "GoogleAPIError"
  | anthropic => "AnthropicError"
  | azure => "RequestException"
  end.

(** The [test_func] entries of [api_services]. *)
Definition test_func (a : api) : M (bool * option exn) :=
  match a with
  | gemini => GeminiService._test_api_key_validity
  | _ => Service._test_credentials a
  end.

(** [isinstance(_e, cls)] for what a probe raised *)
Definition isinstance_exn (e : option exn) (cls : string) : bool :=
  match e with
  | Some (SdkError c _) => String.eqb c cls
  | _ => false
  end.

(** [api_type] ranges over the six literals of the signature, so the
    membership assertion of line 100 holds. *)
Definition test_credentials (api_type : api) : M (bool * option exn) :=
  p <- test_func api_type ;;
  let (_is_valid, _e) := p in
  if negb _is_valid
  then
    (if isinstance_exn _e (expected_exception api_type)
     then ret (false, _e)
     else raise (AssertionError _e))
  else ret (true, None).

(** The choice of [translate] in the entry points of the three backends
    that take a decorator (lines 175-182 and their siblings). *)
Definition select_translate (a : api) (decorator : option decorator)
    (primitive : string -> M pyval) : M (string -> M pyval) :=
  match decorator with
  | Some _ =>
      s <- Service.attrs a ;;
      call_decorator (decorator_to_use s) primitive
  | None => ret primitive
  end.

Definition googletl_translate (text : text_arg) (target_lang : string)
    (override_previous_settings : bool) (decorator : option decorator)
    (logging_directory : option string) (response_type : option string)
    (translation_delay : option Q) (format : string) (source_lang : option string)
  : M pyval :=
  assert_ (in_strings response_type ["text"; "raw"]) invalid_response_type_2 ;;
  assert_ (in_strings (Some format) ["text"; "html"]) invalid_format ;;
  test_credentials google_translate ;;
  (if override_previous_settings
   then Service._set_attributes google_translate
          [("target_language", ArgStr target_lang);
           ("format", ArgStr format);
           ("source_language", arg_str source_lang);
           ("decorator", arg_decorator decorator);
           ("logging_directory", arg_str logging_directory);
           ("semaphore", ArgNone);
           ("rate_limit_delay", arg_float translation_delay)]
   else ret tt) ;;
  translate <- select_translate google_translate decorator
                 (Service._translate_text google_translate) ;;
  match text with
  | TStr s =>
      result <- translate s ;;
      assert_ (negb (isinstance_list result)) malformed ;;
      if is_ response_type "raw" then ret result
      else lift (getitem result "translatedText")
  | TIter l =>
      results <- for_each translate l ;;
      assert_ (isinstance_list (PyList results)) malformed ;;
      if is_ response_type "text"
      then texts <- lift (map_res (fun r => getitem r "translatedText") results) ;;
           ret (PyList texts)
      else ret (PyList results)
  | _ => raise invalid_text
  end.

Definition googletl_translate_async (text : text_arg) (target_lang : string)
    (override_previous_settings : bool) (decorator : option decorator)
    (logging_directory : option string) (response_type : option string)
    (semaphore : option Z) (translation_delay : option Q) (format : string)
    (source_lang : option string) : M pyval :=
  assert_ (in_strings response_type ["text"; "raw"]) invalid_response_type_2 ;;
  assert_ (in_strings (Some format) ["text"; "html"]) invalid_format ;;
  test_credentials google_translate ;;
  (if override_previous_settings
   then Service._set_attributes google_translate
          [("target_language", ArgStr target_lang);
           ("format", ArgStr format);
           ("source_language", arg_str source_lang);
           ("decorator", arg_decorator decorator);
           ("logging_directory", arg_str logging_directory);
           ("semaphore", arg_int semaphore);
           ("rate_limit_delay", arg_float translation_delay)]
   else ret tt) ;;
  translate <- select_translate google_translate decorator
                 (Service._translate_text_async google_translate) ;;
  match text with
  | TStr s =>
      _result <- translate s ;;
      assert_ (negb (isinstance_list _result)) malformed ;;
      if is_ response_type "raw" then ret _result
      else lift (getitem _result "translatedText")
  | TIter l =>
      let _tasks := map translate l in
      _results <- gather _tasks ;;
      assert_ (isinstance_list (PyList _results)) malformed ;;
      if is_ response_type "text"
      then texts <- lift (map_res (fun r => getitem r "translatedText") _results) ;;
           ret (PyList texts)
      else ret (PyList _results)
  | _ => raise invalid_text
  end.

Definition deepl_options (target_lang source_lang context split_sentences
    preserve_formatting formality glossary tag_handling outline_detection
    non_splitting_tags splitting_tags ignore_tags : pyarg)
    (decorator : option decorator) (logging_directory : option string)
    (semaphore : option Z) (translation_delay : option Q)
  : list (string * pyarg) :=
  [("target_lang", target_lang);
   ("source_lang", source_lang);
   ("context", context);
   ("split_sentences", split_sentences);
   ("preserve_formatting", preserve_formatting);
   ("formality", formality);
   ("glossary", glossary);
   ("tag_handling", tag_handling);
   ("outline_detection", outline_detection);
   ("non_splitting_tags", non_splitting_tags);
   ("splitting_tags", splitting_tags);
   ("ignore_tags", ignore_tags);
   ("decorator", arg_decorator decorator);
   ("logging_directory", arg_str logging_directory);
   ("semaphore", arg_int semaphore);
   ("rate_limit_delay", arg_float translation_delay)].

Definition deepl_translate (text : text_arg) (target_lang : pyarg)
    (override_previous_settings : bool) (decorator : option decorator)
    (logging_directory : option string) (response_type : option string)
    (translation_delay : option Q)
    (source_lang context split_sentences preserve_formatting formality glossary
     tag_handling outline_detection non_splitting_tags splitting_tags
     ignore_tags : pyarg) : M pyval :=
  assert_ (in_strings response_type ["text"; "raw"]) invalid_response_type_2 ;;
  test_credentials deepl ;;
  (if override_previous_settings
   then Service._set_attributes deepl
          (deepl_options target_lang source_lang context split_sentences
             preserve_formatting formality glossary tag_handling outline_detection
             non_splitting_tags splitting_tags ignore_tags
             decorator logging_directory None translation_delay)
   else ret tt) ;;
  translate <- select_translate deepl decorator (Service._translate_text deepl) ;;
  match text with
  | TStr s =>
      result <- translate s ;;
      assert_ (negb (isinstance_list result)) malformed ;;
      if is_ response_type "raw" then ret result
      else lift (getattr result "text")
  | TIter l =>
      results <- for_each translate l ;;
      assert_ (isinstance_list (PyList results)) malformed ;;
      if is_ response_type "text"
      then texts <- lift (map_res (fun r => getattr r "text") results) ;;
           ret (PyList texts)
      else ret (PyList results)
  | _ => raise invalid_text
  end.

Definition deepl_translate_async (text : text_arg) (target_lang : pyarg)
    (override_previous_settings : bool) (decorator : option decorator)
    (logging_directory : option string) (response_type : option string)
    (semaphore : option Z) (translation_delay : option Q)
    (source_lang context split_sentences preserve_formatting formality glossary
     tag_handling outline_detection non_splitting_tags splitting_tags
     ignore_tags : pyarg) : M pyval :=
  assert_ (in_strings response_type ["text"; "raw"]) invalid_response_type_2 ;;
  test_credentials deepl ;;
  (if override_previous_settings
   then Service._set_attributes deepl
          (deepl_options target_lang source_lang context split_sentences
             preserve_formatting formality glossary tag_handling outline_detection
             non_splitting_tags splitting_tags ignore_tags
             decorator logging_directory semaphore translation_delay)
   else ret tt) ;;
  translate <- select_translate deepl decorator (Service._translate_text_async deepl) ;;
  match text with
  | TStr s =>
      _result <- translate s ;;
      assert_ (negb (isinstance_list _result)) malformed ;;
      if is_ response_type "raw" then ret _result
      else lift (getattr _result "text")
  | TIter l =>
      let _tasks := map translate l in
      _results <- gather _tasks ;;
      assert_ (isinstance_list (PyList _results)) malformed ;;
      if is_ response_type "text"
      then texts <- lift (map_res (fun r => getattr r "text") _results) ;;
           ret (PyList texts)
      else ret (PyList _results)
  | _ => raise invalid_text
  end.

Definition azure_options (target_lang api_version azure_region azure_endpoint : string)
    (source_lang : option string) (decorator : option decorator)
    (logging_directory : option string) (semaphore : option Z)
    (translation_delay : option Q) : list (string * pyarg) :=
  [("target_language", ArgStr target_lang);
   ("api_version", ArgStr api_version);
   ("azure_region", ArgStr azure_region);
   ("azure_endpoint", ArgStr azure_endpoint);
   ("source_language", arg_str source_lang);
   ("decorator", arg_decorator decorator);
   ("log_directory", arg_str logging_directory);
   ("semaphore", arg_int semaphore);
   ("rate_limit_delay", arg_float translation_delay)].

Definition azure_translate (text : text_arg) (target_lang : string)
    (override_previous_settings : bool) (decorator : option decorator)
    (logging_directory : option string) (response_type : option string)
    (translation_delay : option Q) (api_version azure_region azure_endpoint : string)
    (source_lang : option string) : M pyval :=
  assert_ (in_strings response_type ["text"; "json"]) invalid_response_type_azure ;;
  test_credentials azure ;;
  (if override_previous_settings
   then Service._set_attributes azure
          (azure_options target_lang api_version azure_region azure_endpoint
             source_lang decorator logging_directory None translation_delay)
   else ret tt) ;;
  translate <- select_translate azure decorator (Service._translate_text azure) ;;
  match text with
  | TStr s =>
      r <- translate s ;;
      result <- lift (getitem0 r) ;;
      assert_ (negb (isinstance_list result)) malformed ;;
      if is_ response_type "json" then ret result
      else lift (azure_text result)
  | TIter l =>
      _results <- for_each translate l ;;
      assert_ (isinstance_list (PyList _results)) malformed ;;
      if is_ response_type "json" then ret (PyList _results)
      else texts <- lift (map_res (fun result => rbind (getitem0 result) azure_text) _results) ;;
           ret (PyList texts)
  | _ => raise invalid_text
  end.

Definition azure_translate_async (text : text_arg) (target_lang : string)
    (override_previous_settings : bool) (decorator : option decorator)
    (logging_directory : option string) (response_type : option string)
    (semaphore : option Z) (translation_delay : option Q)
    (api_version azure_region azure_endpoint : string)
    (source_lang : option string) : M pyval :=
  assert_ (in_strings response_type ["text"; "json"]) invalid_response_type_azure ;;
  test_credentials azure ;;
  (if override_previous_settings
   then Service._set_attributes azure
          (azure_options target_lang api_version azure_region azure_endpoint
             source_lang decorator logging_directory semaphore translation_delay)
   else ret tt) ;;
  translate <- select_translate azure decorator (Service._translate_text_async azure) ;;
  match text with
  | TStr s =>
      r <- translate s ;;
      result <- lift (getitem0 r) ;;
      assert_ (negb (isinstance_list result)) malformed ;;
      if is_ response_type "json" then ret result
      else lift (azure_text result)
  | TIter l =>
      let _tasks := map translate l in
      _results <- gather _tasks ;;
      assert_ (isinstance_list (PyList _results)) malformed ;;
      if is_ response_type "json" then ret (PyList _results)
      else texts <- lift (map_res (fun result => rbind (getitem0 result) azure_text) _results) ;;
           ret (PyList texts)
  | _ => raise invalid_text
  end.

(** The keywords of the [GeminiService._set_attributes] call of the two
    Gemini entry points (lines 624-638 and 747-761). *)
Definition gemini_set_attributes_keywords : list string :=
  ["model"; "system_message"; "temperature"; "top_p"; "top_k";
   "candidate_count"; "stream"; "stop_sequences"; "max_output_tokens";
   "decorator"; "logging_directory"; "semaphore"; "rate_limit_delay";
   "json_mode"; "response_schema"].

Definition gemini_locals (override_previous_settings : bool)
    (decorator : option decorator) (logging_directory : option string)
    (response_type : option string) (response_schema : pyarg)
    (semaphore : option Z) (translation_delay : option Q)
    (translation_instructions : option string) (model : string)
    (temperature top_p : Q) (top_k : Z) (stop_sequences : option (list string))
    (max_output_tokens : option Z) : list (string * pyarg) :=
  [("override_previous_settings", ArgBool override_previous_settings);
   ("decorator", arg_decorator decorator);
   ("logging_directory", arg_str logging_directory);
   ("response_type", arg_str response_type);
   ("response_schema", response_schema);
   ("semaphore", arg_int semaphore);
   ("translation_delay", arg_float translation_delay);
   ("translation_instructions", arg_str translation_instructions);
   ("model", ArgStr model);
   ("temperature", ArgFloat temperature);
   ("top_p", ArgFloat top_p);
   ("top_k", ArgInt top_k);
   ("stop_sequences", arg_strs stop_sequences);
   ("max_output_tokens", arg_int max_output_tokens)].

(** Lines 606-619 and 729-742: the checks before the settings write. *)
Definition gemini_checks (text : text_arg) (locals : list (string * pyarg))
    (response_type : option string) (response_schema : pyarg) (model : string)
    (stop_sequences : option (list string)) : M pyarg :=
  assert_ (in_strings response_type ["text"; "raw"; "json"; "raw_json"])
    invalid_response_type_4 ;;
  u <- (fun w => (Ok (util w), w)) ;;
  check (validate_settings u gemini locals) ;;
  check (validate_stop_sequences u (arg_strs stop_sequences)) ;;
  check (validate_text_length u text model gemini) ;;
  response_schema <- lift (validate_response_schema u response_schema) ;;
  test_credentials gemini ;;
  ret response_schema.

Definition gemini_translate (text : text_arg) (override_previous_settings : bool)
    (decorator : option decorator) (logging_directory : option string)
    (response_type : option string) (response_schema : pyarg)
    (translation_delay : option Q) (translation_instructions : option string)
    (model : string) (temperature top_p : Q) (top_k : Z)
    (stop_sequences : option (list string)) (max_output_tokens : option Z)
  : M pyval :=
  response_schema <- gemini_checks text
    (gemini_locals override_previous_settings decorator logging_directory
       response_type response_schema None translation_delay
       translation_instructions model temperature top_p top_k stop_sequences
       max_output_tokens)
    response_type response_schema model stop_sequences ;;
  let json_mode := in_strings response_type ["json"; "raw_json"] in
  (if override_previous_settings
   then
     call_with_keywords GeminiService._set_attributes_signature
       gemini_set_attributes_keywords
       (GeminiService._set_attributes model translation_instructions temperature
          top_p top_k 1 false stop_sequences max_output_tokens None
          logging_directory) ;;
     GeminiService.set_system_message
       (Some (or_ translation_instructions
                GeminiService._default_translation_instructions))
   else ret tt) ;;
  match text with
  | TStr s =>
      _result <- GeminiService._translate_text s ;;
      assert_ (negb (isinstance_list _result) && hasattr _result "text") malformed ;;
      if in_strings response_type ["raw"; "raw_json"] then ret _result
      else lift (getattr _result "text")
  | TIter l =>
      _results <- for_each GeminiService._translate_text l ;;
      assert_ (isinstance_list (PyList _results)
               && forallb (fun _r => hasattr _r "text") _results) malformed ;;
      if in_strings response_type ["text"; "json"]
      then texts <- lift (map_res (fun _r => getattr _r "text") _results) ;;
           ret (PyList texts)
      else ret (PyList _results)
  | _ => raise invalid_text
  end.

Definition gemini_translate_async (text : text_arg) (override_previous_settings : bool)
    (decorator : option decorator) (logging_directory : option string)
    (response_type : option string) (response_schema : pyarg)
    (semaphore : option Z) (translation_delay : option Q)
    (translation_instructions : option string)
    (model : string) (temperature top_p : Q) (top_k : Z)
    (stop_sequences : option (list string)) (max_output_tokens : option Z)
  : M pyval :=
  response_schema <- gemini_checks text
    (gemini_locals override_previous_settings decorator logging_directory
       response_type response_schema semaphore translation_delay
       translation_instructions model temperature top_p top_k stop_sequences
       max_output_tokens)
    response_type response_schema model stop_sequences ;;
  let json_mode := in_strings response_type ["json"; "raw_json"] in
  (if override_previous_settings
   then
     call_with_keywords GeminiService._set_attributes_signature
       gemini_set_attributes_keywords
       (GeminiService._set_attributes model translation_instructions temperature
          top_p top_k 1 false stop_sequences max_output_tokens semaphore
          logging_directory) ;;
     GeminiService.set_system_message
       (Some (or_ translation_instructions
                GeminiService._default_translation_instructions))
   else ret tt) ;;
  match text with
  | TStr s =>
      coroutine <- GeminiService._translate_text_async s ;;
      _result <- coroutine ;;
      if in_strings response_type ["raw"; "raw_json"] then ret _result
      else lift (getattr _result "text")
  | TIter l =>
      _tasks <- for_each GeminiService._translate_text_async l ;;
      _results <- gather _tasks ;;
      if in_strings response_type ["text"; "json"]
      then texts <- lift (map_res (fun _r => getattr _r "text") _results) ;;
           ret (PyList texts)
      else ret (PyList _results)
  | _ => raise invalid_text
  end.

Definition openai_options (model : string)
    (temperature top_p stop max_tokens presence_penalty frequency_penalty : pyarg)
    (decorator : option decorator) (logging_directory : option string)
    (semaphore : option Z) (translation_delay : option Q) (json_mode : bool)
  : list (string * pyarg) :=
  [("model", ArgStr model);
   ("temperature", temperature);
   ("logit_bias", ArgNone);
   ("top_p", top_p);
   ("n", ArgInt 1);
   ("stop", stop);
   ("max_tokens", max_tokens);
   ("presence_penalty", presence_penalty);
   ("frequency_penalty", frequency_penalty);
   ("decorator", arg_decorator decorator);
   ("logging_directory", arg_str logging_directory);
   ("semaphore", arg_int semaphore);
   ("rate_limit_delay", arg_float translation_delay);
   ("json_mode", ArgBool json_mode)].

Definition llm_locals (override_previous_settings : bool)
    (response_type translation_instructions : option string)
    (options : list (string * pyarg)) : list (string * pyarg) :=
  ("override_previous_settings", ArgBool override_previous_settings)
  :: ("response_type", arg_str response_type)
  :: ("translation_instructions", arg_str translation_instructions)
  :: options.

(** Lines 845-856 and 963-974: the checks before the settings write. *)
Definition openai_checks (text : text_arg) (locals : list (string * pyarg))
    (response_type : option string) (model : string) (stop : pyarg) : M unit :=
  assert_ (in_strings response_type ["text"; "raw"; "json"; "raw_json"])
    invalid_response_type_4 ;;
  u <- (fun w => (Ok (util w), w)) ;;
  check (validate_settings u openai locals) ;;
  check (validate_stop_sequences u stop) ;;
  check (validate_text_length u text model openai) ;;
  test_credentials openai ;;
  ret tt.

(** Lines 860-880 and 978-998: the settings write and the instructions of
    the call. *)
Definition openai_settings (override_previous_settings : bool)
    (options : list (string * pyarg)) (translation_instructions : option string)
  : M (option string) :=
  if override_previous_settings
  then
    Service._set_attributes openai options ;;
    s <- Service.attrs openai ;;
    ret (Some (or_ translation_instructions (default_translation_instructions s)))
  else
    s <- Service.attrs openai ;;
    ret (system_message s).

(** The batches of OpenAI pair each unit with the instructions. *)
Definition openai_batches (text : text_arg) (translation_instructions : option string)
  : list (string * option string) :=
  map (fun t => (t, translation_instructions)) (Service._build_translation_batches text).

(** Line 882 and its siblings. *)
Definition assert_text_llm (text : text_arg) : M unit :=
  assert_ (is_str text || _is_iterable_of_strings text || is_message text
           || _is_iterable_of_strings text) invalid_text_llm.

(** [isinstance(text, typing.Iterable) and not isinstance(text, str)] *)
Definition was_iterable (text : text_arg) : bool :=
  is_iterable text && negb (is_str text).

Definition openai_translate (text : text_arg) (override_previous_settings : bool)
    (decorator : option decorator) (logging_directory : option string)
    (response_type : option string) (translation_delay : option Q)
    (translation_instructions : option string) (model : string)
    (temperature top_p stop max_tokens presence_penalty frequency_penalty : pyarg)
  : M pyval :=
  let json_mode := in_strings response_type ["json"; "raw_json"] in
  let options := openai_options model temperature top_p stop max_tokens
                   presence_penalty frequency_penalty decorator logging_directory
                   None translation_delay json_mode in
  openai_checks text
    (llm_locals override_previous_settings response_type translation_instructions options)
    response_type model stop ;;
  translation_instructions <-
    openai_settings override_previous_settings options translation_instructions ;;
  assert_text_llm text ;;
  let translation_batches := openai_batches text translation_instructions in
  translations <-
    for_each (fun b : string * option string =>
      let (_text, _translation_instructions) := b in
      _result <- Service._translate_text_llm openai _translation_instructions _text ;;
      assert_ (negb (isinstance_list _result) && hasattr _result "choices") malformed ;;
      if in_strings response_type ["raw"; "raw_json"] then ret _result
      else lift (chat_content _result)) translation_batches ;;
  if was_iterable text then ret (PyList translations)
  else lift (getitem0 (PyList translations)).

(** The comprehension of line 1016: the contents that are not [None]. *)
Fixpoint contents_not_none (_results : list pyval) : res (list pyval) :=
  match _results with
  | [] => Ok []
  | result :: rest =>
      rbind (chat_content result) (fun c =>
      rbind (contents_not_none rest) (fun cs =>
      Ok (if negb (is_none c) then c :: cs else cs)))
  end.

Definition openai_translate_async (text : text_arg) (override_previous_settings : bool)
    (decorator : option decorator) (logging_directory : option string)
    (response_type : option string) (semaphore : option Z)
    (translation_delay : option Q)
    (translation_instructions : option string) (model : string)
    (temperature top_p stop max_tokens presence_penalty frequency_penalty : pyarg)
  : M pyval :=
  let json_mode := in_strings response_type ["json"; "raw_json"] in
  let options := openai_options model temperature top_p stop max_tokens
                   presence_penalty frequency_penalty decorator logging_directory
                   semaphore translation_delay json_mode in
  openai_checks text
    (llm_locals override_previous_settings response_type translation_instructions options)
    response_type model stop ;;
  translation_instructions <-
    openai_settings override_previous_settings options translation_instructions ;;
  assert_text_llm text ;;
  let _translation_batches := openai_batches text translation_instructions in
  let _translation_tasks :=
    map (fun b : string * option string =>
           let (_text, _translation_instructions) := b in
           Service._translate_text_llm_async openai _translation_instructions _text)
        _translation_batches in
  _results <- gather _translation_tasks ;;
  assert_ (forallb (fun _r => hasattr _r "choices") _results) malformed ;;
  translation <-
    (if in_strings response_type ["raw"; "raw_json"] then ret _results
     else lift (contents_not_none _results)) ;;
  if was_iterable text then ret (PyList translation)
  else lift (getitem0 (PyList translation)).

Definition anthropic_options (model : string) (translation_instructions : option string)
    (temperature top_p top_k stop_sequences max_output_tokens : pyarg)
    (decorator : option decorator) (logging_directory : option string)
    (semaphore : option Z) (translation_delay : option Q) (json_mode : bool)
    (response_schema : pyarg) : list (string * pyarg) :=
  [("model", ArgStr model);
   ("system", arg_str translation_instructions);
   ("temperature", temperature);
   ("top_p", top_p);
   ("top_k", top_k);
   ("stop_sequences", stop_sequences);
   ("stream", ArgBool false);
   ("max_tokens", max_output_tokens);
   ("decorator", arg_decorator decorator);
   ("logging_directory", arg_str logging_directory);
   ("semaphore", arg_int semaphore);
   ("rate_limit_delay", arg_float translation_delay);
   ("json_mode", ArgBool json_mode);
   ("response_schema", response_schema)].

(** Lines 1087-1100 and 1228-1241: the checks before the settings write. *)
Definition anthropic_checks (text : text_arg) (locals : list (string * pyarg))
    (response_type : option string) (response_schema : pyarg) (model : string)
    (stop_sequences : pyarg) : M pyarg :=
  assert_ (in_strings response_type ["text"; "raw"; "json"; "raw_json"])
    invalid_response_type_4 ;;
  u <- (fun w => (Ok (util w), w)) ;;
  check (validate_settings u anthropic locals) ;;
  check (validate_stop_sequences u stop_sequences) ;;
  check (validate_text_length u text model anthropic) ;;
  response_schema <- lift (validate_response_schema u response_schema) ;;
  test_credentials anthropic ;;
  ret response_schema.

(** Lines 1104-1121 and 1245-1262: the settings write, then the dependent
    write of [AnthropicService._system]. *)
Definition anthropic_settings (override_previous_settings : bool)
    (options : list (string * pyarg)) (translation_instructions : option string)
  : M unit :=
  if override_previous_settings
  then
    Service._set_attributes anthropic options ;;
    s <- Service.attrs anthropic ;;
    Service.set_system anthropic
      (Some (or_ translation_instructions (default_translation_instructions s)))
  else ret tt.

(** [v.content[0]] *)
Definition first_block (v : pyval) : res pyval :=
  rbind (getattr v "content") getitem0.

(** One turn of the loop of lines 1129-1151; [translation] is the local
    variable of that name, which a turn may leave as it was. *)
Definition anthropic_turn (response_type : option string)
    (translation : option pyval) (_text : string) : M (option pyval) :=
  s <- Service.attrs anthropic ;;
  _result <- Service._translate_text_llm anthropic (system_message s) _text ;;
  assert_ (negb (isinstance_list _result) && hasattr _result "content") malformed ;;
  if in_strings response_type ["raw"; "raw_json"] then ret (Some _result)
  else if isinstance _result "AnthropicToolsBetaMessage" then
    block <- lift (first_block _result) ;;
    if isinstance block "AnthropicTextBlock"
    then t <- lift (getattr block "text") ;; ret (Some t)
    else if isinstance block "AnthropicToolUseBlock"
    then t <- lift (getattr block "input") ;; ret (Some t)
    else ret translation
  else if isinstance _result "AnthropicMessage" then
    block <- lift (first_block _result) ;;
    t <- lift (getattr block "text") ;; ret (Some t)
  else ret translation.

Fixpoint anthropic_loop (response_type : option string) (_translation_batches : list string)
    (translation : option pyval) (_translations : list pyval) : M (list pyval) :=
  match _translation_batches with
  | [] => ret _translations
  | _text :: rest =>
      translation <- anthropic_turn response_type translation _text ;;
      match translation with
      | Some t => anthropic_loop response_type rest translation (_translations ++ [t])
      | None => raise (UnboundLocalError "translation")
      end
  end.

Definition anthropic_translate (text : text_arg) (override_previous_settings : bool)
    (decorator : option decorator) (logging_directory : option string)
    (response_type : option string) (response_schema : pyarg)
    (translation_delay : option Q) (translation_instructions : option string)
    (model : string)
    (temperature top_p top_k stop_sequences max_output_tokens : pyarg) : M pyval :=
  let json_mode := in_strings response_type ["json"; "raw_json"] in
  response_schema <- anthropic_checks text
    (llm_locals override_previous_settings response_type translation_instructions
       (anthropic_options model translation_instructions temperature top_p top_k
          stop_sequences max_output_tokens decorator logging_directory None
          translation_delay json_mode response_schema))
    response_type response_schema model stop_sequences ;;
  anthropic_settings override_previous_settings
    (anthropic_options model translation_instructions temperature top_p top_k
       stop_sequences max_output_tokens decorator logging_directory None
       translation_delay json_mode response_schema)
    translation_instructions ;;
  assert_text_llm text ;;
  let _translation_batches := Service._build_translation_batches text in
  _translations <- anthropic_loop response_type _translation_batches None [] ;;
  if was_iterable text then ret (PyList _translations)
  else lift (getitem0 (PyList _translations)).

(** The comprehension of line 1285. *)
Definition tools_beta_translation (result : pyval) : res pyval :=
  rbind (first_block result) (fun block =>
  if isinstance block "AnthropicToolUseBlock"
  then getattr block "input"
  else getattr block "text").

(** The comprehension of line 1288: the texts of the results whose first
    block is a text block. *)
Fixpoint message_translations (_results : list pyval) : res (list pyval) :=
  match _results with
  | [] => Ok []
  | result :: rest =>
      rbind (first_block result) (fun block =>
      if isinstance block "AnthropicTextBlock"
      then rbind (getattr block "text") (fun t =>
           rbind (message_translations rest) (fun ts => Ok (t :: ts)))
      else message_translations rest)
  end.

Definition anthropic_translate_async (text : text_arg) (override_previous_settings : bool)
    (decorator : option decorator) (logging_directory : option string)
    (response_type : option string) (response_schema : pyarg)
    (semaphore : option Z) (translation_delay : option Q)
    (translation_instructions : option string) (model : string)
    (temperature top_p top_k stop_sequences max_output_tokens : pyarg) : M pyval :=
  let json_mode := in_strings response_type ["json"; "raw_json"] in
  response_schema <- anthropic_checks text
    (llm_locals override_previous_settings response_type translation_instructions
       (anthropic_options model translation_instructions temperature top_p top_k
          stop_sequences max_output_tokens decorator logging_directory semaphore
          translation_delay json_mode response_schema))
    response_type response_schema model stop_sequences ;;
  anthropic_settings override_previous_settings
    (anthropic_options model translation_instructions temperature top_p top_k
       stop_sequences max_output_tokens decorator logging_directory semaphore
       translation_delay json_mode response_schema)
    translation_instructions ;;
  assert_text_llm text ;;
  let _translation_batches := Service._build_translation_batches text in
  s <- Service.attrs anthropic ;;
  let _translations_tasks :=
    map (Service._translate_text_llm_async anthropic (system_message s))
        _translation_batches in
  _results <- gather _translations_tasks ;;
  assert_ (forallb (fun _r => hasattr _r "content") _results) malformed ;;
  translations <-
    (if in_strings response_type ["raw"; "raw_json"] then ret _results
     else
       first <- lift (getitem0 (PyList _results)) ;;
       if isinstance first "AnthropicToolsBetaMessage"
       then lift (map_res tools_beta_translation _results)
       else if isinstance first "AnthropicMessage"
       then lift (message_translations _results)
       else raise (UnboundLocalError "translations")) ;;
  if was_iterable text then ret (PyList translations)
  else lift (getitem0 (PyList translations)).

End EasyTL.

(** ** The twelve translate operations as data *)

(** One constructor per entry point, with the arguments of its signature. *)
Inductive operation : Type :=
| googletl_translate (text : text_arg) (target_lang : string)
    (override_previous_settings : bool) (decorator : option decorator)
    (logging_directory : option string) (response_type : option string)
    (translation_delay : option Q) (format : string) (source_lang : option string)
| googletl_translate_async (text : text_arg) (target_lang : string)
    (override_previous_settings : bool) (decorator : option decorator)
    (logging_directory : option string) (response_type : option string)
    (semaphore : option Z) (translation_delay : option Q) (format : string)
    (source_lang : option string)
| deepl_translate (text : text_arg) (target_lang : pyarg)
    (override_previous_settings : bool) (decorator : option decorator)
    (logging_directory : option string) (response_type : option string)
    (translation_delay : option Q)
    (source_lang context split_sentences preserve_formatting formality glossary
     tag_handling outline_detection non_splitting_tags splitting_tags
     ignore_tags : pyarg)
| deepl_translate_async (text : text_arg) (target_lang : pyarg)
    (override_previous_settings : bool) (decorator : option decorator)
    (logging_directory : option string) (response_type : option string)
    (semaphore : option Z) (translation_delay : option Q)
    (source_lang context split_sentences preserve_formatting formality glossary
     tag_handling outline_detection non_splitting_tags splitting_tags
     ignore_tags : pyarg)
| gemini_translate (text : text_arg) (override_previous_settings : bool)
    (decorator : option decorator) (logging_directory : option string)
    (response_type : option string) (response_schema : pyarg)
    (translation_delay : option Q) (translation_instructions : option string)
    (model : string) (temperature top_p : Q) (top_k : Z)
    (stop_sequences : option (list string)) (max_output_tokens : option Z)
| gemini_translate_async (text : text_arg) (override_previous_settings : bool)
    (decorator : option decorator) (logging_directory : option string)
    (response_type : option string) (response_schema : pyarg)
    (semaphore : option Z) (translation_delay : option Q)
    (translation_instructions : option string)
    (model : string) (temperature top_p : Q) (top_k : Z)
    (stop_sequences : option (list string)) (max_output_tokens : option Z)
| openai_translate (text : text_arg) (override_previous_settings : bool)
    (decorator : option decorator) (logging_directory : option string)
    (response_type : option string) (translation_delay : option Q)
    (translation_instructions : option string) (model : string)
    (temperature top_p stop max_tokens presence_penalty frequency_penalty : pyarg)
| openai_translate_async (text : text_arg) (override_previous_settings : bool)
    (decorator : option decorator) (logging_directory : option string)
    (response_type : option string) (semaphore : option Z)
    (translation_delay : option Q)
    (translation_instructions : option string) (model : string)
    (temperature top_p stop max_tokens presence_penalty frequency_penalty : pyarg)
| anthropic_translate (text : text_arg) (override_previous_settings : bool)
    (decorator : option decorator) (logging_directory : option string)
    (response_type : option string) (response_schema : pyarg)
    (translation_delay : option Q) (translation_instructions : option string)
    (model : string)
    (temperature top_p top_k stop_sequences max_output_tokens : pyarg)
| anthropic_translate_async (text : text_arg) (override_previous_settings : bool)
    (decorator : option decorator) (logging_directory : option string)
    (response_type : option string) (response_schema : pyarg)
    (semaphore : option Z) (translation_delay : option Q)
    (translation_instructions : option string) (model : string)
    (temperature top_p top_k stop_sequences max_output_tokens : pyarg)
| azure_translate (text : text_arg) (target_lang : string)
    (override_previous_settings : bool) (decorator : option decorator)
    (logging_directory : option string) (response_type : option string)
    (translation_delay : option Q) (api_version azure_region azure_endpoint : string)
    (source_lang : option string)
| azure_translate_async (text : text_arg) (target_lang : string)
    (override_previous_settings : bool) (decorator : option decorator)
    (logging_directory : option string) (response_type : option string)
    (semaphore : option Z) (translation_delay : option Q)
    (api_version azure_region azure_endpoint : string)
    (source_lang : option string).

(** The call of the entry point. *)
Definition run (o : operation) : M pyval :=
  match o with
  | googletl_translate a1 a2 a3 a4 a5 a6 a7 a8 a9 =>
      EasyTL.googletl_translate a1 a2 a3 a4 a5 a6 a7 a8 a9
  | googletl_translate_async a1 a2 a3 a4 a5 a6 a7 a8 a9 a10 =>
      EasyTL.googletl_translate_async a1 a2 a3 a4 a5 a6 a7 a8 a9 a10
  | deepl_translate a1 a2 a3 a4 a5 a6 a7 a8 a9 a10 a11 a12 a13 a14 a15 a16 a17 a18 =>
      EasyTL.deepl_translate a1 a2 a3 a4 a5 a6 a7 a8 a9 a10 a11 a12 a13 a14 a15 a16
        a17 a18
  | deepl_translate_async a1 a2 a3 a4 a5 a6 a7 a8 a9 a10 a11 a12 a13 a14 a15 a16 a17
      a18 a19 =>
      EasyTL.deepl_translate_async a1 a2 a3 a4 a5 a6 a7 a8 a9 a10 a11 a12 a13 a14 a15
        a16 a17 a18 a19
  | gemini_translate a1 a2 a3 a4 a5 a6 a7 a8 a9 a10 a11 a12 a13 a14 =>
      EasyTL.gemini_translate a1 a2 a3 a4 a5 a6 a7 a8 a9 a10 a11 a12 a13 a14
  | gemini_translate_async a1 a2 a3 a4 a5 a6 a7 a8 a9 a10 a11 a12 a13 a14 a15 =>
      EasyTL.gemini_translate_async a1 a2 a3 a4 a5 a6 a7 a8 a9 a10 a11 a12 a13 a14 a15
  | openai_translate a1 a2 a3 a4 a5 a6 a7 a8 a9 a10 a11 a12 a13 a14 =>
      EasyTL.openai_translate a1 a2 a3 a4 a5 a6 a7 a8 a9 a10 a11 a12 a13 a14
  | openai_translate_async a1 a2 a3 a4 a5 a6 a7 a8 a9 a10 a11 a12 a13 a14 a15 =>
      EasyTL.openai_translate_async a1 a2 a3 a4 a5 a6 a7 a8 a9 a10 a11 a12 a13 a14 a15
  | anthropic_translate a1 a2 a3 a4 a5 a6 a7 a8 a9 a10 a11 a12 a13 a14 =>
      EasyTL.anthropic_translate a1 a2 a3 a4 a5 a6 a7 a8 a9 a10 a11 a12 a13 a14
  | anthropic_translate_async a1 a2 a3 a4 a5 a6 a7 a8 a9 a10 a11 a12 a13 a14 a15 =>
      EasyTL.anthropic_translate_async a1 a2 a3 a4 a5 a6 a7 a8 a9 a10 a11 a12 a13 a14
        a15
  | azure_translate a1 a2 a3 a4 a5 a6 a7 a8 a9 a10 a11 =>
      EasyTL.azure_translate a1 a2 a3 a4 a5 a6 a7 a8 a9 a10 a11
  | azure_translate_async a1 a2 a3 a4 a5 a6 a7 a8 a9 a10 a11 a12 =>
      EasyTL.azure_translate_async a1 a2 a3 a4 a5 a6 a7 a8 a9 a10 a11 a12
  end.

Definition backend_of (o : operation) : api :=
  match o with
  | googletl_translate _ _ _ _ _ _ _ _ _
  | googletl_translate_async _ _ _ _ _ _ _ _ _ _ => google_translate
  | deepl_translate _ _ _ _ _ _ _ _ _ _ _ _ _ _ _ _ _ _
  | deepl_translate_async _ _ _ _ _ _ _ _ _ _ _ _ _ _ _ _ _ _ _ => deepl
  | gemini_translate _ _ _ _ _ _ _ _ _ _ _ _ _ _
  | gemini_translate_async _ _ _ _ _ _ _ _ _ _ _ _ _ _ _ => gemini
  | openai_translate _ _ _ _ _ _ _ _ _ _ _ _ _ _
  | openai_translate_async _ _ _ _ _ _ _ _ _ _ _ _ _ _ _ => openai
  | anthropic_translate _ _ _ _ _ _ _ _ _ _ _ _ _ _
  | anthropic_translate_async _ _ _ _ _ _ _ _ _ _ _ _ _ _ _ => anthropic
  | azure_translate _ _ _ _ _ _ _ _ _ _ _
  | azure_translate_async _ _ _ _ _ _ _ _ _ _ _ _ => azure
  end.

Definition is_async (o : operation) : bool :=
  match o with
  | googletl_translate_async _ _ _ _ _ _ _ _ _ _
  | deepl_translate_async _ _ _ _ _ _ _ _ _ _ _ _ _ _ _ _ _ _ _
  | gemini_translate_async _ _ _ _ _ _ _ _ _ _ _ _ _ _ _
  | openai_translate_async _ _ _ _ _ _ _ _ _ _ _ _ _ _ _
  | anthropic_translate_async _ _ _ _ _ _ _ _ _ _ _ _ _ _ _
  | azure_translate_async _ _ _ _ _ _ _ _ _ _ _ _ => true
  | _ => false
  end.

Definition text_of (o : operation) : text_arg :=
  match o with
  | googletl_translate t _ _ _ _ _ _ _ _
  | googletl_translate_async t _ _ _ _ _ _ _ _ _
  | deepl_translate t _ _ _ _ _ _ _ _ _ _ _ _ _ _ _ _ _
  | deepl_translate_async t _ _ _ _ _ _ _ _ _ _ _ _ _ _ _ _ _ _
  | gemini_translate t _ _ _ _ _ _ _ _ _ _ _ _ _
  | gemini_translate_async t _ _ _ _ _ _ _ _ _ _ _ _ _ _
  | openai_translate t _ _ _ _ _ _ _ _ _ _ _ _ _
  | openai_translate_async t _ _ _ _ _ _ _ _ _ _ _ _ _ _
  | anthropic_translate t _ _ _ _ _ _ _ _ _ _ _ _ _
  | anthropic_translate_async t _ _ _ _ _ _ _ _ _ _ _ _ _ _
  | azure_translate t _ _ _ _ _ _ _ _ _ _
  | azure_translate_async t _ _ _ _ _ _ _ _ _ _ _ => t
  end.

Definition override_of (o : operation) : bool :=
  match o with
  | googletl_translate _ _ b _ _ _ _ _ _
  | googletl_translate_async _ _ b _ _ _ _ _ _ _
  | deepl_translate _ _ b _ _ _ _ _ _ _ _ _ _ _ _ _ _ _
  | deepl_translate_async _ _ b _ _ _ _ _ _ _ _ _ _ _ _ _ _ _ _
  | azure_translate _ _ b _ _ _ _ _ _ _ _
  | azure_translate_async _ _ b _ _ _ _ _ _ _ _ _
  | gemini_translate _ b _ _ _ _ _ _ _ _ _ _ _ _
  | gemini_translate_async _ b _ _ _ _ _ _ _ _ _ _ _ _ _
  | openai_translate _ b _ _ _ _ _ _ _ _ _ _ _ _
  | openai_translate_async _ b _ _ _ _ _ _ _ _ _ _ _ _ _
  | anthropic_translate _ b _ _ _ _ _ _ _ _ _ _ _ _
  | anthropic_translate_async _ b _ _ _ _ _ _ _ _ _ _ _ _ _ => b
  end.

Definition decorator_of (o : operation) : option decorator :=
  match o with
  | googletl_translate _ _ _ d _ _ _ _ _
  | googletl_translate_async _ _ _ d _ _ _ _ _ _
  | deepl_translate _ _ _ d _ _ _ _ _ _ _ _ _ _ _ _ _ _
  | deepl_translate_async _ _ _ d _ _ _ _ _ _ _ _ _ _ _ _ _ _ _
  | azure_translate _ _ _ d _ _ _ _ _ _ _
  | azure_translate_async _ _ _ d _ _ _ _ _ _ _ _
  | gemini_translate _ _ d _ _ _ _ _ _ _ _ _ _ _
  | gemini_translate_async _ _ d _ _ _ _ _ _ _ _ _ _ _ _
  | openai_translate _ _ d _ _ _ _ _ _ _ _ _ _ _
  | openai_translate_async _ _ d _ _ _ _ _ _ _ _ _ _ _ _
  | anthropic_translate _ _ d _ _ _ _ _ _ _ _ _ _ _
  | anthropic_translate_async _ _ d _ _ _ _ _ _ _ _ _ _ _ _ => d
  end.

Definition response_type_of (o : operation) : option string :=
  match o with
  | googletl_translate _ _ _ _ _ r _ _ _
  | googletl_translate_async _ _ _ _ _ r _ _ _ _
  | deepl_translate _ _ _ _ _ r _ _ _ _ _ _ _ _ _ _ _ _
  | deepl_translate_async _ _ _ _ _ r _ _ _ _ _ _ _ _ _ _ _ _ _
  | azure_translate _ _ _ _ _ r _ _ _ _ _
  | azure_translate_async _ _ _ _ _ r _ _ _ _ _ _
  | gemini_translate _ _ _ _ r _ _ _ _ _ _ _ _ _
  | gemini_translate_async _ _ _ _ r _ _ _ _ _ _ _ _ _ _
  | openai_translate _ _ _ _ r _ _ _ _ _ _ _ _ _
  | openai_translate_async _ _ _ _ r _ _ _ _ _ _ _ _ _ _
  | anthropic_translate _ _ _ _ r _ _ _ _ _ _ _ _ _
  | anthropic_translate_async _ _ _ _ r _ _ _ _ _ _ _ _ _ _ => r
  end.

(** The response types each backend recognizes (the lists of its first
    assertion). *)
Definition recognized (a : api) : list string :=
  match a with
  | google_translate | deepl => ["text"; "raw"]
  | azure => ["text"; "json"]
  | gemini | openai | anthropic => ["text"; "raw"; "json"; "raw_json"]
  end.

(** ** Bounded concurrency: the semaphore of the asynchronous unit tasks *)

Module BoundedConcurrency.

(** The stretches of one task of [GeminiService.__translate_text_async]
    (lines 294-305): before [async with] holds the semaphore; inside the
    block, its request issued and not yet answered; after the block. *)
Inductive phase : Type := Waiting | InFlight | Finished.

Definition phase_eqb (p q : phase) : bool :=
  match p, q with
  | Waiting, Waiting | InFlight, InFlight | Finished, Finished => true
  | _, _ => false
  end.

(** The counter of the semaphore and the phases of the tasks of a batch. *)
Record state : Type := {
  value : Z;
  tasks : list phase
}.

Fixpoint set_phase (i : nat) (p : phase) (l : list phase) : list phase :=
  match l, i with
  | [], _ => []
  | _ :: l', O => p :: l'
  | q :: l', S j => q :: set_phase j p l'
  end.

(** Entering [async with]: [Semaphore.acquire] goes through when the counter
    is positive and takes one from it; otherwise the task keeps waiting. *)
Definition acquire (i : nat) (st : state) : option state :=
  match nth_error (tasks st) i with
  | Some Waiting =>
      if (0 <? value st)%Z
      then Some {| value := value st - 1; tasks := set_phase i InFlight (tasks st) |}
      else None
  | _ => None
  end.

(** Leaving [async with], with the response or with an exception:
    [Semaphore.release] gives one back. *)
Definition release (i : nat) (st : state) : option state :=
  match nth_error (tasks st) i with
  | Some InFlight =>
      Some {| value := value st + 1; tasks := set_phase i Finished (tasks st) |}
  | _ => None
  end.

(** One move of the event loop. *)
Inductive step : state -> state -> Prop :=
| step_acquire : forall i st st', acquire i st = Some st' -> step st st'
| step_release : forall i st st', release i st = Some st' -> step st st'.

Inductive reachable (st0 : state) : state -> Prop :=
| reachable_start : reachable st0 st0
| reachable_step : forall st st', reachable st0 st -> step st st' -> reachable st0 st'.

(** A batch of [n] tasks on a semaphore, none of them started. *)
Definition start (sem : Semaphore) (n : nat) : state :=
  {| value := capacity sem; tasks := repeat Waiting n |}.

Definition in_flight (st : state) : nat :=
  List.length (filter (phase_eqb InFlight) (tasks st)).

Definition all_finished (st : state) : bool :=
  forallb (phase_eqb Finished) (tasks st).

End BoundedConcurrency.

(** ** Worlds and backends for the examples *)

Module Mock.

Definition no_checks : llm_util := {|
  validate_settings := fun _ _ => None;
  validate_stop_sequences := fun _ => None;
  validate_text_length := fun _ _ _ => None;
  validate_response_schema := fun schema => Ok schema
|}.

Definition fresh_service : ServiceAttrs := {|
  settings_record := [];
  decorator_to_use := None;
  system_message := None;
  default_translation_instructions := "Please translate the following text into English."
|}.

(** A process that has just started, on a given backend and event loop. *)
Definition world_on (b : list request -> request -> res pyval)
    (sched : nat -> list nat) : world := {|
  Gemini := GeminiService.class_attributes;
  Services := fun _ => fresh_service;
  sent := [];
  backend := b;
  scheduler := sched;
  estimate_cost := fun text model => (Z.of_nat (String.length text), 0%Q, model);
  util := no_checks
|}.

Definition in_input_order (n : nat) : list nat := seq 0 n.

Definition translated (s : string) : string := "<TRANSLATED:" ++ s ++ ">".

Definition chat_completion (content : pyval) : pyval :=
  PyObj "ChatCompletion"
    [("choices",
      PyList [PyObj "Choice"
                [("message", PyObj "ChatCompletionMessage" [("content", content)])]])].

(** The response each SDK gives for a translated text. *)
Definition response (a : api) (t : string) : pyval :=
  match a with
  | google_translate => PyDict [("translatedText", PyStr t)]
  | deepl => PyObj "TextResult" [("text", PyStr t)]
  | gemini => PyObj "GenerateContentResponse" [("text", PyStr t)]
  | openai => chat_completion (PyStr t)
  | anthropic =>
      PyObj "AnthropicMessage"
        [("content", PyList [PyObj "AnthropicTextBlock" [("text", PyStr t)]])]
  | azure => PyList [PyDict [("translations", PyList [PyDict [("text", PyStr t)]])]]
  end.

(** A backend that accepts the credentials and echoes every unit. *)
Definition echo (history : list request) (r : request) : res pyval :=
  match r with
  | CredentialProbe _ => Ok PyNone
  | UnitRequest a _ _ contents => Ok (response a (translated contents))
  end.

(** As [echo], but the completion for the unit ["a"] has no content. *)
Definition silent_on_a (history : list request) (r : request) : res pyval :=
  match r with
  | UnitRequest openai _ _ "a" => Ok (chat_completion PyNone)
  | _ => echo history r
  end.

(** As [echo], but the credential probe is refused by the provider. *)
Definition rejecting (history : list request) (r : request) : res pyval :=
  match r with
  | CredentialProbe _ => Raise (SdkError "GoogleAPIError" "API key not valid.")
  | _ => echo history r
  end.

Definition is_unit_request (r : request) : bool :=
  match r with UnitRequest _ _ _ _ => true | CredentialProbe _ => false end.

(** As [echo], but the first [failures] unit requests are refused. *)
Definition flaky (failures : nat) (history : list request) (r : request) : res pyval :=
  match r with
  | UnitRequest _ _ _ _ =>
      if Nat.ltb (List.length (filter is_unit_request history)) failures
      then Raise (SdkError "GoogleAPIError" "503 The service is unavailable.")
      else echo history r
  | _ => echo history r
  end.

(** A backend that answers every unit with the same value. *)
Definition answering (v : pyval) (history : list request) (r : request) : res pyval :=
  match r with
  | CredentialProbe _ => Ok PyNone
  | UnitRequest _ _ _ _ => Ok v
  end.

End Mock.

(** The checks of the two Gemini entry points before their settings write
    (lines 606-619 and 729-742). *)
Definition gemini_checks_of (o : operation) : M pyarg :=
  match o with
  | gemini_translate text override_previous_settings decorator logging_directory
      response_type response_schema translation_delay translation_instructions
      model temperature top_p top_k stop_sequences max_output_tokens =>
      EasyTL.gemini_checks text
        (EasyTL.gemini_locals override_previous_settings decorator logging_directory
           response_type response_schema None translation_delay
           translation_instructions model temperature top_p top_k stop_sequences
           max_output_tokens)
        response_type response_schema model stop_sequences
  | gemini_translate_async text override_previous_settings decorator
      logging_directory response_type response_schema semaphore translation_delay
      translation_instructions model temperature top_p top_k stop_sequences
      max_output_tokens =>
      EasyTL.gemini_checks text
        (EasyTL.gemini_locals override_previous_settings decorator logging_directory
           response_type response_schema semaphore translation_delay
           translation_instructions model temperature top_p top_k stop_sequences
           max_output_tokens)
        response_type response_schema model stop_sequences
  | _ => ret ArgNone
  end.

(** ** Vocabulary of the statements *)

(** The request that [GeminiService] sends for the unit [u] under the
    attributes [g]. *)
Definition gemini_request (g : GeminiAttrs) (asynchronous : bool) (u : string)
  : request :=
  UnitRequest gemini asynchronous
    (if String.eqb (_model g) "gemini--1.5-pro-latest" then _system_message g else None)
    (GeminiService.text_request g u).

(** The fields of the Settings Record of Gemini: every class attribute but
    the client, the generation configuration and the semaphore, which
    [_redefine_client] derives from them. *)
Record GeminiSettings : Type := {
  s_system_message : option string;
  s_model : string;
  s_temperature : Q;
  s_top_p : Q;
  s_top_k : Z;
  s_candidate_count : Z;
  s_stream : bool;
  s_stop_sequences : option (list string);
  s_max_output_tokens : option Z;
  s_semaphore_value : Z;
  s_decorator_to_use : option decorator;
  s_log_directory : option string
}.

Definition settings_of (g : GeminiAttrs) : GeminiSettings := {|
  s_system_message := _system_message g;
  s_model := _model g;
  s_temperature := _temperature g;
  s_top_p := _top_p g;
  s_top_k := _top_k g;
  s_candidate_count := _candidate_count g;
  s_stream := _stream g;
  s_stop_sequences := _stop_sequences g;
  s_max_output_tokens := _max_output_tokens g;
  s_semaphore_value := _semaphore_value g;
  s_decorator_to_use := _decorator_to_use g;
  s_log_directory := _log_directory g
|}.

(** The results of the tasks of the units, each with the index of its
    task, in a given completion order. *)
Definition finished_in {U A : Type} (g : U -> A) (units : list U) (order : list nat)
  : list (nat * A) :=
  flat_map (fun i => match nth_error units i with
                     | Some u => [(i, g u)]
                     | None => []
                     end) order.

(** The [format] argument, for the two operations that have one. *)
Definition format_of (o : operation) : option string :=
  match o with
  | googletl_translate _ _ _ _ _ _ _ f _
  | googletl_translate_async _ _ _ _ _ _ _ _ f _ => Some f
  | _ => None
  end.

(** The operations that choose [translate] themselves, from the decorator
    stored for the backend. *)
Definition selects_translate (o : operation) : bool :=
  match backend_of o with
  | google_translate | deepl | azure => true
  | _ => false
  end.

(** The validation helpers accept what they are given. *)
Definition validators_accept (u : llm_util) : Prop :=
  (forall a l, validate_settings u a l = None)
  /\ (forall x, validate_stop_sequences u x = None)
  /\ (forall t m a, validate_text_length u t m a = None)
  /\ (forall x, exists y, validate_response_schema u x = Ok y).

(** The credential probe of a backend goes through, or is refused with an
    error of the family of the backend: [test_credentials] returns. *)
Definition probe_returns (w : world) (a : api) : Prop :=
  forall h,
    match backend w h (CredentialProbe a) with
    | Ok _ => True
    | Raise e => EasyTL.isinstance_exn (Some e) (EasyTL.expected_exception a) = true
    end.

(** The backend answers every unit with [v]. *)
Definition answers_units_with (w : world) (v : pyval) : Prop :=
  forall h a b i c, backend w h (UnitRequest a b i c) = Ok v.

(** The call gets as far as the dispatch of its units: the response type
    (and format) is recognized, the validation helpers and the credential
    test let it through, a Gemini call does not override the settings (the
    settings write of Gemini raises), and where the entry point calls the
    stored decorator there is one. *)
Definition dispatches (o : operation) (w : world) : Prop :=
  in_strings (response_type_of o) (recognized (backend_of o)) = true
  /\ (forall f, format_of o = Some f -> in_strings (Some f) ["text"; "html"] = true)
  /\ validators_accept (util w)
  /\ probe_returns w (backend_of o)
  /\ (backend_of o = gemini ->
      override_of o = false /\ (0 <= _semaphore_value (Gemini w))%Z)
  /\ (selects_translate o = true -> decorator_of o <> None ->
      override_of o = false ->
      decorator_to_use (Services w (backend_of o)) <> None).

(** The operations whose scalar path asserts on the shape of the response:
    all but [gemini_translate_async]. *)
Definition asserts_on_response (o : operation) : bool :=
  match o with
  | gemini_translate_async _ _ _ _ _ _ _ _ _ _ _ _ _ _ _ => false
  | _ => true
  end.

(** The content-bearing field that the assertion of an operation asks for,
    if it asks for one. *)
Definition asserted_field (o : operation) : option string :=
  match o with
  | gemini_translate _ _ _ _ _ _ _ _ _ _ _ _ _ _ => Some "text"
  | openai_translate _ _ _ _ _ _ _ _ _ _ _ _ _ _
  | openai_translate_async _ _ _ _ _ _ _ _ _ _ _ _ _ _ _ => Some "choices"
  | anthropic_translate _ _ _ _ _ _ _ _ _ _ _ _ _ _
  | anthropic_translate_async _ _ _ _ _ _ _ _ _ _ _ _ _ _ _ => Some "content"
  | _ => None
  end.

(** A collection where the response of one unit is expected; the responses
    of Azure are lists, and the response of the unit is their first item. *)
Definition collection_for (o : operation) (v : pyval) : bool :=
  match backend_of o with
  | azure => match v with PyList (x :: _) => isinstance_list x | _ => false end
  | _ => isinstance_list v
  end.

Definition lacks_asserted_field (o : operation) (v : pyval) : bool :=
  match asserted_field o with
  | Some f => negb (hasattr v f)
  | None => false
  end.

(** A computation that leaves an observation of the world as it was,
    whatever its outcome. *)
Definition preserves {A X : Type} (obs : world -> X) (m : M A) : Prop :=
  forall w, obs (snd (m w)) = obs w.

(** The world with a decorator stored for Gemini, as [_set_decorator] does. *)
Definition with_gemini_decorator (d : option decorator) (w : world) : world :=
  snd (GeminiService._set_decorator d w).

(** ** The requests of one call *)

(** What a call may send to the backend [a], as an automaton with two
    states: before the credential probe ([false]) and after it ([true]).
    The probe is accepted once, in the first state; the unit requests of the
    kind of the call, synchronous or asynchronous, in the second. *)
Definition request_step (a : api) (asynchronous : bool) (probed : bool) (r : request)
  : option bool :=
  match r with
  | CredentialProbe b =>
      if negb probed && api_eqb a b then Some true else None
  | UnitRequest b s _ _ =>
      if probed && api_eqb a b && Bool.eqb s asynchronous then Some true else None
  end.

Fixpoint accepts (a : api) (asynchronous : bool) (probed : bool) (l : list request)
  : option bool :=
  match l with
  | [] => Some probed
  | r :: l' =>
      match request_step a asynchronous probed r with
      | Some p => accepts a asynchronous p l'
      | None => None
      end
  end.

(** The computation [m] extends the log of requests by a word that takes the
    automaton from [s] to [s'] when it returns, with a result in [Q]; when it
    raises, by a word the automaton has not rejected. *)
Definition tracks {A : Type} (a : api) (asynchronous : bool) (s s' : bool)
    (Q : A -> Prop) (m : M A) : Prop :=
  forall w,
    exists l,
      sent (snd (m w)) = sent w ++ l
      /\ match fst (m w) with
         | Ok x => accepts a asynchronous s l = Some s' /\ Q x
         | Raise _ => accepts a asynchronous s l <> None
         end.

(** A unit request to the backend [a], of the given kind. *)
Definition unit_of (a : api) (asynchronous : bool) (r : request) : Prop :=
  exists instructions contents, r = UnitRequest a asynchronous instructions contents.

(** The operations that filter the list of results after the wait: the
    asynchronous entry points of the chat backends, for the response types
    that are not raw (lines 1016 and 1280-1288). *)
Definition filters_results (o : operation) : bool :=
  match o with
  | openai_translate_async _ _ _ _ r _ _ _ _ _ _ _ _ _ _
  | anthropic_translate_async _ _ _ _ r _ _ _ _ _ _ _ _ _ _ =>
      negb (in_strings r ["raw"; "raw_json"])
  | _ => false
  end.

(** The entry points whose [text] may be a [ModelTranslationMessage]: those
    of the chat backends (line 882 and its siblings). *)
Definition takes_messages (a : api) : bool :=
  match a with
  | openai | anthropic => true
  | _ => false
  end.

(** The [text] arguments an entry point of the backend [a] goes on with. *)
Definition text_accepted (a : api) (text : text_arg) : bool :=
  is_str text || _is_iterable_of_strings text || (takes_messages a && is_message text).

(** The operation that looks at the first result of the wait before it
    looks at the input: [anthropic_translate_async], for the response types
    that are not raw (lines 1280-1286). *)
Definition indexes_first_result (o : operation) : bool :=
  match o with
  | anthropic_translate_async _ _ _ _ r _ _ _ _ _ _ _ _ _ _ =>
      negb (in_strings r ["raw"; "raw_json"])
  | _ => false
  end.


(** The moves the tasks of a batch still have to make: a waiting task has
    to enter the block and to leave it, a task in flight to leave it. *)
Fixpoint remaining_moves (l : list BoundedConcurrency.phase) : nat :=
  match l with
  | [] => 0
  | BoundedConcurrency.Waiting :: l' => 2 + remaining_moves l'
  | BoundedConcurrency.InFlight :: l' => 1 + remaining_moves l'
  | BoundedConcurrency.Finished :: l' => remaining_moves l'
  end.

(** The coroutine that a call of [GeminiService._translate_text_async]
    hands back: the body of the wrapped function (lines 217-221). *)
Definition translate_text_coroutine (text_to_translate : string) : M pyval :=
  GeminiService._logging_decorator (
    g <- GeminiService.attrs ;;
    match _decorator_to_use g with
    | None => GeminiService.__translate_text_async text_to_translate
    | Some d =>
        let _decorated_function :=
          apply_decorator d GeminiService.__translate_text_async in
        _decorated_function text_to_translate
    end).

(** The client is the one [_redefine_client] builds from the settings. *)
Definition client_rebuilt (g : GeminiAttrs) : Prop :=
  _client g
  = Some (if String.eqb (_model g) "gemini--1.5-pro-latest"
          then {| model_name := _model g; system_instruction := _system_message g |}
          else {| model_name := _model g; system_instruction := None |}).

(** The world after a series of calls, one after the other, whatever the
    outcome of each. *)
Fixpoint run_all (calls : list operation) (w : world) : world :=
  match calls with
  | [] => w
  | o :: rest => run_all rest (snd (run o w))
  end.

(** ** The dispatchers by service name *)

Module ByName.

(** The keys of [service_map] (lines 60-67), with the service each names. *)
Definition service_map : list (string * api) :=
  [("deepl", deepl); ("gemini", gemini); ("openai", openai);
   ("google translate", google_translate); ("anthropic", anthropic);
   ("azure", azure)].

(** [service_map[api_type]] *)
Definition lookup (api_type : option string) : option api :=
  match api_type with
  | Some s => assoc s service_map
  | None => None
  end.

Definition invalid_api_type : exn :=
  InvalidAPITypeException "Invalid API type specified. Supported types are 'deepl', 'gemini', 'openai', 'google translate', 'anthropic' and 'azure'.".

Definition invalid_service : exn :=
  InvalidAPITypeException "Invalid service specified. Must be 'deepl', 'openai', 'gemini', 'google translate', 'anthropic' or 'azure'.".

(** [set_credentials] (lines 46-71).  The setters of the services
    ([_set_api_key], and [_set_credentials] for Google Translate) configure
    the SDKs: [setter a] stands for the one of the service [a]. *)
Definition set_credentials (setter : api -> string -> M unit)
    (api_type : option string) (credentials : string) : M unit :=
  assert_ (match lookup api_type with Some _ => true | None => false end)
    invalid_api_type ;;
  match lookup api_type with
  | Some a => setter a credentials
  | None => raise (KeyError (fmt api_type))
  end.

(** [translate] (lines 1491-1550).  [entry a] stands for the call
    [EasyTL.<a>_translate(text, **kwargs)] of the entry point of the backend
    [a]; a call that falls off the chain returns [None]. *)
Definition translate (entry : api -> M pyval) (service : option string) : M pyval :=
  assert_ (in_strings service
             ["deepl"; "openai"; "gemini"; "google translate"; "anthropic"; "azure"])
    invalid_service ;;
  if is_ service "deepl" then entry deepl
  else if is_ service "openai" then entry openai
  else if is_ service "gemini" then entry gemini
  else if is_ service "google translate" then entry google_translate
  else if is_ service "anthropic" then entry anthropic
  else if is_ service "azure" then entry azure
  else ret PyNone.

(** [translate_async] (lines 1554-1617); [entry a] stands for the awaited
    call [EasyTL.<a>_translate_async(text, **kwargs)]. *)
Definition translate_async (entry : api -> M pyval) (service : option string)
  : M pyval :=
  assert_ (in_strings service
             ["deepl"; "openai"; "gemini"; "google translate"; "anthropic"; "azure"])
    invalid_service ;;
  if is_ service "deepl" then entry deepl
  else if is_ service "openai" then entry openai
  else if is_ service "gemini" then entry gemini
  else if is_ service "google translate" then entry google_translate
  else if is_ service "anthropic" then entry anthropic
  else if is_ service "azure" then entry azure
  else ret PyNone.

(** [calculate_cost] (lines 1621-1669).  Of the six [_calculate_cost] only
    the one of Gemini is among the sources: [by_text a] stands for the one
    of DeepL, Google Translate or Azure, which is given the text alone, and
    [by_model a] for the one of OpenAI or Anthropic.  The result is [None]
    for a call that falls off the chain. *)
Definition calculate_cost
    (by_text : api -> text_arg -> M (Z * Q * string))
    (by_model : api -> text_arg -> option string -> option string -> M (Z * Q * string))
    (text : text_arg) (service : option string) (model : option string)
    (translation_instructions : option string) : M (option (Z * Q * string)) :=
  assert_ (in_strings service
             ["deepl"; "openai"; "gemini"; "google translate"; "anthropic"; "azure"])
    invalid_service ;;
  if is_ service "deepl" then c <- by_text deepl text ;; ret (Some c)
  else if is_ service "openai"
  then c <- by_model openai text translation_instructions model ;; ret (Some c)
  else if is_ service "gemini"
  then c <- GeminiService._calculate_cost text translation_instructions model ;;
       ret (Some c)
  else if is_ service "google translate"
  then c <- by_text google_translate text ;; ret (Some c)
  else if is_ service "anthropic"
  then c <- by_model anthropic text translation_instructions model ;; ret (Some c)
  else if is_ service "azure" then c <- by_text azure text ;; ret (Some c)
  else ret None.

(** The [_calculate_cost] that [calculate_cost] calls for a service. *)
Definition cost_of
    (by_text : api -> text_arg -> M (Z * Q * string))
    (by_model : api -> text_arg -> option string -> option string -> M (Z * Q * string))
    (a : api) (text : text_arg) (model translation_instructions : option string)
  : M (Z * Q * string) :=
  match a with
  | deepl | google_translate | azure => by_text a text
  | openai | anthropic => by_model a text translation_instructions model
  | gemini => GeminiService._calculate_cost text translation_instructions model
  end.

End ByName.

(** The response types for which an entry point hands back the response of
    the backend as it is. *)
Definition raw_types (a : api) : list string :=
  match a with
  | google_translate | deepl => ["raw"]
  | azure => ["json"]
  | gemini | openai | anthropic => ["raw"; "raw_json"]
  end.

(** The response of one unit: for Azure, whose responses are lists, their
    first item (lines 1368 and 1466). *)
Definition unit_response (a : api) (v : pyval) : res pyval :=
  match a with
  | azure => getitem0 v
  | _ => Ok v
  end.

(** ** googletl_service.py *)

Module GoogleTLService.

(** [service_account.Credentials], by the key file they were read from, and
    [translate.Client(credentials=...)], by its credentials. *)
Record Credentials : Type := { key_file : string }.

Record Client : Type := { credentials : Credentials }.

(** The class attributes (lines 20-36).  [_translator] and [_credentials]
    are only annotated in the class body: they hold nothing until they are
    assigned. *)
Record attrs : Type := {
  _translator : option Client;
  _credentials : option Credentials;
  _target_lang : string;
  _source_lang : option string;
  _format : string;
  _semaphore_value : Z;
  _semaphore : Semaphore;
  _rate_limit_delay : option Q;
  _decorator_to_use : option decorator;
  _log_directory : option string
}.

(** The class body. *)
Definition class_attributes : attrs := {|
  _translator := None;
  _credentials := None;
  _target_lang := "en";
  _source_lang := None;
  _format := "text";
  _semaphore_value := 15;
  _semaphore := {| capacity := 15 |};
  _rate_limit_delay := None;
  _decorator_to_use := None;
  _log_directory := None
|}.

(** The functions of the class: state passing over its attributes. *)
Definition G (A : Type) : Type := attrs -> res A * attrs.

(** [_set_credentials] (lines 42-53).  Reading the key file is the work of
    the SDK: [from_service_account_file] is the answer of the file system,
    the credentials or the exception. *)
Definition _set_credentials (from_service_account_file : string -> res Credentials)
    (key_path : string) : G unit :=
  fun a =>
    match from_service_account_file key_path with
    | Ok c =>
        (Ok tt, {|
          _credentials := Some c;
          _translator := _translator a; _target_lang := _target_lang a;
          _source_lang := _source_lang a; _format := _format a;
          _semaphore_value := _semaphore_value a; _semaphore := _semaphore a;
          _rate_limit_delay := _rate_limit_delay a;
          _decorator_to_use := _decorator_to_use a;
          _log_directory := _log_directory a |})
    | Raise e => (Raise e, a)
    end.

(** [_redefine_client] (lines 59-67) *)
Definition _redefine_client : G unit :=
  fun a =>
    match _credentials a with
    | Some c =>
        (Ok tt, {|
          _translator := Some {| credentials := c |};
          _credentials := _credentials a; _target_lang := _target_lang a;
          _source_lang := _source_lang a; _format := _format a;
          _semaphore_value := _semaphore_value a; _semaphore := _semaphore a;
          _rate_limit_delay := _rate_limit_delay a;
          _decorator_to_use := _decorator_to_use a;
          _log_directory := _log_directory a |})
    | None => (Raise (AttributeError "_credentials"), a)
    end.

(** [wrapper] of [_redefine_client_decorator(func)] (lines 72-90) *)
Definition _redefine_client_decorator {A : Type} (func : G A) : G A :=
  fun a =>
    match _redefine_client a with
    | (Ok _, a') => func a'
    | (Raise e, a') => (Raise e, a')
    end.

(** The attributes but the credentials and the client. *)
Definition settings (a : attrs)
  : string * option string * string * Z * Semaphore * option Q * option decorator
    * option string :=
  (_target_lang a, _source_lang a, _format a, _semaphore_value a, _semaphore a,
   _rate_limit_delay a, _decorator_to_use a, _log_directory a).

End GoogleTLService.

(** * Properties *)

(** ** Reasoning in the monad *)

Unset Implicit Arguments.

Lemma bind_Ok :
  forall (A B : Type) (m : M A) (k : A -> M B) w b w2,
    bind m k w = (Ok b, w2) ->
    exists a w1, m w = (Ok a, w1) /\ k a w1 = (Ok b, w2).
Proof.
  intros A B m k w b w2 H. unfold bind in H.
  destruct (m w) as [[a | e] w1].
  - exists a, w1. split; [reflexivity | exact H].
  - discriminate H.
Qed.

Lemma bind_eq :
  forall (A B : Type) (m : M A) (k : A -> M B) w a w1,
    m w = (Ok a, w1) -> bind m k w = k a w1.
Proof. intros A B m k w a w1 H. unfold bind. rewrite H. reflexivity. Qed.

Lemma bind_Raise :
  forall (A B : Type) (m : M A) (k : A -> M B) w e w1,
    m w = (Raise e, w1) -> bind m k w = (Raise e, w1).
Proof. intros A B m k w e w1 H. unfold bind. rewrite H. reflexivity. Qed.

Lemma assert_Ok :
  forall c p w u w1, assert_ c p w = (Ok u, w1) -> c = true /\ w1 = w.
Proof.
  intros c p w u w1 H. unfold assert_ in H.
  destruct c; [ | discriminate H].
  inversion H. auto.
Qed.

Lemma check_Ok :
  forall o w u w1, check o w = (Ok u, w1) -> o = None /\ w1 = w.
Proof.
  intros o w u w1 H. unfold check in H.
  destruct o; [discriminate H | ].
  inversion H. auto.
Qed.

Lemma lift_Ok :
  forall (A : Type) (r : res A) w a w1, lift r w = (Ok a, w1) -> r = Ok a /\ w1 = w.
Proof. intros A r w a w1 H. unfold lift in H. inversion H. auto. Qed.

Ltac bind_inv H :=
  let a := fresh "a" in
  let w := fresh "w" in
  let H1 := fresh H in
  apply bind_Ok in H; destruct H as (a & w & H1 & H).


(** ** Response types (C4) *)

(** C4, as the code has it: for each of the twelve translate operations and
    every [response_type] outside the list its backend recognizes, the call
    fails at its first assertion, with an [AssertionError] whose argument is
    an [InvalidResponseFormatException]; the world is left as it was, so
    nothing was sent to any backend. *)
Theorem unrecognized_response_type_fails_first :
  forall (o : operation) (w : world),
    in_strings (response_type_of o) (recognized (backend_of o)) = false ->
    exists msg,
      run o w = (Raise (AssertionError (Some (InvalidResponseFormatException msg))), w).
Proof.
  intros o w H.
  destruct o; simpl in H; simpl run;
    unfold EasyTL.googletl_translate, EasyTL.googletl_translate_async,
           EasyTL.deepl_translate, EasyTL.deepl_translate_async,
           EasyTL.gemini_translate, EasyTL.gemini_translate_async,
           EasyTL.openai_translate, EasyTL.openai_translate_async,
           EasyTL.anthropic_translate, EasyTL.anthropic_translate_async,
           EasyTL.azure_translate, EasyTL.azure_translate_async,
           EasyTL.gemini_checks, EasyTL.openai_checks, EasyTL.anthropic_checks;
    unfold bind at 1; try unfold bind at 1;
    unfold assert_; rewrite H; simpl; eexists; reflexivity.
Qed.

Lemma unrecognized_response_type_fails_first_witness :
  in_strings (Some "json") (recognized google_translate) = false /\
  exists msg,
    run (googletl_translate (TStr "hello") "en" true None None (Some "json") None
           "text" None)
        (Mock.world_on Mock.echo Mock.in_input_order)
    = (Raise (AssertionError (Some (InvalidResponseFormatException msg))),
       Mock.world_on Mock.echo Mock.in_input_order).
Proof.
  split.
  - reflexivity.
  - apply (unrecognized_response_type_fails_first
             (googletl_translate (TStr "hello") "en" true None None (Some "json") None
                "text" None)).
    reflexivity.
Defined.

(** C4, as stated, fails: the exception that leaves [googletl_translate] for
    the response type ["json"] is not an [InvalidResponseFormatException]. *)
Lemma invalid_response_type_is_not_raised_typed :
  ~ exists msg,
      fst (run (googletl_translate (TStr "hello") "en" true None None (Some "json")
                  None "text" None)
               (Mock.world_on Mock.echo Mock.in_input_order))
      = Raise (InvalidResponseFormatException msg).
Proof.
  intros [msg H]. vm_compute in H. discriminate H.
Qed.

(** ** The settings write of Gemini (C3) *)

(** [_redefine_client] touches neither the log nor the environment. *)
Lemma redefine_client_sent :
  forall w r w1, GeminiService._redefine_client w = (r, w1) -> sent w1 = sent w.
Proof.
  intros w r w1 H. unfold GeminiService._redefine_client in H.
  destruct (_semaphore_value (Gemini w) <? 0)%Z; inversion H; reflexivity.
Qed.

Lemma redefine_client_Ok :
  forall w u w1,
    GeminiService._redefine_client w = (Ok u, w1) ->
    _client (Gemini w1) <> None
    /\ capacity (_semaphore (Gemini w1)) = _semaphore_value (Gemini w)
    /\ _semaphore_value (Gemini w1) = _semaphore_value (Gemini w)
    /\ (0 <= _semaphore_value (Gemini w))%Z.
Proof.
  intros w u w1 H. unfold GeminiService._redefine_client in H.
  destruct (_semaphore_value (Gemini w) <? 0)%Z eqn:E; [discriminate H | ].
  inversion H; subst; simpl. repeat split; try discriminate.
  apply Z.ltb_ge. exact E.
Qed.

(** A credential test of Gemini that returns has sent the probe and nothing
    else. *)
Lemma test_credentials_gemini_sent :
  forall w p w1,
    EasyTL.test_credentials gemini w = (Ok p, w1) ->
    sent w1 = sent w ++ [CredentialProbe gemini].
Proof.
  intros w p w1 H.
  unfold EasyTL.test_credentials, EasyTL.test_func,
    GeminiService._test_api_key_validity, GeminiService._redefine_client_decorator in H.
  bind_inv H. bind_inv H0.
  pose proof (redefine_client_sent _ _ _ H1) as Hs.
  pose proof (redefine_client_Ok _ _ _ H1) as (Hc & _).
  bind_inv H0. unfold try_ in H2.
  unfold GeminiService.client, GeminiService.attrs, send, bind, ret, raise in H2.
  destruct (_client (Gemini w2)) as [c | ]; [ | contradiction Hc; reflexivity].
  simpl in H2. inversion H2; subst; clear H2.
  assert (Hw : sent w0 = sent w ++ [CredentialProbe gemini]).
  { destruct (backend w2 (sent w2) (CredentialProbe gemini));
      unfold ret in H0; inversion H0; subst; simpl; rewrite Hs; reflexivity. }
  destruct a as [valid e].
  destruct valid; simpl in H.
  - unfold ret in H. inversion H; subst. exact Hw.
  - destruct (EasyTL.isinstance_exn e _);
      unfold ret, raise in H; inversion H; subst. exact Hw.
Qed.

Lemma gemini_checks_sent :
  forall text locals response_type response_schema model stop_sequences w schema w1,
    EasyTL.gemini_checks text locals response_type response_schema model
      stop_sequences w = (Ok schema, w1) ->
    sent w1 = sent w ++ [CredentialProbe gemini].
Proof.
  intros until w1. intros H. unfold EasyTL.gemini_checks in H.
  bind_inv H. apply assert_Ok in H0 as [_ ->].
  bind_inv H. inversion H0; subst; clear H0.
  bind_inv H. apply check_Ok in H0 as [_ ->].
  bind_inv H. apply check_Ok in H0 as [_ ->].
  bind_inv H. apply check_Ok in H0 as [_ ->].
  bind_inv H. apply lift_Ok in H0 as [_ ->].
  bind_inv H. apply test_credentials_gemini_sent in H0.
  unfold ret in H. inversion H; subst. exact H0.
Qed.




(** ** The credential gate (C6) *)

(** C6 at a failing input: the provider refuses the credentials, and
    [test_credentials] reports them invalid; [googletl_translate] drops that
    report, sends the unit and returns its translation. *)
Theorem rejected_credentials_do_not_stop_dispatch :
  let w := Mock.world_on Mock.rejecting Mock.in_input_order in
  let call := googletl_translate (TStr "hello") "en" true None None (Some "text")
                None "text" None in
  fst (EasyTL.test_credentials google_translate w)
    = Ok (false, Some (SdkError "GoogleAPIError" "API key not valid."))
  /\ fst (run call w) = Ok (PyStr "<TRANSLATED:hello>")
  /\ sent (snd (run call w))
     = [CredentialProbe google_translate;
        UnitRequest google_translate false None "hello"].
Proof. repeat split; vm_compute; reflexivity. Qed.

(** The same on an asynchronous entry point and a batch. *)
Lemma rejected_credentials_do_not_stop_async_batch :
  let w := Mock.world_on Mock.rejecting Mock.in_input_order in
  let call := googletl_translate_async (TIter ["hello"; "world"]) "en" true None None
                (Some "text") (Some 15%Z) None "text" None in
  fst (run call w) = Ok (PyList [PyStr "<TRANSLATED:hello>"; PyStr "<TRANSLATED:world>"])
  /\ sent (snd (run call w))
     = [CredentialProbe google_translate;
        UnitRequest google_translate true None "hello";
        UnitRequest google_translate true None "world"].
Proof. repeat split; vm_compute; reflexivity. Qed.

(** ** The cost estimate (C9) *)

Lemma append_length :
  forall s t, String.length (s ++ t) = (String.length s + String.length t)%nat.
Proof.
  intros s t. induction s as [ | c s IH]; simpl.
  - reflexivity.
  - rewrite IH. reflexivity.
Qed.

Lemma str_repeat_length :
  forall s n, String.length (str_repeat s n) = (n * String.length s)%nat.
Proof.
  intros s n. induction n as [ | n IH]; simpl.
  - reflexivity.
  - rewrite append_length, IH. reflexivity.
Qed.

(** For an iterable of [K] strings the instructions are repeated [K] times,
    once per element. *)
Lemma instructions_once_per_element :
  forall (units : list string) (instructions : string),
    GeminiService.estimated_instructions (TIter units) (Some instructions)
    = str_repeat instructions (List.length units).
Proof. intros units instructions. reflexivity. Qed.

(** For a single string they are repeated once per character of it. *)
Lemma instructions_once_per_character :
  forall (s instructions : string),
    GeminiService.estimated_instructions (TStr s) (Some instructions)
    = str_repeat instructions (String.length s).
Proof. intros s instructions. reflexivity. Qed.

(** C9 at a failing input: for the single string ["hello"] the estimator is
    handed the instructions five times over, not once. *)
Theorem scalar_text_repeats_instructions :
  GeminiService.total_text_to_estimate (TStr "hello") (Some "X")
    = ("XXXXX" ++ newline ++ "hello")%string
  /\ GeminiService.total_text_to_estimate (TStr "hello") (Some "X")
    <> ("X" ++ newline ++ "hello")%string.
Proof. split; [reflexivity | vm_compute; discriminate]. Qed.

(** ** Decorators (C7) *)

(** A call that succeeds at once is not repeated. *)
Lemma retry_Ok :
  forall (A : Type) (n : nat) (call : M A) w a w',
    call w = (Ok a, w') -> retry n call w = (Ok a, w').
Proof.
  intros A n call w a w' H. destruct n; simpl; rewrite H; reflexivity.
Qed.

Lemma apply_decorator_Ok :
  forall (A B : Type) (d : decorator) (f : A -> M B) x w b w',
    f x w = (Ok b, w') -> apply_decorator d f x w = (Ok b, w').
Proof.
  intros A B [n] f x w b w' H. simpl. apply retry_Ok. exact H.
Qed.

(** If every run of [call] logs the one request [rq] and keeps the
    invariant [I], the retried call logs [rq] once per attempt, between one
    and [n + 1] times. *)
Lemma retry_attempts :
  forall (A : Type) (I : world -> Prop) (rq : request) (call : M A),
    (forall w, I w -> I (snd (call w)) /\ sent (snd (call w)) = sent w ++ [rq]) ->
    forall n w,
      I w ->
      exists k, 1 <= k <= S n
        /\ sent (snd (retry n call w)) = sent w ++ repeat rq k
        /\ I (snd (retry n call w)).
Proof.
  intros A I rq call Hcall n. induction n as [ | n IH]; intros w Hw.
  - exists 1. destruct (Hcall w Hw) as [HI Hs].
    simpl. destruct (call w) as [[a | e] w']; simpl in *; repeat split; auto.
  - destruct (Hcall w Hw) as [HI Hs].
    simpl. destruct (call w) as [[a | e] w'] eqn:E; simpl in *.
    + exists 1. repeat split; auto with arith.
    + destruct (IH w' HI) as (k & Hk & Hsent & HI').
      exists (S k). repeat split; try lia; [ | exact HI'].
      rewrite Hsent, Hs. rewrite <- app_assoc. reflexivity.
Qed.

(** One run of the Gemini primitive, once the client is there: the request
    of the unit is logged and the attributes stay. *)
Lemma gemini_primitive_request :
  forall (g : GeminiAttrs) (u : string) w,
    Gemini w = g -> _client g <> None ->
    _client g = Some (if String.eqb (_model g) "gemini--1.5-pro-latest"
                      then {| model_name := _model g;
                              system_instruction := _system_message g |}
                      else {| model_name := _model g; system_instruction := None |}) ->
    Gemini (snd (GeminiService.__translate_text u w)) = g
    /\ sent (snd (GeminiService.__translate_text u w))
       = sent w ++ [gemini_request g false u].
Proof.
  intros g u w Hg Hc Hclient.
  unfold GeminiService.__translate_text, GeminiService.client, GeminiService.attrs,
    send, bind, ret, raise. rewrite Hg. rewrite Hclient. simpl.
  rewrite Hg. split; [reflexivity | ].
  unfold gemini_request.
  destruct (String.eqb (_model g) "gemini--1.5-pro-latest"); reflexivity.
Qed.

(** What [_redefine_client] leaves: the settings, and the client they
    determine. *)
Lemma redefine_client_attrs :
  forall w u w1,
    GeminiService._redefine_client w = (Ok u, w1) ->
    settings_of (Gemini w1) = settings_of (Gemini w)
    /\ _client (Gemini w1)
       = Some (if String.eqb (_model (Gemini w1)) "gemini--1.5-pro-latest"
               then {| model_name := _model (Gemini w1);
                       system_instruction := _system_message (Gemini w1) |}
               else {| model_name := _model (Gemini w1); system_instruction := None |})
    /\ sent w1 = sent w.
Proof.
  intros w u w1 H. unfold GeminiService._redefine_client in H.
  destruct (_semaphore_value (Gemini w) <? 0)%Z; [discriminate H | ].
  inversion H; subst; simpl. repeat split.
Qed.

Lemma gemini_request_settings :
  forall g g' b u,
    settings_of g' = settings_of g -> gemini_request g' b u = gemini_request g b u.
Proof.
  intros g g' b u H. unfold gemini_request, GeminiService.text_request.
  assert (Hm : _model g' = _model g) by (injection H; auto).
  assert (Hs : _system_message g' = _system_message g) by (injection H; auto).
  rewrite Hm, Hs. reflexivity.
Qed.

(** Every attempt of the decorated Gemini call sends the request of the
    unit it was called with. *)
Lemma gemini_decorated_attempts :
  forall (d : decorator) (u : string) (w : world),
    exists k,
      sent (snd (GeminiService._translate_text u (with_gemini_decorator (Some d) w)))
      = sent w ++ repeat (gemini_request (Gemini w) false u) k.
Proof.
  intros [n] u w.
  unfold GeminiService._translate_text, GeminiService._redefine_client_decorator,
    GeminiService._logging_decorator.
  set (wd := with_gemini_decorator (Some (retry_on_exception n)) w).
  assert (Hwd : settings_of (Gemini wd)
                = settings_of (Gemini (with_gemini_decorator (Some (retry_on_exception n)) w)))
    by reflexivity.
  assert (Hsent : sent wd = sent w) by reflexivity.
  assert (Hreq : forall b, gemini_request (Gemini wd) b u = gemini_request (Gemini w) b u)
    by reflexivity.
  assert (Hdec : _decorator_to_use (Gemini wd) = Some (retry_on_exception n))
    by reflexivity.
  unfold bind at 1.
  destruct (GeminiService._redefine_client wd) as [[t | e] w1] eqn:E.
  - destruct (redefine_client_attrs _ _ _ E) as (Hset & Hcl & Hs1).
    unfold bind at 1. unfold GeminiService.attrs at 1.
    assert (Hd1 : _decorator_to_use (Gemini w1) = Some (retry_on_exception n)).
    { rewrite <- Hdec. injection Hset; auto. }
    rewrite Hd1. simpl apply_decorator.
    destruct (retry_attempts pyval (fun w' => Gemini w' = Gemini w1)
                (gemini_request (Gemini w1) false u)
                (GeminiService.__translate_text u)) with (n := n) (w := w1)
      as (k & _ & Hk & _).
    + intros w' Hw'. apply gemini_primitive_request; auto.
      * rewrite Hcl. discriminate.
    + reflexivity.
    + exists k. rewrite Hk, Hs1, Hsent.
      rewrite (gemini_request_settings _ _ false u Hset). rewrite Hreq. reflexivity.
  - exists 0. simpl. rewrite (redefine_client_sent _ _ _ E). rewrite Hsent.
    rewrite app_nil_r. reflexivity.
Qed.

(** With a decorator stored, [_translate_text] returns what it returns
    without one, whenever the undecorated call succeeds. *)
Lemma gemini_decorated_success :
  forall (d : decorator) (u : string) (w : world) r w',
    GeminiService._translate_text u (with_gemini_decorator None w) = (Ok r, w') ->
    fst (GeminiService._translate_text u (with_gemini_decorator (Some d) w)) = Ok r
    /\ sent (snd (GeminiService._translate_text u (with_gemini_decorator (Some d) w)))
       = sent w'.
Proof.
  intros [n] u w r w' H.
  assert (Hcall : exists w'',
             GeminiService._translate_text u
               (with_gemini_decorator (Some (retry_on_exception n)) w) = (Ok r, w'')
             /\ sent w'' = sent w').
  { unfold GeminiService._translate_text, GeminiService._redefine_client_decorator,
      GeminiService._logging_decorator, GeminiService._redefine_client,
      with_gemini_decorator, GeminiService._set_decorator in *.
    unfold bind at 1 in H. unfold bind at 1. simpl in *.
    destruct (_semaphore_value (Gemini w) <? 0)%Z; [discriminate H | ].
    unfold bind at 1 in H. unfold bind at 1. simpl in *.
    match type of H with
    | GeminiService.__translate_text u ?w0 = _ => set (wp := w0) in *
    end.
    match goal with
    | |- context [retry n (GeminiService.__translate_text u) ?w0] => set (wd := w0)
    end.
    assert (Hsame : fst (GeminiService.__translate_text u wd) = Ok r
                    /\ sent (snd (GeminiService.__translate_text u wd)) = sent w').
    { unfold GeminiService.__translate_text, GeminiService.client, GeminiService.attrs,
        send, bind, ret in *. simpl in *.
      inversion H; subst. split; reflexivity. }
    destruct Hsame as [Hr Hs].
    destruct (GeminiService.__translate_text u wd) as [r' w2] eqn:E. simpl in Hr, Hs.
    subst r'. exists w2. rewrite (retry_Ok pyval n _ wd r w2 E). auto. }
  destruct Hcall as (w'' & Hcall & Hs). rewrite Hcall. simpl. auto.
Qed.

(** With a decorator stored for the backend, the entry points that choose
    [translate] themselves call the decorated primitive. *)
Lemma select_translate_decorated :
  forall (a : api) (d d' : decorator) (primitive : string -> M pyval) (w : world),
    decorator_to_use (Services w a) = Some d ->
    EasyTL.select_translate a (Some d') primitive w
    = (Ok (apply_decorator d primitive), w).
Proof.
  intros a d d' primitive w H.
  unfold EasyTL.select_translate, Service.attrs, call_decorator, bind, ret.
  rewrite H. reflexivity.
Qed.

Lemma service_decorated_attempts :
  forall (a : api) (d : decorator) (u : string) (w : world),
    exists k,
      sent (snd (apply_decorator d (Service._translate_text a) u w))
      = sent w ++ repeat (UnitRequest a false None u) k.
Proof.
  intros a [n] u w. simpl.
  destruct (retry_attempts pyval (fun _ => True) (UnitRequest a false None u)
              (Service._translate_text a u)) with (n := n) (w := w)
    as (k & _ & Hk & _).
  - intros w0 _. split; [exact I | reflexivity].
  - exact I.
  - exists k. exact Hk.
Qed.

(** C7: with a decorator factory [d] in place, the decorated call of a unit
    [u] returns what the plain call returns whenever the plain call
    succeeds, and every attempt it makes sends the request of [u] itself.
    This holds for [GeminiService._translate_text], which decorates
    [__translate_text], and for the [translate] that [googletl_translate]
    and its siblings select, which decorates the primitive of the backend. *)
Theorem decorated_call_agrees_with_plain_call :
  forall (d : decorator) (u : string) (w : world),
    (forall r w',
        GeminiService._translate_text u (with_gemini_decorator None w) = (Ok r, w') ->
        fst (GeminiService._translate_text u (with_gemini_decorator (Some d) w)) = Ok r
        /\ sent (snd (GeminiService._translate_text u
                        (with_gemini_decorator (Some d) w))) = sent w')
    /\ (exists k,
          sent (snd (GeminiService._translate_text u (with_gemini_decorator (Some d) w)))
          = sent w ++ repeat (gemini_request (Gemini w) false u) k)
    /\ (forall (a : api) (d' : decorator) r w',
          decorator_to_use (Services w a) = Some d ->
          (translate <- EasyTL.select_translate a None (Service._translate_text a) ;;
           translate u) w = (Ok r, w') ->
          (translate <- EasyTL.select_translate a (Some d') (Service._translate_text a) ;;
           translate u) w = (Ok r, w'))
    /\ (forall (a : api) (d' : decorator),
          decorator_to_use (Services w a) = Some d ->
          exists k,
            sent (snd ((translate <- EasyTL.select_translate a (Some d')
                                       (Service._translate_text a) ;;
                        translate u) w))
            = sent w ++ repeat (UnitRequest a false None u) k).
Proof.
  intros d u w. repeat split.
  - apply (gemini_decorated_success d u w r w' H).
  - apply (gemini_decorated_success d u w r w' H).
  - apply gemini_decorated_attempts.
  - intros a d' r w' Hd Hplain.
    rewrite (bind_eq _ _ _ _ _ _ _ (select_translate_decorated a d d' _ w Hd)).
    apply apply_decorator_Ok. exact Hplain.
  - intros a d' Hd.
    rewrite (bind_eq _ _ _ _ _ _ _ (select_translate_decorated a d d' _ w Hd)).
    apply service_decorated_attempts.
Qed.

Lemma decorated_call_agrees_with_plain_call_witness :
  fst (GeminiService._translate_text "hello"
         (with_gemini_decorator (Some (retry_on_exception 2))
            (Mock.world_on Mock.echo Mock.in_input_order)))
  = Ok (Mock.response gemini
          (Mock.translated
             (GeminiService._default_translation_instructions ++ newline ++ "hello"))).
Proof.
  apply (decorated_call_agrees_with_plain_call (retry_on_exception 2) "hello"
           (Mock.world_on Mock.echo Mock.in_input_order))
    with (w' := snd (GeminiService._translate_text "hello"
                       (with_gemini_decorator None
                          (Mock.world_on Mock.echo Mock.in_input_order)))).
  reflexivity.
Defined.

(** The scenario of the spec: the backend refuses the unit twice and then
    answers; under a decorator that allows two more attempts the call
    returns the answer of the success path after exactly three attempts,
    each of them made with the unit's own text. *)
Lemma fails_twice_then_succeeds :
  let d := retry_on_exception 2 in
  let flaky := with_gemini_decorator (Some d)
                 (Mock.world_on (Mock.flaky 2) Mock.in_input_order) in
  let steady := with_gemini_decorator None
                  (Mock.world_on Mock.echo Mock.in_input_order) in
  fst (GeminiService._translate_text "hello" flaky)
    = fst (GeminiService._translate_text "hello" steady)
  /\ sent (snd (GeminiService._translate_text "hello" flaky))
     = repeat (gemini_request GeminiService.class_attributes false "hello") 3
  /\ fst (GeminiService._translate_text "hello"
            (with_gemini_decorator None
               (Mock.world_on (Mock.flaky 2) Mock.in_input_order)))
     = Raise (SdkError "GoogleAPIError" "503 The service is unavailable.").
Proof. repeat split; vm_compute; reflexivity. Qed.

(** ** The semaphore (C10) *)

Module BoundedConcurrencyFacts.
Import BoundedConcurrency.

Lemma in_flight_acquire :
  forall (l : list phase) (i : nat),
    nth_error l i = Some Waiting ->
    List.length (filter (phase_eqb InFlight) (set_phase i InFlight l))
    = S (List.length (filter (phase_eqb InFlight) l)).
Proof.
  induction l as [ | p l IH]; intros [ | i] H; simpl in H; try discriminate.
  - inversion H; subst. reflexivity.
  - simpl set_phase. simpl filter.
    destruct p; simpl; rewrite (IH i H); reflexivity.
Qed.

Lemma in_flight_release :
  forall (l : list phase) (i : nat),
    nth_error l i = Some InFlight ->
    S (List.length (filter (phase_eqb InFlight) (set_phase i Finished l)))
    = List.length (filter (phase_eqb InFlight) l).
Proof.
  induction l as [ | p l IH]; intros [ | i] H; simpl in H; try discriminate.
  - inversion H; subst. reflexivity.
  - simpl set_phase. simpl filter.
    destruct p; simpl; rewrite <- (IH i H); reflexivity.
Qed.

Lemma in_flight_start :
  forall (sem : Semaphore) (n : nat), in_flight (start sem n) = 0.
Proof.
  intros sem n. unfold in_flight, start. simpl.
  induction n as [ | n IH]; simpl; auto.
Qed.

(** The counter and the tasks in flight add up to the capacity: a task is in
    flight only between its acquire and its release. *)
Lemma permits_accounted :
  forall (sem : Semaphore) (n : nat) (st : state),
    (0 <= capacity sem)%Z ->
    reachable (start sem n) st ->
    (value st + Z.of_nat (in_flight st) = capacity sem)%Z /\ (0 <= value st)%Z.
Proof.
  intros sem n st Hcap Hreach. induction Hreach as [ | st st' Hreach IH Hstep].
  - rewrite in_flight_start. simpl. split; lia.
  - destruct IH as [Hsum Hpos]. destruct Hstep as [i st st' Ha | i st st' Hr].
    + unfold acquire in Ha.
      destruct (nth_error (tasks st) i) as [[ | | ] | ] eqn:E; try discriminate.
      destruct (0 <? value st)%Z eqn:Hv; [ | discriminate].
      apply Z.ltb_lt in Hv. inversion Ha; subst; clear Ha.
      unfold in_flight in *. simpl. rewrite (in_flight_acquire _ _ E). split; lia.
    + unfold release in Hr.
      destruct (nth_error (tasks st) i) as [[ | | ] | ] eqn:E; try discriminate.
      inversion Hr; subst; clear Hr.
      unfold in_flight in *. simpl. pose proof (in_flight_release _ _ E). split; lia.
Qed.

End BoundedConcurrencyFacts.

(** Creating the tasks of a batch leaves the configured limit as it was
    and, if there is a task at all, a semaphore of that capacity. *)
Lemma translate_text_async_semaphore :
  forall (u : string) (w w1 : world) (task : M pyval),
    GeminiService._translate_text_async u w = (Ok task, w1) ->
    capacity (_semaphore (Gemini w1)) = _semaphore_value (Gemini w1)
    /\ _semaphore_value (Gemini w1) = _semaphore_value (Gemini w)
    /\ (0 <= _semaphore_value (Gemini w))%Z.
Proof.
  intros u w w1 task H.
  unfold GeminiService._translate_text_async, GeminiService._redefine_client_decorator in H.
  bind_inv H. unfold ret in H. inversion H; subst; clear H.
  destruct (redefine_client_Ok _ _ _ H0) as (_ & Hc & Hv & Hpos).
  rewrite Hc, Hv. auto.
Qed.

Lemma tasks_semaphore :
  forall (units : list string) (w w1 : world) (tasks : list (M pyval)),
    for_each GeminiService._translate_text_async units w = (Ok tasks, w1) ->
    _semaphore_value (Gemini w1) = _semaphore_value (Gemini w)
    /\ List.length tasks = List.length units
    /\ (units <> [] ->
        capacity (_semaphore (Gemini w1)) = _semaphore_value (Gemini w1)
        /\ (0 <= _semaphore_value (Gemini w1))%Z).
Proof.
  induction units as [ | u units IH]; intros w w1 tasks H; simpl in H.
  - unfold ret in H. inversion H; subst.
    split; [reflexivity | ]. split; [reflexivity | ].
    intros C. exfalso. apply C. reflexivity.
  - bind_inv H. bind_inv H. unfold ret in H. inversion H; subst; clear H.
    destruct (translate_text_async_semaphore _ _ _ _ H0) as (Hc & Hv & Hpos).
    destruct (IH _ _ _ H1) as (Hv' & Hlen & Hne).
    split; [congruence | ]. split; [simpl; congruence | ]. intros _.
    destruct units as [ | u' units'].
    + simpl in H1. unfold ret in H1. inversion H1; subst. split; [exact Hc | lia].
    + destruct Hne as [Hc' Hpos']; [discriminate | ]. split; [exact Hc' | exact Hpos'].
Qed.



(** Three tasks on a semaphore of capacity two: two requests get in flight,
    the third task waits until one of them is answered. *)
Lemma third_task_waits :
  let st0 := BoundedConcurrency.start {| capacity := 2 |} 3 in
  exists st2,
    BoundedConcurrency.reachable st0 st2
    /\ BoundedConcurrency.in_flight st2 = 2
    /\ BoundedConcurrency.acquire 2 st2 = None
    /\ exists st3 st4,
         BoundedConcurrency.release 0 st2 = Some st3
         /\ BoundedConcurrency.acquire 2 st3 = Some st4
         /\ BoundedConcurrency.in_flight st4 = 2.
Proof.
  simpl.
  destruct (BoundedConcurrency.acquire 0 (BoundedConcurrency.start {| capacity := 2 |} 3))
    as [st1 | ] eqn:E1; [ | discriminate E1].
  destruct (BoundedConcurrency.acquire 1 st1) as [st2 | ] eqn:E2;
    [ | vm_compute in E1; inversion E1; subst; discriminate E2].
  exists st2. split.
  - eapply BoundedConcurrency.reachable_step.
    + eapply BoundedConcurrency.reachable_step.
      * apply BoundedConcurrency.reachable_start.
      * eapply BoundedConcurrency.step_acquire. exact E1.
    + eapply BoundedConcurrency.step_acquire. exact E2.
  - vm_compute in E1. inversion E1; subst. vm_compute in E2. inversion E2; subst.
    repeat split. eexists. eexists. repeat split.
Qed.

(** ** The Settings Record of Gemini (C8) *)

Section Frame.

Variable X : Type.
Variable obs : world -> X.

Lemma preserves_ret : forall (A : Type) (a : A), preserves obs (ret a).
Proof. intros A a w. reflexivity. Qed.

Lemma preserves_raise : forall (A : Type) (e : exn), preserves obs (@raise A e).
Proof. intros A e w. reflexivity. Qed.

Lemma preserves_lift : forall (A : Type) (r : res A), preserves obs (lift r).
Proof. intros A r w. reflexivity. Qed.

Lemma preserves_assert : forall c p, preserves obs (assert_ c p).
Proof. intros [ | ] p w; reflexivity. Qed.

Lemma preserves_check : forall o, preserves obs (check o).
Proof. intros [e | ] w; reflexivity. Qed.

Lemma preserves_bind :
  forall (A B : Type) (m : M A) (k : A -> M B),
    preserves obs m -> (forall a, preserves obs (k a)) -> preserves obs (bind m k).
Proof.
  intros A B m k Hm Hk w. unfold bind.
  specialize (Hm w). destruct (m w) as [[a | e] w1]; simpl in *.
  - rewrite Hk. exact Hm.
  - exact Hm.
Qed.

Lemma preserves_try :
  forall (A : Type) (m : M A), preserves obs m -> preserves obs (try_ m).
Proof.
  intros A m Hm w. unfold try_. specialize (Hm w).
  destruct (m w) as [r w1]. exact Hm.
Qed.

Lemma preserves_retry :
  forall (A : Type) (call : M A) (n : nat),
    preserves obs call -> preserves obs (retry n call).
Proof.
  intros A call n Hc. induction n as [ | n IH]; intros w; simpl;
    specialize (Hc w); destruct (call w) as [[a | e] w1]; simpl in *; auto.
  rewrite IH. exact Hc.
Qed.

Lemma preserves_apply_decorator :
  forall (A B : Type) (d : decorator) (f : A -> M B) (x : A),
    preserves obs (f x) -> preserves obs (apply_decorator d f x).
Proof. intros A B [n] f x H. simpl. apply preserves_retry. exact H. Qed.

Lemma preserves_for_each :
  forall (A B : Type) (f : A -> M B) (l : list A),
    (forall x, preserves obs (f x)) -> preserves obs (for_each f l).
Proof.
  intros A B f l Hf. induction l as [ | x l IH]; simpl.
  - apply preserves_ret.
  - apply preserves_bind; [apply Hf | intros y].
    apply preserves_bind; [exact IH | intros ys]. apply preserves_ret.
Qed.

Lemma preserves_run_tasks :
  forall (A : Type) (tasks : list (M A)) (order : list nat),
    Forall (preserves obs) tasks -> preserves obs (run_tasks tasks order).
Proof.
  intros A tasks order Ht. induction order as [ | i order IH]; simpl.
  - apply preserves_ret.
  - destruct (nth_error tasks i) as [t | ] eqn:E; [ | exact IH].
    apply preserves_bind.
    + rewrite Forall_forall in Ht. apply Ht. eapply nth_error_In. exact E.
    + intros a. apply preserves_bind; [exact IH | intros f]. apply preserves_ret.
Qed.

Lemma preserves_gather :
  forall (A : Type) (tasks : list (M A)),
    Forall (preserves obs) tasks -> preserves obs (gather tasks).
Proof.
  intros A tasks Ht w. unfold gather.
  apply (preserves_bind _ _ (run_tasks tasks _) _).
  - apply preserves_run_tasks. exact Ht.
  - intros f. apply preserves_ret.
Qed.

End Frame.

(** The settings of Gemini, as an observation of the world. *)
Lemma preserves_send_settings :
  forall r, preserves (fun w => settings_of (Gemini w)) (send r).
Proof. intros r w. reflexivity. Qed.

Lemma preserves_redefine_client_settings :
  preserves (fun w => settings_of (Gemini w)) GeminiService._redefine_client.
Proof.
  intros w. unfold GeminiService._redefine_client.
  destruct (_semaphore_value (Gemini w) <? 0)%Z; reflexivity.
Qed.

Lemma preserves_attrs_settings :
  forall (X : Type) (obs : world -> X), preserves obs GeminiService.attrs.
Proof. intros X obs w. reflexivity. Qed.

Lemma preserves_client_settings :
  forall (X : Type) (obs : world -> X), preserves obs GeminiService.client.
Proof.
  intros X obs. unfold GeminiService.client.
  apply preserves_bind; [apply preserves_attrs_settings | intros g].
  destruct (_client g); [apply preserves_ret | apply preserves_raise].
Qed.

Create HintDb frame.

#[local] Hint Resolve preserves_ret preserves_raise preserves_lift preserves_assert
  preserves_check preserves_send_settings preserves_redefine_client_settings
  preserves_attrs_settings preserves_client_settings : frame.

(** Walks through the binds of a computation; the leaves are closed by the
    lemmas of the [frame] database. *)
Ltac frame :=
  repeat first
    [ solve [auto 2 with frame nocore]
    | simple apply preserves_try
    | simple apply preserves_retry
    | simple apply preserves_apply_decorator
    | simple apply preserves_for_each; intros ?
    | simple apply preserves_bind; [ | intros ? ] ].

Lemma preserves_gemini_primitive :
  forall u, preserves (fun w => settings_of (Gemini w)) (GeminiService.__translate_text u).
Proof. intros u. unfold GeminiService.__translate_text. frame. Qed.

Lemma preserves_gemini_primitive_async :
  forall u,
    preserves (fun w => settings_of (Gemini w)) (GeminiService.__translate_text_async u).
Proof. intros u. unfold GeminiService.__translate_text_async. frame. Qed.

#[local] Hint Resolve preserves_gemini_primitive preserves_gemini_primitive_async : frame.

Lemma preserves_gemini_translate_text :
  forall u, preserves (fun w => settings_of (Gemini w)) (GeminiService._translate_text u).
Proof.
  intros u. unfold GeminiService._translate_text,
    GeminiService._redefine_client_decorator, GeminiService._logging_decorator.
  frame. destruct (_decorator_to_use a0); frame.
Qed.

Lemma preserves_gemini_coroutine :
  forall u w task w1,
    GeminiService._translate_text_async u w = (Ok task, w1) ->
    preserves (fun w => settings_of (Gemini w)) task.
Proof.
  intros u w task w1 H.
  unfold GeminiService._translate_text_async,
    GeminiService._redefine_client_decorator, GeminiService._logging_decorator in H.
  bind_inv H. unfold ret in H. inversion H; subst; clear H.
  frame. destruct (_decorator_to_use a0); frame.
Qed.

Lemma preserves_gemini_translate_text_async :
  forall u,
    preserves (fun w => settings_of (Gemini w)) (GeminiService._translate_text_async u).
Proof.
  intros u. unfold GeminiService._translate_text_async,
    GeminiService._redefine_client_decorator. frame.
Qed.

Lemma preserves_gemini_coroutines :
  forall units w tasks w1,
    for_each GeminiService._translate_text_async units w = (Ok tasks, w1) ->
    Forall (preserves (fun w => settings_of (Gemini w))) tasks.
Proof.
  induction units as [ | u units IH]; intros w tasks w1 H; simpl in H.
  - unfold ret in H. inversion H; subst. constructor.
  - bind_inv H. bind_inv H. unfold ret in H. inversion H; subst; clear H.
    constructor.
    + eapply preserves_gemini_coroutine. exact H0.
    + eapply IH. exact H1.
Qed.

Lemma preserves_test_credentials_gemini :
  preserves (fun w => settings_of (Gemini w)) (EasyTL.test_credentials gemini).
Proof.
  unfold EasyTL.test_credentials, EasyTL.test_func,
    GeminiService._test_api_key_validity, GeminiService._redefine_client_decorator.
  frame.
  - destruct a0; frame.
  - destruct a as [valid e]. destruct valid; simpl; frame.
    destruct (EasyTL.isinstance_exn e _); frame.
Qed.

#[local] Hint Resolve preserves_gemini_translate_text
  preserves_gemini_translate_text_async preserves_test_credentials_gemini : frame.

Lemma preserves_gemini_checks :
  forall text locals response_type response_schema model stop_sequences,
    preserves (fun w => settings_of (Gemini w))
      (EasyTL.gemini_checks text locals response_type response_schema model
         stop_sequences).
Proof.
  intros. unfold EasyTL.gemini_checks. frame.
  intros w. reflexivity.
Qed.

#[local] Hint Resolve preserves_gemini_checks : frame.

(** The half of C8 that holds: a Gemini call with
    [override_previous_settings = False] leaves every field of the record of
    settings untouched, whatever the outcome of the call. *)
Lemma gemini_without_override_keeps_settings :
  forall (o : operation) (w : world),
    backend_of o = gemini ->
    override_of o = false ->
    settings_of (Gemini (snd (run o w))) = settings_of (Gemini w).
Proof.
  intros o w Hb Ho.
  destruct o; try discriminate Hb; simpl in Ho; subst; simpl run.
  - assert (H : preserves (fun w => settings_of (Gemini w))
                  (EasyTL.gemini_translate text false decorator0 logging_directory
                     response_type response_schema translation_delay
                     translation_instructions model temperature top_p top_k
                     stop_sequences max_output_tokens)).
    { unfold EasyTL.gemini_translate. frame.
      destruct text; frame.
      - destruct (in_strings response_type _); frame.
      - destruct (in_strings response_type _); frame. }
    apply H.
  - assert (H : preserves (fun w => settings_of (Gemini w))
                  (EasyTL.gemini_translate_async text false decorator0
                     logging_directory response_type response_schema semaphore
                     translation_delay translation_instructions model temperature
                     top_p top_k stop_sequences max_output_tokens)).
    { unfold EasyTL.gemini_translate_async.
      simple apply preserves_bind; [solve [frame] | intros ?].
      simple apply preserves_bind; [solve [frame] | intros ?].
      destruct text; try solve [frame].
      - intros w0. unfold bind at 1.
        destruct (GeminiService._translate_text_async s w0) as [[task | e] w1] eqn:E.
        + pose proof (preserves_gemini_translate_text_async s w0) as H0.
          rewrite E in H0. simpl in H0. rewrite <- H0.
          assert (Ht : preserves (fun w => settings_of (Gemini w))
                         (_result <- task ;;
                          if in_strings response_type ["raw"; "raw_json"]
                          then ret _result else lift (getattr _result "text"))).
          { simple apply preserves_bind; [ | intros ?].
            - eapply preserves_gemini_coroutine. exact E.
            - destruct (in_strings response_type _); frame. }
          apply Ht.
        + pose proof (preserves_gemini_translate_text_async s w0) as H0.
          rewrite E in H0. exact H0.
      - intros w0. unfold bind at 1.
        destruct (for_each GeminiService._translate_text_async units w0)
          as [[tasks | e] w1] eqn:E.
        + assert (H0 : preserves (fun w => settings_of (Gemini w))
                         (for_each GeminiService._translate_text_async units))
            by frame.
          specialize (H0 w0). rewrite E in H0. simpl in H0. rewrite <- H0.
          assert (Ht : preserves (fun w => settings_of (Gemini w))
                         (_results <- gather tasks ;;
                          if in_strings response_type ["text"; "json"]
                          then texts <- lift (map_res (fun _r => getattr _r "text")
                                                _results) ;;
                               ret (PyList texts)
                          else ret (PyList _results))).
          { simple apply preserves_bind; [ | intros ?].
            - apply preserves_gather. eapply preserves_gemini_coroutines. exact E.
            - destruct (in_strings response_type _); frame. }
          apply Ht.
        + assert (H0 : preserves (fun w => settings_of (Gemini w))
                         (for_each GeminiService._translate_text_async units))
            by frame.
          specialize (H0 w0). rewrite E in H0. exact H0. }
    apply H.
Qed.

(** Two calls without override in a row: the second finds the settings the
    first did. *)
Lemma successive_calls_same_settings :
  forall (o1 o2 : operation) (w : world),
    backend_of o1 = gemini -> override_of o1 = false ->
    backend_of o2 = gemini -> override_of o2 = false ->
    settings_of (Gemini (snd (run o1 w))) = settings_of (Gemini w)
    /\ settings_of (Gemini (snd (run o2 (snd (run o1 w))))) = settings_of (Gemini w).
Proof.
  intros o1 o2 w Hb1 Ho1 Hb2 Ho2.
  split.
  - apply gemini_without_override_keeps_settings; assumption.
  - rewrite gemini_without_override_keeps_settings by assumption.
    apply gemini_without_override_keeps_settings; assumption.
Qed.

(** [_set_attributes] itself replaces every field it has a parameter for and
    keeps the stored decorator, for which it has none. *)
Lemma set_attributes_replaces_all_but_decorator :
  forall model system_message temperature top_p top_k candidate_count stream
         stop_sequences max_output_tokens limit logging_directory (w : world),
    settings_of (Gemini (snd (
      GeminiService._set_attributes model system_message temperature top_p top_k
        candidate_count stream stop_sequences max_output_tokens (Some limit)
        logging_directory w)))
    = {| s_system_message := system_message;
         s_model := model;
         s_temperature := temperature;
         s_top_p := top_p;
         s_top_k := top_k;
         s_candidate_count := candidate_count;
         s_stream := stream;
         s_stop_sequences := stop_sequences;
         s_max_output_tokens := max_output_tokens;
         s_semaphore_value := limit;
         s_decorator_to_use := _decorator_to_use (Gemini w);
         s_log_directory := logging_directory |}.
Proof. intros. reflexivity. Qed.


(** ** Order of the results of a batch (C1, C2) *)

(** Whatever the event loop chooses, every task completes exactly once. *)
Lemma completion_order_permutation :
  forall (choice : list nat) (n : nat),
    Permutation (completion_order choice n) (seq 0 n).
Proof.
  intros choice n. unfold completion_order.
  set (picked := nodup Nat.eq_dec (filter (fun i => Nat.ltb i n) choice)).
  assert (Hin : forall i, In i picked -> i < n).
  { intros i Hi. apply nodup_In in Hi. apply filter_In in Hi as [_ Hi].
    apply Nat.ltb_lt. exact Hi. }
  assert (Hex : forall i, existsb (Nat.eqb i) picked = true <-> In i picked).
  { intros i. rewrite existsb_exists. split.
    - intros (j & Hj & E). apply Nat.eqb_eq in E. subst. exact Hj.
    - intros Hi. exists i. split; [exact Hi | apply Nat.eqb_refl]. }
  apply NoDup_Permutation.
  - apply NoDup_app.
    + apply NoDup_nodup.
    + apply NoDup_filter. apply seq_NoDup.
    + intros i Hi Hf. apply filter_In in Hf as [_ Hf].
      apply Hex in Hi. rewrite Hi in Hf. discriminate Hf.
  - apply seq_NoDup.
  - intros i. rewrite in_app_iff, filter_In, in_seq. split.
    + intros [Hi | [Hi _]]; [ | lia]. apply Hin in Hi. lia.
    + intros Hi. destruct (existsb (Nat.eqb i) picked) eqn:E.
      * left. apply Hex. exact E.
      * right. split; [lia | reflexivity].
Qed.

Lemma completion_order_bound :
  forall (choice : list nat) (n i : nat),
    In i (completion_order choice n) <-> i < n.
Proof.
  intros choice n i. split; intros H.
  - apply (Permutation_in _ (completion_order_permutation choice n)) in H.
    apply in_seq in H. lia.
  - apply (Permutation_in _ (Permutation_sym (completion_order_permutation choice n))).
    apply in_seq. lia.
Qed.

Section Gather.

Variables U A : Type.
(** the coroutine of a unit, and the result it comes to *)
Variable f : U -> M A.
Variable g : U -> A.
(** what the tasks rely on and keep *)
Variable I : world -> Prop.
Variable units : list U.

Hypothesis task_result :
  forall u w, In u units -> I w -> fst (f u w) = Ok (g u) /\ I (snd (f u w)).

Lemma run_tasks_finished :
  forall (order : list nat) (w : world),
    I w ->
    exists w1,
      run_tasks (map f units) order w = (Ok (finished_in g units order), w1) /\ I w1.
Proof.
  induction order as [ | i order IH]; intros w Hw; simpl.
  - exists w. split; [reflexivity | exact Hw].
  - rewrite nth_error_map. unfold finished_in. simpl.
    destruct (nth_error units i) as [u | ] eqn:E; simpl.
    + destruct (task_result u w (nth_error_In _ _ E) Hw) as [Hr Hi].
      destruct (f u w) as [r w1] eqn:Ef. simpl in Hr, Hi. subst r.
      destruct (IH w1 Hi) as (w2 & Hrun & Hi2).
      exists w2. split; [ | exact Hi2].
      rewrite (bind_eq _ _ _ _ _ _ _ Ef). rewrite (bind_eq _ _ _ _ _ _ _ Hrun).
      reflexivity.
    + apply IH. exact Hw.
Qed.

Lemma result_of_finished :
  forall (order : list nat) (i : nat) (u : U),
    In i order -> nth_error units i = Some u ->
    result_of i (finished_in g units order) = [g u].
Proof.
  induction order as [ | j order IH]; intros i u Hin Hu; simpl in *.
  - contradiction.
  - destruct (nth_error units j) as [v | ] eqn:E; simpl.
    + destruct (Nat.eqb i j) eqn:Eij.
      * apply Nat.eqb_eq in Eij. subst. rewrite E in Hu. inversion Hu. reflexivity.
      * apply IH; [ | exact Hu]. destruct Hin as [Hj | Hin]; [ | exact Hin].
        subst. rewrite Nat.eqb_refl in Eij. discriminate Eij.
    + apply IH; [ | exact Hu]. destruct Hin as [Hj | Hin]; [ | exact Hin].
      subst. rewrite E in Hu. discriminate Hu.
Qed.

Lemma results_in_task_order :
  forall (order : list nat),
    (forall i, i < List.length units -> In i order) ->
    flat_map (fun i => result_of i (finished_in g units order)) (seq 0 (List.length units))
    = map g units.
Proof.
  intros order Hall.
  assert (H : forall (l : list U) (k : nat),
             (forall i u, nth_error l i = Some u -> nth_error units (k + i) = Some u) ->
             flat_map (fun i => result_of i (finished_in g units order)) (seq k (List.length l))
             = map g l).
  { induction l as [ | u l IHl]; intros k Hl; simpl.
    - reflexivity.
    - assert (Hk : nth_error units k = Some u).
      { specialize (Hl 0 u eq_refl). rewrite Nat.add_0_r in Hl. exact Hl. }
      rewrite (result_of_finished order k u).
      + simpl. f_equal. apply IHl. intros i v Hv.
        replace (S k + i) with (k + S i) by lia. apply Hl. exact Hv.
      + apply Hall. apply nth_error_Some. rewrite Hk. discriminate.
      + exact Hk. }
  apply (H units 0). intros i u Hu. exact Hu.
Qed.

(** [gather] hands back the results of the tasks in the order of the
    tasks, whatever order they complete in. *)
Lemma gather_in_task_order :
  forall (w : world),
    I w ->
    fst (gather (map f units) w) = Ok (map g units)
    /\ I (snd (gather (map f units) w)).
Proof.
  intros w Hw. unfold gather. rewrite length_map.
  set (order := completion_order (scheduler w (List.length units)) (List.length units)).
  destruct (run_tasks_finished order w Hw) as (w1 & Hrun & Hi).
  rewrite (bind_eq _ _ _ _ _ _ _ Hrun). simpl. split; [ | exact Hi].
  f_equal. apply results_in_task_order.
  intros i Hlt. apply completion_order_bound. exact Hlt.
Qed.

End Gather.


(** C2 at a failing input.  The completion of the unit ["a"] has no content;
    [openai_translate_async] leaves it out, so the first element of the list
    it returns for ["a"; "b"] is the translation of the second unit, under
    every completion order; the synchronous sibling keeps the place. *)
Theorem openai_async_result_shifts :
  forall (sched : nat -> list nat),
    fst (run (openai_translate_async (TIter ["a"; "b"]) true None None (Some "text")
                (Some 5%Z) None None "gpt-4" ArgNotGiven ArgNotGiven ArgNotGiven
                ArgNotGiven ArgNotGiven ArgNotGiven)
             (Mock.world_on Mock.silent_on_a sched))
    = Ok (PyList [PyStr "<TRANSLATED:b>"])
    /\ fst (run (openai_translate (TIter ["a"; "b"]) true None None (Some "text")
                   None None "gpt-4" ArgNotGiven ArgNotGiven ArgNotGiven
                   ArgNotGiven ArgNotGiven ArgNotGiven)
                (Mock.world_on Mock.silent_on_a sched))
       = Ok (PyList [PyNone; PyStr "<TRANSLATED:b>"]).
Proof.
  intros sched. split; [ | reflexivity].
  unfold run, EasyTL.openai_translate_async.
  erewrite bind_eq; [ | reflexivity].
  erewrite bind_eq; [ | reflexivity].
  erewrite bind_eq; [ | reflexivity].
  match goal with
  | |- context [gather ?t] =>
      change t with (map (Service._translate_text_llm_async openai
                            (Some "Please translate the following text into English."))
                       ["a"; "b"])
  end.
  match goal with
  | |- fst (bind (gather _) _ ?w1) = _ => set (w := w1)
  end.
  destruct (gather_in_task_order string pyval
              (Service._translate_text_llm_async openai
                 (Some "Please translate the following text into English."))
              (fun u => if String.eqb u "a" then Mock.chat_completion PyNone
                        else Mock.response openai (Mock.translated u))
              (fun w => backend w = Mock.silent_on_a
                        /\ decorator_to_use (Services w openai) = None)
              ["a"; "b"]) with (w := w) as [Hg _].
  - intros u w0 Hu [Hb Hd].
    unfold Service._translate_text_llm_async, Service.attrs, bind, send. simpl.
    rewrite Hd. simpl. rewrite Hb. repeat split; auto.
    destruct Hu as [<- | [<- | []]]; reflexivity.
  - split; reflexivity.
  - unfold bind. destruct (gather _ w) as [r w2]. simpl in Hg. subst r.
    vm_compute. reflexivity.
Qed.

(** C1 at a failing input: for the two units ["a"; "b"] the asynchronous
    OpenAI entry point returns a list of one element, and for the single
    string ["a"] it raises [IndexError] instead of returning a scalar. *)
Theorem openai_async_result_count :
  let w := Mock.world_on Mock.silent_on_a Mock.in_input_order in
  (exists items,
     fst (run (openai_translate_async (TIter ["a"; "b"]) true None None (Some "text")
                 (Some 5%Z) None None "gpt-4" ArgNotGiven ArgNotGiven ArgNotGiven
                 ArgNotGiven ArgNotGiven ArgNotGiven) w)
     = Ok (PyList items)
     /\ List.length items = 1)
  /\ fst (run (openai_translate_async (TStr "a") true None None (Some "text")
                 (Some 5%Z) None None "gpt-4" ArgNotGiven ArgNotGiven ArgNotGiven
                 ArgNotGiven ArgNotGiven ArgNotGiven) w)
     = Raise (IndexError "list index out of range").
Proof.
  split.
  - exists [PyStr "<TRANSLATED:b>"]. split; vm_compute; reflexivity.
  - vm_compute. reflexivity.
Qed.

(** ** Malformed responses (C5) *)

(** The credential test of a service other than Gemini, when the probe is
    let through or refused in the family of the backend. *)
Lemma test_credentials_returns :
  forall (a : api) (w0 : world),
    a <> gemini ->
    match backend w0 (sent w0) (CredentialProbe a) with
    | Ok _ => True
    | Raise e => EasyTL.isinstance_exn (Some e) (EasyTL.expected_exception a) = true
    end ->
    exists p,
      EasyTL.test_credentials a w0
      = (Ok p, with_sent (sent w0 ++ [CredentialProbe a]) w0).
Proof.
  intros a w0 Ha H.
  assert (Hf : EasyTL.test_func a = Service._test_credentials a)
    by (destruct a; try reflexivity; contradiction Ha; reflexivity).
  unfold EasyTL.test_credentials. rewrite Hf.
  unfold Service._test_credentials, try_, send, bind.
  destruct (backend w0 (sent w0) (CredentialProbe a)) as [r | e].
  - eexists. reflexivity.
  - unfold ret at 1. cbv beta iota delta [negb]. rewrite H. eexists. reflexivity.
Qed.

Lemma assert_true :
  forall c p w, c = true -> assert_ c p w = (Ok tt, w).
Proof. intros c p w ->. reflexivity. Qed.

Lemma assert_false :
  forall c p w, c = false -> assert_ c p w = (Raise (AssertionError (Some p)), w).
Proof. intros c p w ->. reflexivity. Qed.

Lemma answers_same_backend :
  forall (w w' : world) (v : pyval),
    backend w' = backend w -> answers_units_with w v -> answers_units_with w' v.
Proof. intros w w' v Hb H h a b i c. rewrite Hb. apply H. Qed.

Lemma api_eqb_refl : forall a, api_eqb a a = true.
Proof. intros []; reflexivity. Qed.

(** The primitives, on a backend that answers every unit with [v]. *)
Lemma service_primitive_answers :
  forall (a : api) (asynchronous : bool) (s : string) (v : pyval) (w : world),
    answers_units_with w v ->
    (if asynchronous then Service._translate_text_async a s w
     else Service._translate_text a s w)
    = (Ok v, with_sent (sent w ++ [UnitRequest a asynchronous None s]) w).
Proof.
  intros a [ | ] s v w H;
    unfold Service._translate_text_async, Service._translate_text, send;
    rewrite H; reflexivity.
Qed.

Lemma llm_primitive_answers :
  forall (a : api) (instructions : option string) (s : string) (v : pyval) (w : world),
    answers_units_with w v ->
    (exists w1, Service._translate_text_llm a instructions s w = (Ok v, w1)
                /\ backend w1 = backend w
                /\ Services w1 = Services w)
    /\ (exists w1, Service._translate_text_llm_async a instructions s w = (Ok v, w1)
                   /\ backend w1 = backend w
                   /\ Services w1 = Services w).
Proof.
  intros a instructions s v w H.
  unfold Service._translate_text_llm, Service._translate_text_llm_async, Service.attrs.
  split; unfold bind at 1; cbv beta iota;
    (destruct (decorator_to_use (Services w a)) as [d | ];
     [ eexists; split;
       [ apply apply_decorator_Ok; unfold send; rewrite H; reflexivity
       | split; reflexivity ]
     | eexists; split;
       [ unfold send; rewrite H; reflexivity | split; reflexivity ] ]).
Qed.

(** The settings write, the choice of [translate] and the call of the unit,
    for the three backends whose entry points choose [translate]. *)
Lemma selected_translate_answers :
  forall (B : Type) (a : api) (asynchronous override : bool)
         (options : list (string * pyarg)) (dec : option decorator)
         (s : string) (v : pyval) (k : pyval -> M B) (w : world),
    answers_units_with w v ->
    assoc "decorator" options = Some (arg_decorator dec) ->
    (dec <> None -> override = false -> decorator_to_use (Services w a) <> None) ->
    exists w1,
      ((if override then Service._set_attributes a options else ret tt) ;;
       translate <- EasyTL.select_translate a dec
                      (if asynchronous then Service._translate_text_async a
                       else Service._translate_text a) ;;
       result <- translate s ;;
       k result) w
      = k v w1.
Proof.
  intros B a asynchronous override options dec s v k w Hunit Hopt Hdec.
  set (prim := if asynchronous then Service._translate_text_async a
               else Service._translate_text a).
  assert (Hprim : forall w', backend w' = backend w ->
                    prim s w' = (Ok v, with_sent (sent w' ++ [UnitRequest a asynchronous None s]) w')).
  { intros w' Hb.
    pose proof (service_primitive_answers a asynchronous s v w'
                  (answers_same_backend w w' v Hb Hunit)) as H.
    unfold prim. destruct asynchronous; exact H. }
  assert (Hsel : forall w',
             backend w' = backend w ->
             (dec <> None -> decorator_to_use (Services w' a) <> None) ->
             exists w1,
               (translate <- EasyTL.select_translate a dec prim ;;
                result <- translate s ;; k result) w' = k v w1).
  { intros w' Hb Hd. unfold EasyTL.select_translate.
    destruct dec as [d' | ].
    - destruct (decorator_to_use (Services w' a)) as [d | ] eqn:E;
        [ | exfalso; apply Hd; [discriminate | reflexivity]].
      eexists.
      erewrite bind_eq;
        [ | unfold Service.attrs, call_decorator, bind; simpl; rewrite E; reflexivity].
      erewrite bind_eq; [ | apply apply_decorator_Ok; apply Hprim; exact Hb].
      reflexivity.
    - eexists. erewrite bind_eq; [ | reflexivity].
      erewrite bind_eq; [ | apply Hprim; exact Hb]. reflexivity. }
  destruct override.
  - erewrite bind_eq; [ | reflexivity].
    apply Hsel; [reflexivity | ].
    intros Hne. simpl. rewrite api_eqb_refl. simpl. rewrite Hopt.
    destruct dec; [simpl; discriminate | exfalso; apply Hne; reflexivity].
  - erewrite bind_eq; [ | reflexivity].
    apply Hsel; [reflexivity | ]. intros Hne. apply Hdec; [exact Hne | reflexivity].
Qed.

Lemma collection_has_no_field :
  forall (v : pyval) (f : string), isinstance_list v = true -> hasattr v f = false.
Proof. intros [ | | | | ] f H; try discriminate H; reflexivity. Qed.

(** The scalar path of an entry point that chooses [translate], from the
    credential test on. *)
Ltac selected_scalar_path a asynchronous override Hprobe Hunit Hdec Hcol w :=
  let p := fresh "p" in
  let Hp := fresh "Hp" in
  let w1 := fresh "w1" in
  let Hw1 := fresh "Hw1" in
  destruct (test_credentials_returns a w) as [p Hp];
    [discriminate | apply Hprobe | ];
  rewrite (bind_eq _ _ _ _ _ _ _ Hp);
  edestruct (selected_translate_answers pyval a asynchronous override) as [w1 Hw1];
    cycle 3;
    [ rewrite Hw1; unfold collection_for in Hcol; simpl in Hcol
    | apply (answers_same_backend w); [reflexivity | exact Hunit]
    | reflexivity
    | let Hne := fresh in let Hov := fresh in
      intros Hne Hov; apply (Hdec eq_refl Hne Hov) ].

Lemma malformed_collection_selecting :
  forall (o : operation) (s : string) (v : pyval) (w : world),
    selects_translate o = true ->
    text_of o = TStr s ->
    dispatches o w ->
    answers_units_with w v ->
    collection_for o v = true ->
    fst (run o w) = Raise (AssertionError (Some malformed)).
Proof.
  intros o s v w Hsel Ht (Hrt & Hfmt & Hval & Hprobe & Hgem & Hdec) Hunit Hcol.
  destruct o; try discriminate Hsel; simpl in Ht; subst text.
  - (* googletl_translate *)
    specialize (Hfmt _ eq_refl). unfold run, EasyTL.googletl_translate.
    erewrite bind_eq; [ | apply assert_true; exact Hrt].
    erewrite bind_eq; [ | apply assert_true; exact Hfmt].
    selected_scalar_path google_translate false override_previous_settings
      Hprobe Hunit Hdec Hcol w.
    erewrite bind_Raise; [reflexivity | ].
    apply assert_false. rewrite Hcol. reflexivity.
  - (* googletl_translate_async *)
    specialize (Hfmt _ eq_refl). unfold run, EasyTL.googletl_translate_async.
    erewrite bind_eq; [ | apply assert_true; exact Hrt].
    erewrite bind_eq; [ | apply assert_true; exact Hfmt].
    selected_scalar_path google_translate true override_previous_settings
      Hprobe Hunit Hdec Hcol w.
    erewrite bind_Raise; [reflexivity | ].
    apply assert_false. rewrite Hcol. reflexivity.
  - (* deepl_translate *)
    unfold run, EasyTL.deepl_translate.
    erewrite bind_eq; [ | apply assert_true; exact Hrt].
    selected_scalar_path deepl false override_previous_settings
      Hprobe Hunit Hdec Hcol w.
    erewrite bind_Raise; [reflexivity | ].
    apply assert_false. rewrite Hcol. reflexivity.
  - (* deepl_translate_async *)
    unfold run, EasyTL.deepl_translate_async.
    erewrite bind_eq; [ | apply assert_true; exact Hrt].
    selected_scalar_path deepl true override_previous_settings
      Hprobe Hunit Hdec Hcol w.
    erewrite bind_Raise; [reflexivity | ].
    apply assert_false. rewrite Hcol. reflexivity.
  - (* azure_translate *)
    unfold run, EasyTL.azure_translate.
    erewrite bind_eq; [ | apply assert_true; exact Hrt].
    selected_scalar_path azure false override_previous_settings
      Hprobe Hunit Hdec Hcol w.
    destruct v as [ | | [ | x l] | | ]; try discriminate Hcol.
    erewrite bind_eq; [ | reflexivity].
    erewrite bind_Raise; [reflexivity | ].
    apply assert_false. rewrite Hcol. reflexivity.
  - (* azure_translate_async *)
    unfold run, EasyTL.azure_translate_async.
    erewrite bind_eq; [ | apply assert_true; exact Hrt].
    selected_scalar_path azure true override_previous_settings
      Hprobe Hunit Hdec Hcol w.
    destruct v as [ | | [ | x l] | | ]; try discriminate Hcol.
    erewrite bind_eq; [ | reflexivity].
    erewrite bind_Raise; [reflexivity | ].
    apply assert_false. rewrite Hcol. reflexivity.
Qed.

Lemma check_None : forall w, check None w = (Ok tt, w).
Proof. reflexivity. Qed.

(** The credential test of Gemini, when the configured limit is not
    negative and the probe is let through or refused in the family. *)
Lemma test_credentials_gemini_returns :
  forall (w : world),
    (0 <= _semaphore_value (Gemini w))%Z ->
    probe_returns w gemini ->
    exists p w1,
      EasyTL.test_credentials gemini w = (Ok p, w1)
      /\ backend w1 = backend w
      /\ settings_of (Gemini w1) = settings_of (Gemini w).
Proof.
  intros w Hsem Hprobe.
  destruct (GeminiService._redefine_client w) as [[u | e] w0] eqn:E.
  - destruct (redefine_client_attrs _ _ _ E) as (Hset & Hcl & Hs).
    assert (Hb : backend w0 = backend w).
    { unfold GeminiService._redefine_client in E.
      destruct (_semaphore_value (Gemini w) <? 0)%Z; inversion E; reflexivity. }
    assert (Htry : try_ (c <- GeminiService.client ;; send (CredentialProbe gemini)) w0
                   = (Ok (backend w (sent w0) (CredentialProbe gemini)),
                      with_sent (sent w0 ++ [CredentialProbe gemini]) w0)).
    { unfold try_, GeminiService.client, GeminiService.attrs, send, bind, ret.
      rewrite Hcl. rewrite Hb. reflexivity. }
    unfold EasyTL.test_credentials, EasyTL.test_func,
      GeminiService._test_api_key_validity, GeminiService._redefine_client_decorator.
    specialize (Hprobe (sent w0)).
    destruct (backend w (sent w0) (CredentialProbe gemini)) as [r | e] eqn:Eb.
    + eexists. eexists. split.
      * erewrite bind_eq;
          [ | erewrite bind_eq; [ | exact E];
              erewrite bind_eq; [ | exact Htry]; reflexivity ].
        reflexivity.
      * split; [exact Hb | exact Hset].
    + eexists. eexists. split.
      * erewrite bind_eq;
          [ | erewrite bind_eq; [ | exact E];
              erewrite bind_eq; [ | exact Htry]; reflexivity ].
        cbv beta iota delta [negb]. rewrite Hprobe. reflexivity.
      * split; [exact Hb | exact Hset].
  - exfalso. unfold GeminiService._redefine_client in E.
    destruct (_semaphore_value (Gemini w) <? 0)%Z eqn:F; [ | discriminate E].
    apply Z.ltb_lt in F. lia.
Qed.

Lemma gemini_checks_pass :
  forall text locals response_type response_schema model stop_sequences (w : world),
    in_strings response_type ["text"; "raw"; "json"; "raw_json"] = true ->
    validators_accept (util w) ->
    probe_returns w gemini ->
    (0 <= _semaphore_value (Gemini w))%Z ->
    exists y w1,
      EasyTL.gemini_checks text locals response_type response_schema model
        stop_sequences w = (Ok y, w1)
      /\ backend w1 = backend w
      /\ settings_of (Gemini w1) = settings_of (Gemini w).
Proof.
  intros text locals response_type response_schema model stop_sequences w
    Hrt (Hv1 & Hv2 & Hv3 & Hv4) Hprobe Hsem.
  destruct (Hv4 response_schema) as [y Hy].
  destruct (test_credentials_gemini_returns w Hsem Hprobe) as (p & w1 & Hp & Hb & Hs).
  exists y, w1. split; [ | split; assumption].
  unfold EasyTL.gemini_checks.
  erewrite bind_eq; [ | apply assert_true; exact Hrt].
  erewrite bind_eq; [ | reflexivity].
  rewrite Hv1, Hv2, Hv3, Hy.
  erewrite bind_eq; [ | apply check_None].
  erewrite bind_eq; [ | apply check_None].
  erewrite bind_eq; [ | apply check_None].
  erewrite bind_eq; [ | reflexivity].
  erewrite bind_eq; [ | exact Hp].
  reflexivity.
Qed.

(** The unit call of Gemini on a backend that answers every unit with [v]. *)
Lemma gemini_translate_text_answers :
  forall (s : string) (v : pyval) (w : world),
    answers_units_with w v ->
    (0 <= _semaphore_value (Gemini w))%Z ->
    exists w1, GeminiService._translate_text s w = (Ok v, w1).
Proof.
  intros s v w Hunit Hsem.
  unfold GeminiService._translate_text, GeminiService._redefine_client_decorator,
    GeminiService._logging_decorator.
  destruct (GeminiService._redefine_client w) as [[u | e] w0] eqn:E.
  - destruct (redefine_client_attrs _ _ _ E) as (Hset & Hcl & Hs).
    assert (Hb : backend w0 = backend w).
    { unfold GeminiService._redefine_client in E.
      destruct (_semaphore_value (Gemini w) <? 0)%Z; inversion E; reflexivity. }
    rewrite (bind_eq _ _ _ _ _ _ _ E).
    unfold GeminiService.attrs at 1. unfold bind at 1. cbv beta iota.
    assert (Hprim : exists w1, GeminiService.__translate_text s w0 = (Ok v, w1)).
    { unfold GeminiService.__translate_text, GeminiService.client,
        GeminiService.attrs, send, bind, ret. rewrite Hcl.
      rewrite (answers_same_backend w w0 v Hb Hunit). eexists. reflexivity. }
    destruct Hprim as [w1 Hprim].
    destruct (_decorator_to_use (Gemini w0)) as [d | ].
    + exists w1. apply apply_decorator_Ok. exact Hprim.
    + exists w1. exact Hprim.
  - exfalso. unfold GeminiService._redefine_client in E.
    destruct (_semaphore_value (Gemini w) <? 0)%Z eqn:F; [ | discriminate E].
    apply Z.ltb_lt in F. lia.
Qed.

Lemma malformed_gemini :
  forall (o : operation) (s : string) (v : pyval) (w : world),
    backend_of o = gemini -> asserts_on_response o = true ->
    text_of o = TStr s ->
    dispatches o w ->
    answers_units_with w v ->
    collection_for o v = true \/ lacks_asserted_field o v = true ->
    fst (run o w) = Raise (AssertionError (Some malformed)).
Proof.
  intros o s v w Hb Has Ht (Hrt & Hfmt & Hval & Hprobe & Hgem & Hdec) Hunit Hmal.
  destruct o; try discriminate Hb; try discriminate Has.
  simpl in Ht; subst text. destruct (Hgem eq_refl) as [Hov Hsem].
  simpl in Hov. subst override_previous_settings.
  unfold run, EasyTL.gemini_translate.
  edestruct gemini_checks_pass as (y & w1 & Hc & Hbk & Hs);
    [exact Hrt | exact Hval | exact Hprobe | exact Hsem | ].
  rewrite (bind_eq _ _ _ _ _ _ _ Hc).
  erewrite bind_eq; [ | reflexivity].
  destruct (gemini_translate_text_answers s v w1) as [w2 Hcall].
  { apply (answers_same_backend w); assumption. }
  { assert (E : _semaphore_value (Gemini w1) = _semaphore_value (Gemini w))
      by (injection Hs; auto).
    rewrite E. exact Hsem. }
  rewrite (bind_eq _ _ _ _ _ _ _ Hcall).
  erewrite bind_Raise; [reflexivity | ].
  apply assert_false.
  unfold collection_for, lacks_asserted_field in Hmal. simpl in Hmal.
  destruct Hmal as [H | H].
  - rewrite H. reflexivity.
  - apply negb_true_iff in H. rewrite H. apply andb_false_r.
Qed.

Lemma openai_checks_pass :
  forall text locals response_type model stop (w : world),
    in_strings response_type ["text"; "raw"; "json"; "raw_json"] = true ->
    validators_accept (util w) ->
    probe_returns w openai ->
    EasyTL.openai_checks text locals response_type model stop w
    = (Ok tt, with_sent (sent w ++ [CredentialProbe openai]) w).
Proof.
  intros text locals response_type model stop w Hrt (Hv1 & Hv2 & Hv3 & Hv4) Hprobe.
  destruct (test_credentials_returns openai w) as [p Hp];
    [discriminate | apply Hprobe | ].
  unfold EasyTL.openai_checks.
  erewrite bind_eq; [ | apply assert_true; exact Hrt].
  erewrite bind_eq; [ | reflexivity].
  rewrite Hv1, Hv2, Hv3.
  erewrite bind_eq; [ | apply check_None].
  erewrite bind_eq; [ | apply check_None].
  erewrite bind_eq; [ | apply check_None].
  erewrite bind_eq; [ | exact Hp].
  reflexivity.
Qed.

Lemma openai_settings_returns :
  forall override options instructions (w : world),
    exists i w1,
      EasyTL.openai_settings override options instructions w = (Ok i, w1)
      /\ backend w1 = backend w.
Proof.
  intros [ | ] options instructions w; unfold EasyTL.openai_settings.
  - eexists. eexists. split.
    + erewrite bind_eq; [ | reflexivity]. erewrite bind_eq; [ | reflexivity].
      reflexivity.
    + reflexivity.
  - eexists. eexists. split.
    + erewrite bind_eq; [ | reflexivity]. reflexivity.
    + reflexivity.
Qed.

Lemma anthropic_checks_pass :
  forall text locals response_type response_schema model stop_sequences (w : world),
    in_strings response_type ["text"; "raw"; "json"; "raw_json"] = true ->
    validators_accept (util w) ->
    probe_returns w anthropic ->
    exists y,
      EasyTL.anthropic_checks text locals response_type response_schema model
        stop_sequences w
      = (Ok y, with_sent (sent w ++ [CredentialProbe anthropic]) w).
Proof.
  intros text locals response_type response_schema model stop_sequences w
    Hrt (Hv1 & Hv2 & Hv3 & Hv4) Hprobe.
  destruct (Hv4 response_schema) as [y Hy].
  destruct (test_credentials_returns anthropic w) as [p Hp];
    [discriminate | apply Hprobe | ].
  exists y. unfold EasyTL.anthropic_checks.
  erewrite bind_eq; [ | apply assert_true; exact Hrt].
  erewrite bind_eq; [ | reflexivity].
  rewrite Hv1, Hv2, Hv3, Hy.
  erewrite bind_eq; [ | apply check_None].
  erewrite bind_eq; [ | apply check_None].
  erewrite bind_eq; [ | apply check_None].
  erewrite bind_eq; [ | reflexivity].
  erewrite bind_eq; [ | exact Hp].
  reflexivity.
Qed.

Lemma anthropic_settings_returns :
  forall override options instructions (w : world),
    exists w1,
      EasyTL.anthropic_settings override options instructions w = (Ok tt, w1)
      /\ backend w1 = backend w.
Proof.
  intros [ | ] options instructions w; unfold EasyTL.anthropic_settings.
  - eexists. split.
    + erewrite bind_eq; [ | reflexivity]. erewrite bind_eq; [ | reflexivity].
      reflexivity.
    + reflexivity.
  - eexists. split; reflexivity.
Qed.

(** What the assertions of the chat backends reject. *)
Lemma rejected_by_field_assertion :
  forall (v : pyval) (f : string),
    isinstance_list v = true \/ negb (hasattr v f) = true ->
    negb (isinstance_list v) && hasattr v f = false
    /\ forallb (fun _r => hasattr _r f) [v] = false.
Proof.
  intros v f [H | H].
  - simpl. rewrite H. rewrite (collection_has_no_field v f H). split; reflexivity.
  - apply negb_true_iff in H. simpl. rewrite H. split; [apply andb_false_r | reflexivity].
Qed.

Lemma malformed_chat_sync :
  forall (o : operation) (s : string) (v : pyval) (w : world),
    (backend_of o = openai \/ backend_of o = anthropic) -> is_async o = false ->
    text_of o = TStr s ->
    dispatches o w ->
    answers_units_with w v ->
    collection_for o v = true \/ lacks_asserted_field o v = true ->
    fst (run o w) = Raise (AssertionError (Some malformed)).
Proof.
  intros o s v w Hb Ha Ht (Hrt & Hfmt & Hval & Hprobe & Hgem & Hdec) Hunit Hmal.
  destruct o; try discriminate Ha; try (destruct Hb as [Hb | Hb]; discriminate Hb);
    simpl in Ht; subst text; clear Hb.
  - (* openai_translate *)
    unfold run, EasyTL.openai_translate. cbv zeta.
    erewrite bind_eq; [ | apply openai_checks_pass; assumption].
    edestruct openai_settings_returns as (i & w1 & Hs & Hbk).
    erewrite bind_eq; [ | exact Hs].
    erewrite bind_eq; [ | reflexivity].
    destruct (llm_primitive_answers openai i s v w1) as [(w2 & Hcall & _) _].
    { apply (answers_same_backend w); [ | exact Hunit]. rewrite Hbk. reflexivity. }
    erewrite bind_Raise; [reflexivity | ].
    simpl for_each.
    erewrite bind_Raise; [reflexivity | ].
    erewrite bind_eq; [ | exact Hcall].
    erewrite bind_Raise; [reflexivity | ].
    apply assert_false.
    apply (rejected_by_field_assertion v "choices"). exact Hmal.
  - (* anthropic_translate *)
    unfold run, EasyTL.anthropic_translate. cbv zeta.
    edestruct anthropic_checks_pass as [y Hc];
      [exact Hrt | exact Hval | exact Hprobe | ].
    erewrite bind_eq; [ | exact Hc].
    edestruct anthropic_settings_returns as (w1 & Hs & Hbk).
    erewrite bind_eq; [ | exact Hs].
    erewrite bind_eq; [ | reflexivity].
    destruct (llm_primitive_answers anthropic (system_message (Services w1 anthropic))
                s v w1) as [(w2 & Hcall & _) _].
    { apply (answers_same_backend w); [ | exact Hunit]. rewrite Hbk. reflexivity. }
    erewrite bind_Raise; [reflexivity | ].
    simpl EasyTL.anthropic_loop.
    erewrite bind_Raise; [reflexivity | ].
    unfold EasyTL.anthropic_turn.
    erewrite bind_eq; [ | reflexivity].
    erewrite bind_eq; [ | exact Hcall].
    erewrite bind_Raise; [reflexivity | ].
    apply assert_false.
    apply (rejected_by_field_assertion v "content"). exact Hmal.
Qed.

(** A batch of one task on a backend that answers every unit with [v]. *)
Lemma gather_one_answer :
  forall (a : api) (instructions : option string) (s : string) (v : pyval) (w : world),
    answers_units_with w v ->
    exists w1,
      gather [Service._translate_text_llm_async a instructions s] w = (Ok [v], w1).
Proof.
  intros a instructions s v w Hunit.
  destruct (gather_in_task_order string pyval
              (Service._translate_text_llm_async a instructions)
              (fun _ => v)
              (fun w0 => backend w0 = backend w)
              [s]) with (w := w) as [Hg _].
  - intros u w0 _ Hb.
    destruct (llm_primitive_answers a instructions u v w0
                (answers_same_backend w w0 v Hb Hunit)) as [_ (w1 & Hcall & Hb1 & _)].
    rewrite Hcall. simpl. split; [reflexivity | congruence].
  - reflexivity.
  - simpl map in Hg.
    destruct (gather [Service._translate_text_llm_async a instructions s] w)
      as [r w1].
    simpl in Hg. subst r. exists w1. reflexivity.
Qed.

Lemma malformed_chat_async :
  forall (o : operation) (s : string) (v : pyval) (w : world),
    (backend_of o = openai \/ backend_of o = anthropic) -> is_async o = true ->
    text_of o = TStr s ->
    dispatches o w ->
    answers_units_with w v ->
    collection_for o v = true \/ lacks_asserted_field o v = true ->
    fst (run o w) = Raise (AssertionError (Some malformed)).
Proof.
  intros o s v w Hb Ha Ht (Hrt & Hfmt & Hval & Hprobe & Hgem & Hdec) Hunit Hmal.
  destruct o; try discriminate Ha; try (destruct Hb as [Hb | Hb]; discriminate Hb);
    simpl in Ht; subst text; clear Hb.
  - (* openai_translate_async *)
    unfold run, EasyTL.openai_translate_async. cbv zeta.
    erewrite bind_eq; [ | apply openai_checks_pass; assumption].
    edestruct openai_settings_returns as (i & w1 & Hs & Hbk).
    erewrite bind_eq; [ | exact Hs].
    erewrite bind_eq; [ | reflexivity].
    destruct (gather_one_answer openai i s v w1) as [w2 Hg].
    { apply (answers_same_backend w); [ | exact Hunit]. rewrite Hbk. reflexivity. }
    erewrite bind_eq; [ | exact Hg].
    erewrite bind_Raise; [reflexivity | ].
    apply assert_false.
    apply (rejected_by_field_assertion v "choices"). exact Hmal.
  - (* anthropic_translate_async *)
    unfold run, EasyTL.anthropic_translate_async. cbv zeta.
    edestruct anthropic_checks_pass as [y Hc];
      [exact Hrt | exact Hval | exact Hprobe | ].
    erewrite bind_eq; [ | exact Hc].
    edestruct anthropic_settings_returns as (w1 & Hs & Hbk).
    erewrite bind_eq; [ | exact Hs].
    erewrite bind_eq; [ | reflexivity].
    erewrite bind_eq; [ | reflexivity].
    destruct (gather_one_answer anthropic (system_message (Services w1 anthropic))
                s v w1) as [w2 Hg].
    { apply (answers_same_backend w); [ | exact Hunit]. rewrite Hbk. reflexivity. }
    erewrite bind_eq; [ | exact Hg].
    erewrite bind_Raise; [reflexivity | ].
    apply assert_false.
    apply (rejected_by_field_assertion v "content"). exact Hmal.
Qed.

(** C5, as the code has it.  Take a translate operation other than
    [gemini_translate_async], a single string as its input, and a call that
    gets as far as the dispatch of the unit.  If the backend answers with a
    collection (for Azure, whose responses are lists, with a list whose first
    item is a collection), or, for the operations that assert on a field
    (Gemini [text], OpenAI [choices], Anthropic [content]), with an object
    that lacks it, the call fails with the [AssertionError] that carries
    [EasyTLException("Malformed response received. Please try again.")],
    on the synchronous and on the asynchronous paths alike. *)
Theorem malformed_response_fails_assertion :
  forall (o : operation) (s : string) (v : pyval) (w : world),
    asserts_on_response o = true ->
    text_of o = TStr s ->
    dispatches o w ->
    answers_units_with w v ->
    collection_for o v = true \/ lacks_asserted_field o v = true ->
    fst (run o w) = Raise (AssertionError (Some malformed)).
Proof.
  intros o s v w Has Ht Hd Hunit Hmal.
  destruct (selects_translate o) eqn:Hsel.
  - apply (malformed_collection_selecting o s v w Hsel Ht Hd Hunit).
    destruct Hmal as [H | H]; [exact H | ].
    exfalso. destruct o; try discriminate Hsel; discriminate H.
  - destruct (backend_of o) eqn:Hb;
      try (unfold selects_translate in Hsel; rewrite Hb in Hsel; discriminate Hsel).
    + apply (malformed_gemini o s v w Hb Has Ht Hd Hunit Hmal).
    + destruct (is_async o) eqn:Ha.
      * apply (malformed_chat_async o s v w (or_introl Hb) Ha Ht Hd Hunit Hmal).
      * apply (malformed_chat_sync o s v w (or_introl Hb) Ha Ht Hd Hunit Hmal).
    + destruct (is_async o) eqn:Ha.
      * apply (malformed_chat_async o s v w (or_intror Hb) Ha Ht Hd Hunit Hmal).
      * apply (malformed_chat_sync o s v w (or_intror Hb) Ha Ht Hd Hunit Hmal).
Qed.

Lemma malformed_response_fails_assertion_witness :
  fst (run (deepl_translate_async (TStr "hello") (ArgStr "EN-US") true
              (Some (retry_on_exception 2)) None (Some "text") (Some 15%Z) None
              ArgNone ArgNone (ArgStr "ALL") ArgNone ArgNone ArgNone ArgNone ArgNone
              ArgNone ArgNone ArgNone)
           (Mock.world_on (Mock.answering (PyList [])) Mock.in_input_order))
  = Raise (AssertionError (Some malformed)).
Proof.
  apply (malformed_response_fails_assertion
           (deepl_translate_async (TStr "hello") (ArgStr "EN-US") true
              (Some (retry_on_exception 2)) None (Some "text") (Some 15%Z) None
              ArgNone ArgNone (ArgStr "ALL") ArgNone ArgNone ArgNone ArgNone ArgNone
              ArgNone ArgNone ArgNone)
           "hello" (PyList [])
           (Mock.world_on (Mock.answering (PyList [])) Mock.in_input_order)).
  - reflexivity.
  - reflexivity.
  - repeat split; try (intros; reflexivity); try (intros; discriminate).
    intros x. exists x. reflexivity.
  - intros h a b i c. reflexivity.
  - left. reflexivity.
Defined.

(** C5, as stated, fails: Google Translate answers with an object that has
    no [translatedText], and what leaves [googletl_translate] is the
    [KeyError] of the subscript, not a malformed-response error. *)
Lemma absent_field_raises_KeyError :
  fst (run (googletl_translate (TStr "hello") "en" true None None (Some "text") None
              "text" None)
           (Mock.world_on (Mock.answering (PyDict [("input", PyStr "hello")]))
              Mock.in_input_order))
  = Raise (KeyError "translatedText").
Proof. vm_compute. reflexivity. Qed.

(** [gemini_translate_async] has no assertion on its scalar path: a
    collection comes back as it is for the raw response type, and fails in
    the attribute access for the text response type. *)
Lemma gemini_async_does_not_assert :
  let w := Mock.world_on (Mock.answering (PyList [])) Mock.in_input_order in
  fst (run (gemini_translate_async (TStr "hello") false None None (Some "raw") ArgNone
              (Some 5%Z) None None "gemini-pro" 0.5%Q 0.9%Q 40 None None) w)
    = Ok (PyList [])
  /\ fst (run (gemini_translate_async (TStr "hello") false None None (Some "text")
                 ArgNone (Some 5%Z) None None "gemini-pro" 0.5%Q 0.9%Q 40 None None) w)
    = Raise (AttributeError "text")
  /\ fst (run (gemini_translate (TStr "hello") false None None (Some "text")
                 ArgNone None None "gemini-pro" 0.5%Q 0.9%Q 40 None None) w)
    = Raise (AssertionError (Some malformed)).
Proof. repeat split; vm_compute; reflexivity. Qed.

(** ** The requests of one call: the probe first, then units of one backend *)

Section Traces.

Variable a : api.
Variable asynchronous : bool.

Lemma accepts_app :
  forall (l1 l2 : list request) (s : bool),
    accepts a asynchronous s (l1 ++ l2)
    = match accepts a asynchronous s l1 with
      | Some p => accepts a asynchronous p l2
      | None => None
      end.
Proof.
  induction l1 as [ | r l1 IH]; intros l2 s; simpl.
  - reflexivity.
  - destruct (request_step a asynchronous s r) as [p | ]; [apply IH | reflexivity].
Qed.

Lemma tracks_quiet :
  forall (A : Type) (s : bool) (m : M A),
    preserves sent m -> tracks a asynchronous s s (fun _ => True) m.
Proof.
  intros A s m H w. exists []. rewrite app_nil_r. split; [apply H | ].
  destruct (fst (m w)); simpl; [split; [reflexivity | exact I] | discriminate].
Qed.

Lemma tracks_ret :
  forall (A : Type) (s : bool) (Q : A -> Prop) (x : A),
    Q x -> tracks a asynchronous s s Q (ret x).
Proof.
  intros A s Q x H w. exists []. rewrite app_nil_r. simpl. auto.
Qed.

Lemma tracks_raise :
  forall (A : Type) (s s' : bool) (Q : A -> Prop) (e : exn),
    tracks a asynchronous s s' Q (@raise A e).
Proof.
  intros A s s' Q e w. exists []. rewrite app_nil_r. simpl.
  split; [reflexivity | discriminate].
Qed.

Lemma tracks_weaken :
  forall (A : Type) (s s' : bool) (Q Q' : A -> Prop) (m : M A),
    tracks a asynchronous s s' Q m -> (forall x, Q x -> Q' x) ->
    tracks a asynchronous s s' Q' m.
Proof.
  intros A s s' Q Q' m H HQ w. destruct (H w) as (l & Hl & Hr).
  exists l. split; [exact Hl | ].
  destruct (fst (m w)); [ | exact Hr]. destruct Hr; auto.
Qed.

Lemma tracks_bind :
  forall (A B : Type) (s1 s2 s3 : bool) (Q : A -> Prop) (R : B -> Prop)
         (m : M A) (k : A -> M B),
    tracks a asynchronous s1 s2 Q m ->
    (forall x, Q x -> tracks a asynchronous s2 s3 R (k x)) ->
    tracks a asynchronous s1 s3 R (bind m k).
Proof.
  intros A B s1 s2 s3 Q R m k Hm Hk w. unfold bind.
  destruct (Hm w) as (l1 & Hl1 & Hr1).
  destruct (m w) as [[x | e] w1]; simpl in *.
  - destruct Hr1 as [Ha HQ].
    destruct (Hk x HQ w1) as (l2 & Hl2 & Hr2).
    exists (l1 ++ l2). split.
    + rewrite Hl2, Hl1. rewrite app_assoc. reflexivity.
    + rewrite accepts_app, Ha. exact Hr2.
  - exists l1. split; assumption.
Qed.

Lemma tracks_send_unit :
  forall (instructions : option string) (contents : string),
    tracks a asynchronous true true (fun _ => True)
      (send (UnitRequest a asynchronous instructions contents)).
Proof.
  intros instructions contents w.
  exists [UnitRequest a asynchronous instructions contents].
  split; [reflexivity | ].
  assert (E : accepts a asynchronous true
                [UnitRequest a asynchronous instructions contents] = Some true).
  { simpl. rewrite api_eqb_refl, Bool.eqb_reflx. reflexivity. }
  change (fst (send (UnitRequest a asynchronous instructions contents) w))
    with (backend w (sent w) (UnitRequest a asynchronous instructions contents)).
  destruct (backend w (sent w) _).
  - split; [exact E | exact I].
  - rewrite E. discriminate.
Qed.

Lemma tracks_probe :
  tracks a asynchronous false true (fun _ => True) (try_ (send (CredentialProbe a))).
Proof.
  intros w. exists [CredentialProbe a]. split.
  - unfold try_, send. reflexivity.
  - unfold try_, send. simpl. rewrite api_eqb_refl. split; [reflexivity | exact I].
Qed.

Lemma accepts_probed :
  forall (l : list request) (p : bool),
    accepts a asynchronous true l = Some p -> p = true.
Proof.
  induction l as [ | r l IH]; intros p H; simpl in H.
  - congruence.
  - destruct r as [b | b s i c]; simpl in H; [discriminate H | ].
    destruct (api_eqb a b && Bool.eqb s asynchronous); [apply IH; exact H | discriminate H].
Qed.

Lemma tracks_retry :
  forall (A : Type) (Q : A -> Prop) (call : M A) (n : nat),
    tracks a asynchronous true true Q call ->
    tracks a asynchronous true true Q (retry n call).
Proof.
  intros A Q call n Hc. induction n as [ | n IH]; intros w; simpl.
  - destruct (Hc w) as (l & Hl & Hr). exists l.
    destruct (call w) as [[x | e] w1]; simpl in *; split; assumption.
  - destruct (Hc w) as (l1 & Hl1 & Hr1).
    destruct (call w) as [[x | e] w1]; simpl in *.
    + exists l1. split; assumption.
    + destruct (accepts a asynchronous true l1) as [p | ] eqn:E;
        [ | contradiction Hr1; reflexivity].
      apply accepts_probed in E as Hp. subst p.
      destruct (IH w1) as (l2 & Hl2 & Hr2).
      exists (l1 ++ l2). split.
      * rewrite Hl2, Hl1, app_assoc. reflexivity.
      * rewrite accepts_app, E. exact Hr2.
Qed.

Lemma tracks_apply_decorator :
  forall (A B : Type) (Q : B -> Prop) (d : decorator) (f : A -> M B) (x : A),
    tracks a asynchronous true true Q (f x) ->
    tracks a asynchronous true true Q (apply_decorator d f x).
Proof. intros A B Q [n] f x H. simpl. apply tracks_retry. exact H. Qed.

Lemma tracks_for_each :
  forall (A B : Type) (s : bool) (Q : B -> Prop) (f : A -> M B) (l : list A),
    (forall x, tracks a asynchronous s s Q (f x)) ->
    tracks a asynchronous s s (Forall Q) (for_each f l).
Proof.
  intros A B s Q f l Hf. induction l as [ | x l IH]; simpl.
  - apply tracks_ret. constructor.
  - eapply tracks_bind; [apply Hf | intros y Hy].
    eapply tracks_bind; [exact IH | intros ys Hys].
    apply tracks_ret. constructor; assumption.
Qed.

Lemma tracks_run_tasks :
  forall (A : Type) (s : bool) (tasks : list (M A)) (order : list nat),
    Forall (tracks a asynchronous s s (fun _ => True)) tasks ->
    tracks a asynchronous s s (fun _ => True) (run_tasks tasks order).
Proof.
  intros A s tasks order Ht. induction order as [ | i order IH]; simpl.
  - apply tracks_ret. exact I.
  - destruct (nth_error tasks i) as [t | ] eqn:E; [ | exact IH].
    eapply tracks_bind.
    + rewrite Forall_forall in Ht. apply Ht. eapply nth_error_In. exact E.
    + intros x _. eapply tracks_bind; [exact IH | intros f _].
      apply tracks_ret. exact I.
Qed.

Lemma tracks_gather :
  forall (A : Type) (s : bool) (tasks : list (M A)),
    Forall (tracks a asynchronous s s (fun _ => True)) tasks ->
    tracks a asynchronous s s (fun _ => True) (gather tasks).
Proof.
  intros A s tasks Ht w. unfold gather.
  apply (tracks_bind _ _ s s s (fun _ => True) (fun _ => True)
           (run_tasks tasks _) _).
  - apply tracks_run_tasks. exact Ht.
  - intros f _. apply tracks_ret. exact I.
Qed.

End Traces.

(** The parts of a call that send nothing. *)
Lemma preserves_sent_service_attrs :
  forall b, preserves sent (Service.attrs b).
Proof. intros b w. reflexivity. Qed.

Lemma preserves_sent_service_update :
  forall b f, preserves sent (Service.update b f).
Proof. intros b f w. reflexivity. Qed.

Lemma preserves_sent_redefine_client : preserves sent GeminiService._redefine_client.
Proof.
  intros w. unfold GeminiService._redefine_client.
  destruct (_semaphore_value (Gemini w) <? 0)%Z; reflexivity.
Qed.

Lemma preserves_sent_set_attributes :
  forall model system_message temperature top_p top_k candidate_count stream
         stop_sequences max_output_tokens semaphore logging_directory,
    preserves sent
      (GeminiService._set_attributes model system_message temperature top_p top_k
         candidate_count stream stop_sequences max_output_tokens semaphore
         logging_directory).
Proof. intros. intros w. reflexivity. Qed.

Lemma preserves_sent_set_system_message :
  forall v, preserves sent (GeminiService.set_system_message v).
Proof. intros v w. reflexivity. Qed.

Lemma preserves_sent_util :
  preserves sent (fun w : world => (Ok (util w), w)).
Proof. intros w. reflexivity. Qed.

Lemma preserves_call_with_keywords :
  forall (X A : Type) (obs : world -> X) (signature keywords : list string) (body : M A),
    preserves obs body -> preserves obs (call_with_keywords signature keywords body).
Proof.
  intros X A obs signature keywords body H. unfold call_with_keywords.
  destruct (find _ keywords); [apply preserves_raise | exact H].
Qed.

Create HintDb quiet.

#[local] Hint Resolve preserves_ret preserves_raise preserves_lift preserves_assert
  preserves_check preserves_attrs_settings preserves_client_settings
  preserves_sent_service_attrs preserves_sent_service_update
  preserves_sent_redefine_client preserves_sent_set_attributes
  preserves_sent_set_system_message preserves_sent_util : quiet.

(** Walks through the binds of a computation that sends nothing. *)
Ltac quiet :=
  repeat first
    [ solve [auto 2 with quiet nocore]
    | simple apply preserves_call_with_keywords
    | simple apply preserves_bind; [ | intros ? ] ].

Lemma tracks_test_func :
  forall (a : api) (asynchronous : bool),
    tracks a asynchronous false true (fun _ => True) (EasyTL.test_func a).
Proof.
  intros a asynchronous.
  assert (H : forall b, tracks b asynchronous false true (fun _ => True)
                          (Service._test_credentials b)).
  { intros b. unfold Service._test_credentials.
    eapply tracks_bind; [apply tracks_probe | intros r _].
    destruct r; apply tracks_ret; exact I. }
  destruct a; try apply H.
  unfold EasyTL.test_func, GeminiService._test_api_key_validity,
    GeminiService._redefine_client_decorator.
  intros w.
  destruct (GeminiService._redefine_client w) as [[u | e] w0] eqn:E.
  - destruct (redefine_client_attrs _ _ _ E) as (_ & Hcl & Hs).
    assert (Htry : try_ (c <- GeminiService.client ;; send (CredentialProbe gemini)) w0
                   = (Ok (backend w0 (sent w0) (CredentialProbe gemini)),
                      with_sent (sent w0 ++ [CredentialProbe gemini]) w0)).
    { unfold try_, GeminiService.client, GeminiService.attrs, send, bind, ret.
      rewrite Hcl. reflexivity. }
    exists [CredentialProbe gemini].
    rewrite (bind_eq _ _ _ _ _ _ _ E).
    rewrite (bind_eq _ _ _ _ _ _ _ Htry).
    destruct (backend w0 (sent w0) (CredentialProbe gemini)); simpl; rewrite Hs; auto.
  - exists []. rewrite app_nil_r.
    rewrite (bind_Raise _ _ _ _ _ _ _ E). simpl. split; [ | discriminate].
    pose proof (preserves_sent_redefine_client w) as H0. rewrite E in H0. exact H0.
Qed.

Lemma tracks_test_credentials :
  forall (a : api) (asynchronous : bool),
    tracks a asynchronous false true (fun _ => True) (EasyTL.test_credentials a).
Proof.
  intros a asynchronous. unfold EasyTL.test_credentials.
  eapply tracks_bind; [apply tracks_test_func | intros [valid e] _].
  destruct valid; simpl.
  - apply tracks_ret. exact I.
  - destruct (EasyTL.isinstance_exn e _); [apply tracks_ret; exact I | apply tracks_raise].
Qed.

(** The choice of [translate] sends nothing, and what it returns sends the
    requests of the primitive. *)
Lemma tracks_select_translate :
  forall (a b : api) (asynchronous s : bool) (dec : option decorator)
         (primitive : string -> M pyval),
    (forall u, tracks a asynchronous true true (fun _ => True) (primitive u)) ->
    tracks a asynchronous s s
      (fun translate => forall u, tracks a asynchronous true true (fun _ => True)
                                    (translate u))
      (EasyTL.select_translate b dec primitive).
Proof.
  intros a b asynchronous s dec primitive H. unfold EasyTL.select_translate.
  destruct dec as [d | ].
  - eapply tracks_bind; [apply tracks_quiet; quiet | intros sv _].
    unfold call_decorator. destruct (decorator_to_use sv) as [d' | ].
    + apply tracks_ret. intros u. apply tracks_apply_decorator. apply H.
    + apply tracks_raise.
  - apply tracks_ret. exact H.
Qed.

Lemma tracks_service_primitive :
  forall (a : api) (u : string),
    tracks a false true true (fun _ => True) (Service._translate_text a u).
Proof. intros a u. apply tracks_send_unit. Qed.

Lemma tracks_service_primitive_async :
  forall (a : api) (u : string),
    tracks a true true true (fun _ => True) (Service._translate_text_async a u).
Proof. intros a u. apply tracks_send_unit. Qed.

Lemma tracks_service_llm :
  forall (a : api) (instructions : option string) (u : string),
    tracks a false true true (fun _ => True)
      (Service._translate_text_llm a instructions u).
Proof.
  intros a instructions u. unfold Service._translate_text_llm.
  eapply tracks_bind; [apply tracks_quiet; quiet | intros sv _].
  destruct (decorator_to_use sv) as [d | ].
  - apply tracks_apply_decorator. apply tracks_send_unit.
  - apply tracks_send_unit.
Qed.

Lemma tracks_service_llm_async :
  forall (a : api) (instructions : option string) (u : string),
    tracks a true true true (fun _ => True)
      (Service._translate_text_llm_async a instructions u).
Proof.
  intros a instructions u. unfold Service._translate_text_llm_async.
  eapply tracks_bind; [apply tracks_quiet; quiet | intros sv _].
  destruct (decorator_to_use sv) as [d | ].
  - apply tracks_apply_decorator. apply tracks_send_unit.
  - apply tracks_send_unit.
Qed.

Lemma tracks_gemini_primitive :
  forall (u : string),
    tracks gemini false true true (fun _ => True) (GeminiService.__translate_text u).
Proof.
  intros u. unfold GeminiService.__translate_text.
  eapply tracks_bind; [apply tracks_quiet; quiet | intros g _].
  eapply tracks_bind; [apply tracks_quiet; quiet | intros c _].
  apply tracks_send_unit.
Qed.

Lemma tracks_gemini_primitive_async :
  forall (u : string),
    tracks gemini true true true (fun _ => True)
      (GeminiService.__translate_text_async u).
Proof.
  intros u. unfold GeminiService.__translate_text_async.
  eapply tracks_bind; [apply tracks_quiet; quiet | intros g _].
  eapply tracks_bind; [apply tracks_quiet; quiet | intros c _].
  apply tracks_send_unit.
Qed.

Lemma tracks_gemini_translate_text :
  forall (u : string),
    tracks gemini false true true (fun _ => True) (GeminiService._translate_text u).
Proof.
  intros u. unfold GeminiService._translate_text,
    GeminiService._redefine_client_decorator, GeminiService._logging_decorator.
  eapply tracks_bind; [apply tracks_quiet; quiet | intros x _].
  eapply tracks_bind; [apply tracks_quiet; quiet | intros g _].
  destruct (_decorator_to_use g) as [d | ].
  - apply tracks_apply_decorator. apply tracks_gemini_primitive.
  - apply tracks_gemini_primitive.
Qed.

(** Calling the asynchronous unit function sends nothing; the coroutine it
    hands back sends the requests of the unit. *)
Lemma tracks_gemini_translate_text_async :
  forall (u : string),
    tracks gemini true true true
      (fun task => tracks gemini true true true (fun _ => True) task)
      (GeminiService._translate_text_async u).
Proof.
  intros u. unfold GeminiService._translate_text_async,
    GeminiService._redefine_client_decorator, GeminiService._logging_decorator.
  eapply tracks_bind; [apply tracks_quiet; quiet | intros x _].
  apply tracks_ret.
  eapply tracks_bind; [apply tracks_quiet; quiet | intros g _].
  destruct (_decorator_to_use g) as [d | ].
  - apply tracks_apply_decorator. apply tracks_gemini_primitive_async.
  - apply tracks_gemini_primitive_async.
Qed.

Lemma preserves_sent_service_set_attributes :
  forall b options, preserves sent (Service._set_attributes b options).
Proof. intros b options w. reflexivity. Qed.

Lemma preserves_sent_service_set_system :
  forall b v, preserves sent (Service.set_system b v).
Proof. intros b v w. reflexivity. Qed.

Lemma preserves_sent_assert_text_llm :
  forall text, preserves sent (EasyTL.assert_text_llm text).
Proof. intros text. unfold EasyTL.assert_text_llm. apply preserves_assert. Qed.

#[local] Hint Resolve preserves_sent_service_set_attributes
  preserves_sent_service_set_system preserves_sent_assert_text_llm : quiet.

Lemma tracks_gather_map :
  forall (a : api) (asynchronous : bool) (U A : Type) (f : U -> M A) (l : list U),
    (forall u, tracks a asynchronous true true (fun _ => True) (f u)) ->
    tracks a asynchronous true true (fun _ => True) (gather (map f l)).
Proof.
  intros a asynchronous U A f l H. apply tracks_gather.
  apply Forall_forall. intros t Ht. apply in_map_iff in Ht.
  destruct Ht as (u & <- & _). apply H.
Qed.

Create HintDb track.

#[local] Hint Resolve tracks_test_credentials tracks_service_primitive
  tracks_service_primitive_async tracks_service_llm tracks_service_llm_async
  tracks_gemini_primitive tracks_gemini_primitive_async tracks_gemini_translate_text
  tracks_gemini_translate_text_async tracks_select_translate : track.

(** Walks through a computation; the leaves are closed by the lemmas of the
    [track] database, or send nothing. *)
Ltac track :=
  repeat first
    [ solve [eauto 3 with track nocore]
    | simple apply tracks_quiet; solve [quiet]
    | simple apply tracks_ret; exact I
    | simple apply tracks_raise
    | simple apply tracks_gather_map; intros ?
    | simple apply tracks_gather; solve [eauto 2 with nocore]
    | simple eapply tracks_for_each; intros ?
    | match goal with
      | |- tracks _ _ _ _ _ (bind (if ?b then _ else _) _) => destruct b
      | |- tracks _ _ _ _ _ (if ?b then _ else _) => destruct b
      | |- tracks _ _ _ _ _ (match ?t with TStr _ => _ | _ => _ end) => destruct t
      | |- tracks _ _ _ _ _ (let (_, _) := ?p in _) => destruct p
      end
    | simple eapply tracks_bind; [ | intros ? ? ] ].

Lemma tracks_gemini_checks :
  forall (asynchronous : bool) text locals response_type response_schema model
         stop_sequences,
    tracks gemini asynchronous false true (fun _ => True)
      (EasyTL.gemini_checks text locals response_type response_schema model
         stop_sequences).
Proof. intros. unfold EasyTL.gemini_checks. track. Qed.

Lemma tracks_openai_checks :
  forall (asynchronous : bool) text locals response_type model stop,
    tracks openai asynchronous false true (fun _ => True)
      (EasyTL.openai_checks text locals response_type model stop).
Proof. intros. unfold EasyTL.openai_checks. track. Qed.

Lemma tracks_anthropic_checks :
  forall (asynchronous : bool) text locals response_type response_schema model
         stop_sequences,
    tracks anthropic asynchronous false true (fun _ => True)
      (EasyTL.anthropic_checks text locals response_type response_schema model
         stop_sequences).
Proof. intros. unfold EasyTL.anthropic_checks. track. Qed.

Lemma preserves_sent_openai_settings :
  forall override options instructions,
    preserves sent (EasyTL.openai_settings override options instructions).
Proof. intros [ | ] options instructions; unfold EasyTL.openai_settings; quiet. Qed.

Lemma preserves_sent_anthropic_settings :
  forall override options instructions,
    preserves sent (EasyTL.anthropic_settings override options instructions).
Proof. intros [ | ] options instructions; unfold EasyTL.anthropic_settings; quiet. Qed.

#[local] Hint Resolve preserves_sent_openai_settings preserves_sent_anthropic_settings
  : quiet.

Lemma tracks_anthropic_turn :
  forall response_type translation _text,
    tracks anthropic false true true (fun _ => True)
      (EasyTL.anthropic_turn response_type translation _text).
Proof. intros. unfold EasyTL.anthropic_turn. track. Qed.

Lemma tracks_anthropic_loop :
  forall response_type _translation_batches translation _translations,
    tracks anthropic false true true (fun _ => True)
      (EasyTL.anthropic_loop response_type _translation_batches translation
         _translations).
Proof.
  intros response_type batches. induction batches as [ | t rest IH];
    intros translation acc; simpl.
  - apply tracks_ret. exact I.
  - eapply tracks_bind; [apply tracks_anthropic_turn | intros [x | ] _].
    + apply IH.
    + apply tracks_raise.
Qed.

#[local] Hint Resolve tracks_gemini_checks tracks_openai_checks tracks_anthropic_checks
  tracks_anthropic_loop : track.

Lemma tracks_run :
  forall (o : operation),
    tracks (backend_of o) (is_async o) false true (fun _ => True) (run o).
Proof.
  intros o. destruct o; simpl backend_of; simpl is_async; unfold run.
  - unfold EasyTL.googletl_translate. track.
  - unfold EasyTL.googletl_translate_async. track.
  - unfold EasyTL.deepl_translate. track.
  - unfold EasyTL.deepl_translate_async. track.
  - unfold EasyTL.gemini_translate. cbv zeta. track.
  - unfold EasyTL.gemini_translate_async. cbv zeta. track.
  - unfold EasyTL.openai_translate. cbv zeta. track.
  - unfold EasyTL.openai_translate_async. cbv zeta. track.
  - unfold EasyTL.anthropic_translate. cbv zeta. track.
  - unfold EasyTL.anthropic_translate_async. cbv zeta. track.
  - unfold EasyTL.azure_translate. track.
  - unfold EasyTL.azure_translate_async. track.
Qed.

Lemma api_eqb_eq : forall a b, api_eqb a b = true -> a = b.
Proof. intros [] []; simpl; intros H; try discriminate H; reflexivity. Qed.

Lemma accepts_units :
  forall (a : api) (asynchronous : bool) (l : list request),
    accepts a asynchronous true l <> None -> Forall (unit_of a asynchronous) l.
Proof.
  intros a asynchronous. induction l as [ | r l IH]; intros H; constructor.
  - destruct r as [b | b s i c]; simpl in H; [contradiction H; reflexivity | ].
    destruct (api_eqb a b) eqn:Ea; [ | contradiction H; reflexivity].
    destruct (Bool.eqb s asynchronous) eqn:Es; [ | contradiction H; reflexivity].
    apply api_eqb_eq in Ea. apply Bool.eqb_prop in Es. subst. exists i, c. reflexivity.
  - apply IH. destruct r as [b | b s i c]; simpl in H; [contradiction H; reflexivity | ].
    destruct (api_eqb a b && Bool.eqb s asynchronous); [exact H | contradiction H; reflexivity].
Qed.

Lemma accepts_probe_first :
  forall (a : api) (asynchronous : bool) (l : list request),
    accepts a asynchronous false l <> None ->
    l = [] \/
    exists units, l = CredentialProbe a :: units /\ Forall (unit_of a asynchronous) units.
Proof.
  intros a asynchronous [ | r l] H; [left; reflexivity | right].
  destruct r as [b | b s i c]; simpl in H; [ | contradiction H; reflexivity].
  destruct (api_eqb a b) eqn:Ea; [ | contradiction H; reflexivity].
  apply api_eqb_eq in Ea. subst b. exists l. split; [reflexivity | ].
  apply accepts_units. exact H.
Qed.

(** X1.  Whatever the backend answers and however the call ends, the
    requests a translate operation adds to the log are: nothing at all, or
    the credential probe of its own backend followed by unit requests that
    all go to that same backend and are all of the kind of the operation
    (synchronous or asynchronous).  No unit is sent before the probe, no
    second probe is sent, no other backend is contacted; and a call that
    returns has sent the probe. *)
Theorem requests_are_probe_then_own_units :
  forall (o : operation) (w : world),
    exists l,
      sent (snd (run o w)) = sent w ++ l
      /\ (l = [] \/
          exists units,
            l = CredentialProbe (backend_of o) :: units
            /\ Forall (unit_of (backend_of o) (is_async o)) units)
      /\ (forall r, fst (run o w) = Ok r -> l <> []).
Proof.
  intros o w. destruct (tracks_run o w) as (l & Hl & Hr).
  exists l. split; [exact Hl | ]. split.
  - apply accepts_probe_first. destruct (fst (run o w)).
    + destruct Hr as [Hr _]. rewrite Hr. discriminate.
    + exact Hr.
  - intros r E. rewrite E in Hr. destruct Hr as [Hr _].
    intros ->. discriminate Hr.
Qed.

(** ** One result per unit *)

Lemma for_each_length :
  forall (A B : Type) (f : A -> M B) (l : list A) w ys w1,
    for_each f l w = (Ok ys, w1) -> List.length ys = List.length l.
Proof.
  intros A B f. induction l as [ | x l IH]; intros w ys w1 H; simpl in H.
  - unfold ret in H. inversion H. reflexivity.
  - bind_inv H. bind_inv H. unfold ret in H. inversion H; subst.
    simpl. f_equal. eapply IH. exact H1.
Qed.

Lemma map_res_length :
  forall (A B : Type) (f : A -> res B) (l : list A) ys,
    map_res f l = Ok ys -> List.length ys = List.length l.
Proof.
  intros A B f. induction l as [ | x l IH]; intros ys H; simpl in H.
  - inversion H. reflexivity.
  - destruct (f x) as [y | e]; simpl in H; [ | discriminate H].
    destruct (map_res f l) as [ys' | e]; simpl in H; [ | discriminate H].
    inversion H; subst. simpl. f_equal. apply IH. reflexivity.
Qed.

(** A wait that returns has a result for every task it ran. *)
Lemma run_tasks_result :
  forall (A : Type) (tasks : list (M A)) (order : list nat) w finished w1 (i : nat),
    run_tasks tasks order w = (Ok finished, w1) ->
    In i order -> i < List.length tasks ->
    exists x, result_of i finished = [x].
Proof.
  intros A tasks. induction order as [ | j order IH]; intros w finished w1 i H Hi Hlt.
  - contradiction Hi.
  - simpl in H. destruct (nth_error tasks j) as [t | ] eqn:E.
    + bind_inv H. bind_inv H. unfold ret in H. inversion H; subst. simpl.
      destruct (Nat.eqb i j) eqn:Eij.
      * eexists. reflexivity.
      * apply Nat.eqb_neq in Eij. destruct Hi as [Hi | Hi]; [congruence | ].
        eapply IH; eassumption.
    + destruct Hi as [Hi | Hi].
      * subst j. apply nth_error_None in E. lia.
      * eapply IH; eassumption.
Qed.

Lemma flat_map_singletons :
  forall (A B : Type) (f : A -> list B) (l : list A),
    (forall x, In x l -> exists y, f x = [y]) ->
    List.length (flat_map f l) = List.length l.
Proof.
  intros A B f. induction l as [ | x l IH]; intros H; simpl.
  - reflexivity.
  - destruct (H x (or_introl eq_refl)) as [y Hy]. rewrite Hy. simpl. f_equal.
    apply IH. intros z Hz. apply H. right. exact Hz.
Qed.

(** [asyncio.gather] hands back one result per task when it returns,
    whatever the order of completion. *)
Lemma gather_length :
  forall (A : Type) (tasks : list (M A)) w results w1,
    gather tasks w = (Ok results, w1) -> List.length results = List.length tasks.
Proof.
  intros A tasks w results w1 H. unfold gather in H.
  bind_inv H. unfold ret in H. inversion H; subst.
  rewrite flat_map_singletons; [apply length_seq | ].
  intros i Hi. apply in_seq in Hi.
  eapply run_tasks_result; [exact H0 | | lia].
  apply completion_order_bound. lia.
Qed.

Lemma anthropic_loop_length :
  forall response_type (batches : list string) translation acc w r w1,
    EasyTL.anthropic_loop response_type batches translation acc w = (Ok r, w1) ->
    List.length r = (List.length acc + List.length batches)%nat.
Proof.
  intros response_type. induction batches as [ | t rest IH];
    intros translation acc w r w1 H; simpl in H.
  - unfold ret in H. inversion H. simpl. lia.
  - bind_inv H. destruct a as [x | ]; [ | discriminate H].
    apply IH in H. rewrite H. rewrite length_app. simpl. lia.
Qed.

(** Takes a returning computation apart, bind by bind. *)
Ltac binds H := repeat (bind_inv H; cbv beta in H).

Ltac returned_list H :=
  unfold ret in H; inversion H; subst; eexists; split; [reflexivity | ].

Ltac lengths :=
  repeat match goal with
    | H : for_each _ _ _ = (Ok _, _) |- _ => apply for_each_length in H
    | H : gather _ _ = (Ok _, _) |- _ => apply gather_length in H
    | H : EasyTL.anthropic_loop _ _ _ _ _ = (Ok _, _) |- _ =>
        apply anthropic_loop_length in H
    | H : lift (map_res _ _) _ = (Ok _, _) |- _ =>
        apply lift_Ok in H; destruct H as [H _]; apply map_res_length in H
    | H : context [List.length (map _ _)] |- _ => rewrite length_map in H
    end.



(** ** Calls that get as far as the dispatch *)

Lemma run_tasks_nil :
  forall (A : Type) (order : list nat) (w : world),
    run_tasks (@nil (M A)) order w = (Ok [], w).
Proof.
  intros A. induction order as [ | i order IH]; intros w; simpl.
  - reflexivity.
  - destruct i; simpl; apply IH.
Qed.

Lemma gather_nil :
  forall (A : Type) (w : world), gather (@nil (M A)) w = (Ok [], w).
Proof.
  intros A w. unfold gather. erewrite bind_eq; [ | apply run_tasks_nil]. reflexivity.
Qed.

(** The settings write and the choice of [translate], for the three
    backends whose entry points choose [translate]: both go through and send
    nothing. *)
Lemma select_prefix :
  forall (B : Type) (a : api) (override : bool) (options : list (string * pyarg))
         (dec : option decorator) (primitive : string -> M pyval)
         (k : (string -> M pyval) -> M B) (w : world),
    assoc "decorator" options = Some (arg_decorator dec) ->
    (dec <> None -> override = false -> decorator_to_use (Services w a) <> None) ->
    exists translate w1,
      ((if override then Service._set_attributes a options else ret tt) ;;
       translate <- EasyTL.select_translate a dec primitive ;;
       k translate) w
      = k translate w1
      /\ sent w1 = sent w.
Proof.
  intros B a override options dec primitive k w Hopt Hdec.
  assert (Hsel : forall w',
             (dec <> None -> decorator_to_use (Services w' a) <> None) ->
             exists translate,
               (translate <- EasyTL.select_translate a dec primitive ;; k translate) w'
               = k translate w').
  { intros w' Hd. unfold EasyTL.select_translate.
    destruct dec as [d' | ].
    - destruct (decorator_to_use (Services w' a)) as [d | ] eqn:E;
        [ | exfalso; apply Hd; [discriminate | reflexivity]].
      eexists.
      erewrite bind_eq;
        [ | unfold Service.attrs, call_decorator, bind; simpl; rewrite E; reflexivity].
      reflexivity.
    - eexists. erewrite bind_eq; [ | reflexivity]. reflexivity. }
  destruct override.
  - edestruct Hsel as [translate Ht]; cycle 1.
    + exists translate. eexists. split.
      * erewrite bind_eq; [ | reflexivity]. exact Ht.
      * reflexivity.
    + intros Hne. simpl. rewrite api_eqb_refl. simpl. rewrite Hopt.
      destruct dec; [simpl; discriminate | exfalso; apply Hne; reflexivity].
  - destruct (Hsel w) as [translate Ht].
    + intros Hne. apply Hdec; [exact Hne | reflexivity].
    + exists translate, w. split.
      * erewrite bind_eq; [ | reflexivity]. exact Ht.
      * reflexivity.
Qed.

(** The prefix of an entry point that chooses [translate], from the
    credential test to the choice. *)
Ltac enter_selecting a Hprobe Hdec w :=
  let p := fresh "p" in
  let Hp := fresh "Hp" in
  let translate := fresh "translate" in
  let w1 := fresh "w1" in
  let Hk := fresh "Hk" in
  let Hs := fresh "Hs" in
  destruct (test_credentials_returns a w) as [p Hp];
    [discriminate | apply Hprobe | ];
  rewrite (bind_eq _ _ _ _ _ _ _ Hp);
  edestruct (select_prefix pyval a) as (translate & w1 & Hk & Hs);
    cycle 2;
    [ rewrite Hk; simpl in Hs
    | reflexivity
    | let Hne := fresh in let Hov := fresh in
      intros Hne Hov; apply (Hdec eq_refl Hne Hov) ].

Ltac enter_selecting_op Hrt Hfmt Hprobe Hdec w :=
  unfold run, EasyTL.googletl_translate, EasyTL.googletl_translate_async,
    EasyTL.deepl_translate, EasyTL.deepl_translate_async, EasyTL.azure_translate,
    EasyTL.azure_translate_async;
  (erewrite bind_eq; [ | apply assert_true; exact Hrt]);
  try (erewrite bind_eq; [ | apply assert_true; exact (Hfmt _ eq_refl)]);
  match goal with
  | |- context [EasyTL.test_credentials ?a] => enter_selecting a Hprobe Hdec w
  end.

(** The prefix of a Gemini entry point that does not override the settings. *)
Ltac enter_gemini Hrt Hval Hprobe Hsem :=
  let y := fresh "y" in
  let w1 := fresh "w1" in
  let Hc := fresh "Hc" in
  let Hbk := fresh "Hbk" in
  let Hset := fresh "Hset" in
  let Hs := fresh "Hs" in
  unfold run, EasyTL.gemini_translate, EasyTL.gemini_translate_async; cbv zeta;
  edestruct gemini_checks_pass as (y & w1 & Hc & Hbk & Hset);
    [exact Hrt | exact Hval | exact Hprobe | exact Hsem | ];
  rewrite (bind_eq _ _ _ _ _ _ _ Hc);
  pose proof (gemini_checks_sent _ _ _ _ _ _ _ _ _ Hc) as Hs;
  (erewrite bind_eq; [ | reflexivity]).

Lemma openai_prefix :
  forall (B : Type) text locals response_type model stop override options instructions
         (k : option string -> M B) (w : world),
    in_strings response_type ["text"; "raw"; "json"; "raw_json"] = true ->
    validators_accept (util w) ->
    probe_returns w openai ->
    exists i w1,
      (EasyTL.openai_checks text locals response_type model stop ;;
       translation_instructions <- EasyTL.openai_settings override options instructions ;;
       k translation_instructions) w
      = k i w1
      /\ sent w1 = sent w ++ [CredentialProbe openai].
Proof.
  intros B text locals response_type model stop override options instructions k w
    Hrt Hval Hprobe.
  destruct (openai_settings_returns override options instructions
              (with_sent (sent w ++ [CredentialProbe openai]) w)) as (i & w1 & Hs & _).
  exists i, w1. split.
  - erewrite bind_eq; [ | apply openai_checks_pass; assumption].
    erewrite bind_eq; [ | exact Hs]. reflexivity.
  - pose proof (preserves_sent_openai_settings override options instructions
                  (with_sent (sent w ++ [CredentialProbe openai]) w)) as H.
    rewrite Hs in H. exact H.
Qed.

Lemma anthropic_prefix :
  forall (B : Type) text locals response_type response_schema model stop_sequences
         override (options : pyarg -> list (string * pyarg)) instructions
         (k : M B) (w : world),
    in_strings response_type ["text"; "raw"; "json"; "raw_json"] = true ->
    validators_accept (util w) ->
    probe_returns w anthropic ->
    exists w1,
      (response_schema <- EasyTL.anthropic_checks text locals response_type
                            response_schema model stop_sequences ;;
       EasyTL.anthropic_settings override (options response_schema) instructions ;;
       k) w
      = k w1
      /\ sent w1 = sent w ++ [CredentialProbe anthropic].
Proof.
  intros B text locals response_type response_schema model stop_sequences override
    options instructions k w Hrt Hval Hprobe.
  destruct (anthropic_checks_pass text locals response_type response_schema model
              stop_sequences w Hrt Hval Hprobe) as [y Hc].
  destruct (anthropic_settings_returns override (options y) instructions
              (with_sent (sent w ++ [CredentialProbe anthropic]) w)) as (w1 & Hs & _).
  exists w1. split.
  - erewrite bind_eq; [ | exact Hc].
    erewrite bind_eq; [ | exact Hs]. reflexivity.
  - pose proof (preserves_sent_anthropic_settings override (options y) instructions
                  (with_sent (sent w ++ [CredentialProbe anthropic]) w)) as H.
    rewrite Hs in H. exact H.
Qed.

(** The prefix of an entry point of a chat backend. *)
Ltac enter_chat Hrt Hval Hprobe :=
  let i := fresh "i" in
  let w1 := fresh "w1" in
  let Hk := fresh "Hk" in
  let Hs := fresh "Hs" in
  unfold run, EasyTL.openai_translate, EasyTL.openai_translate_async,
    EasyTL.anthropic_translate, EasyTL.anthropic_translate_async; cbv zeta;
  first
    [ edestruct (openai_prefix pyval) as (i & w1 & Hk & Hs); cycle 3;
      [ rewrite Hk | exact Hrt | exact Hval | exact Hprobe ]
    | edestruct (anthropic_prefix pyval) as (w1 & Hk & Hs); cycle 3;
      [ rewrite Hk | exact Hrt | exact Hval | exact Hprobe ] ].

(** X3.  A [text] that is neither a string nor an iterable of strings (nor,
    for the chat backends, a message) is refused only once the call has got
    as far as the dispatch: the credential probe has been sent by then, and
    it is the only request sent.  What the entry points of Google Translate,
    DeepL, Azure and Gemini raise is [InvalidTextInputException] itself;
    those of OpenAI and Anthropic assert, so what they raise is the
    [AssertionError] that carries it. *)
Theorem invalid_text_is_refused_after_the_probe :
  forall (o : operation) (w : world),
    dispatches o w ->
    text_accepted (backend_of o) (text_of o) = false ->
    exists w1,
      run o w
      = (Raise (if takes_messages (backend_of o)
                then AssertionError (Some invalid_text_llm)
                else invalid_text), w1)
      /\ sent w1 = sent w ++ [CredentialProbe (backend_of o)].
Proof.
  intros o w (Hrt & Hfmt & Hval & Hprobe & Hgem & Hdec) Ht.
  destruct o; simpl in Ht; simpl backend_of in *;
    (destruct text; try discriminate Ht); cbv beta iota delta [takes_messages].
  all: try solve [ enter_selecting_op Hrt Hfmt Hprobe Hdec w;
                   eexists; (split; [reflexivity | exact Hs]) ].
  all: try solve [ destruct (Hgem eq_refl) as [Hov Hsem]; simpl in Hov;
                   subst override_previous_settings;
                   enter_gemini Hrt Hval Hprobe Hsem;
                   eexists; (split; [reflexivity | exact Hs]) ].
  all: enter_chat Hrt Hval Hprobe;
    eexists; (split; [reflexivity | exact Hs]).
Qed.

Lemma invalid_text_is_refused_after_the_probe_witness :
  exists w1,
    run (anthropic_translate TOther true None None (Some "text") ArgNone None None
           "claude-3-haiku-20240307" ArgNotGiven ArgNotGiven ArgNotGiven ArgNotGiven
           ArgNotGiven)
        (Mock.world_on Mock.echo Mock.in_input_order)
    = (Raise (AssertionError (Some invalid_text_llm)), w1)
    /\ sent w1 = [CredentialProbe anthropic].
Proof.
  apply (invalid_text_is_refused_after_the_probe
           (anthropic_translate TOther true None None (Some "text") ArgNone None None
              "claude-3-haiku-20240307" ArgNotGiven ArgNotGiven ArgNotGiven ArgNotGiven
              ArgNotGiven)
           (Mock.world_on Mock.echo Mock.in_input_order)).
  - repeat split; try (intros; reflexivity); try (intros; discriminate).
    intros x. exists x. reflexivity.
  - reflexivity.
Defined.

(** X4.  A batch with no unit.  When the call gets as far as the dispatch,
    every entry point but one returns the empty list, and the credential
    probe is the only request it has sent.  The exception is
    [anthropic_translate_async] for the response types that are not raw: it
    looks at the first result of the wait before anything else, and raises
    [IndexError]. *)
Theorem empty_batch :
  forall (o : operation) (w : world),
    dispatches o w ->
    text_of o = TIter [] ->
    exists w1,
      run o w
      = (if indexes_first_result o
         then Raise (IndexError "list index out of range")
         else Ok (PyList []), w1)
      /\ sent w1 = sent w ++ [CredentialProbe (backend_of o)].
Proof.
  intros o w (Hrt & Hfmt & Hval & Hprobe & Hgem & Hdec) Ht.
  destruct o; simpl in Ht; subst text; simpl backend_of in *;
    cbv beta iota delta [indexes_first_result].
  all: try solve [ enter_selecting_op Hrt Hfmt Hprobe Hdec w;
                   simpl map; try (erewrite bind_eq; [ | apply gather_nil]);
                   simpl; destruct (is_ response_type _);
                   eexists; (split; [reflexivity | exact Hs]) ].
  all: try solve [ destruct (Hgem eq_refl) as [Hov Hsem]; simpl in Hov;
                   subst override_previous_settings;
                   enter_gemini Hrt Hval Hprobe Hsem;
                   simpl for_each;
                   try (erewrite bind_eq; [ | reflexivity];
                        erewrite bind_eq; [ | apply gather_nil]);
                   simpl; destruct (in_strings response_type ["text"; "json"]);
                   eexists; (split; [reflexivity | exact Hs]) ].
  all: enter_chat Hrt Hval Hprobe;
    (erewrite bind_eq; [ | reflexivity]);
    unfold EasyTL.openai_batches; simpl Service._build_translation_batches;
    simpl map; try (erewrite bind_eq; [ | reflexivity]);
    try (erewrite bind_eq; [ | apply gather_nil]);
    simpl; destruct (in_strings response_type ["raw"; "raw_json"]); simpl;
    eexists; (split; [reflexivity | exact Hs]).
Qed.

Lemma empty_batch_witness :
  exists w1,
    run (anthropic_translate_async (TIter []) true None None (Some "text") ArgNone
           (Some 5%Z) None None "claude-3-haiku-20240307" ArgNotGiven ArgNotGiven
           ArgNotGiven ArgNotGiven ArgNotGiven)
        (Mock.world_on Mock.echo Mock.in_input_order)
    = (Raise (IndexError "list index out of range"), w1)
    /\ sent w1 = [CredentialProbe anthropic].
Proof.
  apply (empty_batch
           (anthropic_translate_async (TIter []) true None None (Some "text") ArgNone
              (Some 5%Z) None None "claude-3-haiku-20240307" ArgNotGiven ArgNotGiven
              ArgNotGiven ArgNotGiven ArgNotGiven)
           (Mock.world_on Mock.echo Mock.in_input_order)).
  - repeat split; try (intros; reflexivity); try (intros; discriminate).
    intros x. exists x. reflexivity.
  - reflexivity.
Defined.

(** ** The credential test *)



(** ** The unit calls of Gemini *)

Lemma redefine_client_backend :
  forall w r w1, GeminiService._redefine_client w = (r, w1) -> backend w1 = backend w.
Proof.
  intros w r w1 H. unfold GeminiService._redefine_client in H.
  destruct (_semaphore_value (Gemini w) <? 0)%Z; inversion H; reflexivity.
Qed.

Lemma redefine_client_returns :
  forall w,
    (0 <= _semaphore_value (Gemini w))%Z ->
    exists w0, GeminiService._redefine_client w = (Ok tt, w0).
Proof.
  intros w H. unfold GeminiService._redefine_client.
  destruct (_semaphore_value (Gemini w) <? 0)%Z eqn:F.
  - apply Z.ltb_lt in F. lia.
  - eexists. reflexivity.
Qed.

(** The primitives, once the client has been rebuilt. *)
Lemma gemini_primitive_call :
  forall (u : string) (w0 : world),
    _client (Gemini w0)
    = Some (if String.eqb (_model (Gemini w0)) "gemini--1.5-pro-latest"
            then {| model_name := _model (Gemini w0);
                    system_instruction := _system_message (Gemini w0) |}
            else {| model_name := _model (Gemini w0); system_instruction := None |}) ->
    GeminiService.__translate_text u w0
    = (backend w0 (sent w0) (gemini_request (Gemini w0) false u),
       with_sent (sent w0 ++ [gemini_request (Gemini w0) false u]) w0)
    /\ GeminiService.__translate_text_async u w0
       = (backend w0 (sent w0) (gemini_request (Gemini w0) true u),
          with_sent (sent w0 ++ [gemini_request (Gemini w0) true u]) w0).
Proof.
  intros u w0 Hcl.
  unfold GeminiService.__translate_text, GeminiService.__translate_text_async,
    GeminiService.client, GeminiService.attrs, send, bind, ret, gemini_request.
  rewrite Hcl.
  destruct (String.eqb (_model (Gemini w0)) "gemini--1.5-pro-latest");
    split; reflexivity.
Qed.

Lemma gemini_unit_call :
  forall (u : string) (w : world),
    (0 <= _semaphore_value (Gemini w))%Z ->
    _decorator_to_use (Gemini w) = None ->
    exists w1,
      GeminiService._translate_text u w
      = (backend w (sent w) (gemini_request (Gemini w) false u), w1)
      /\ sent w1 = sent w ++ [gemini_request (Gemini w) false u]
      /\ settings_of (Gemini w1) = settings_of (Gemini w)
      /\ backend w1 = backend w.
Proof.
  intros u w Hsem Hdec.
  destruct (redefine_client_returns w Hsem) as [w0 E].
  destruct (redefine_client_attrs _ _ _ E) as (Hset & Hcl & Hs).
  pose proof (redefine_client_backend _ _ _ E) as Hb.
  destruct (gemini_primitive_call u w0 Hcl) as [Hcall _].
  assert (Hd : _decorator_to_use (Gemini w0) = None).
  { change (s_decorator_to_use (settings_of (Gemini w0)) = None).
    rewrite Hset. exact Hdec. }
  rewrite (gemini_request_settings _ _ _ _ Hset) in Hcall.
  rewrite Hb, Hs in Hcall.
  exists (with_sent (sent w ++ [gemini_request (Gemini w) false u]) w0).
  split; [ | split; [reflexivity | split; [exact Hset | exact Hb]]].
  unfold GeminiService._translate_text, GeminiService._redefine_client_decorator,
    GeminiService._logging_decorator.
  rewrite (bind_eq _ _ _ _ _ _ _ E).
  unfold GeminiService.attrs at 1. unfold bind at 1. cbv beta iota.
  rewrite Hd. exact Hcall.
Qed.

(** X6.  One synchronous unit call of Gemini with no decorator stored, when
    the configured limit is not negative: exactly one request is sent, and
    the response of the backend to it is the outcome of the call, a refusal
    included.  The request carries the system message once: as the system
    instruction of the client, with the bare unit as contents, for the model
    [gemini--1.5-pro-latest]; in front of the unit, separated from it by a
    newline, with no system instruction, for every other model.  The
    settings are as they were. *)
Theorem gemini_unit_call_sends_one_request :
  forall (u : string) (w : world),
    (0 <= _semaphore_value (Gemini w))%Z ->
    _decorator_to_use (Gemini w) = None ->
    exists rq w1,
      rq = (if String.eqb (_model (Gemini w)) "gemini--1.5-pro-latest"
            then UnitRequest gemini false (_system_message (Gemini w)) u
            else UnitRequest gemini false None
                   (fmt (_system_message (Gemini w)) ++ newline ++ u)%string)
      /\ GeminiService._translate_text u w = (backend w (sent w) rq, w1)
      /\ sent w1 = sent w ++ [rq]
      /\ settings_of (Gemini w1) = settings_of (Gemini w).
Proof.
  intros u w Hsem Hdec.
  destruct (gemini_unit_call u w Hsem Hdec) as (w1 & Hcall & Hs & Hset & _).
  exists (gemini_request (Gemini w) false u), w1.
  split; [ | split; [exact Hcall | split; [exact Hs | exact Hset]]].
  unfold gemini_request, GeminiService.text_request.
  destruct (String.eqb (_model (Gemini w)) "gemini--1.5-pro-latest"); reflexivity.
Qed.

Lemma gemini_unit_call_sends_one_request_witness :
  exists rq w1,
    rq = UnitRequest gemini false None
           ("Please translate the following text into English." ++ newline ++ "hello")%string
    /\ GeminiService._translate_text "hello" (Mock.world_on Mock.echo Mock.in_input_order)
       = (Mock.echo [] rq, w1)
    /\ sent w1 = [rq]
    /\ settings_of (Gemini w1) = settings_of GeminiService.class_attributes.
Proof.
  apply (gemini_unit_call_sends_one_request "hello"
           (Mock.world_on Mock.echo Mock.in_input_order)).
  - simpl. lia.
  - reflexivity.
Defined.

(** The units of a synchronous batch, one call after the other. *)
Lemma gemini_units_in_order :
  forall (units : list string) (w : world),
    (0 <= _semaphore_value (Gemini w))%Z ->
    _decorator_to_use (Gemini w) = None ->
    exists k r w1,
      for_each GeminiService._translate_text units w = (r, w1)
      /\ k <= List.length units
      /\ sent w1 = sent w ++ map (gemini_request (Gemini w) false) (firstn k units)
      /\ (forall rs, r = Ok rs -> k = List.length units).
Proof.
  induction units as [ | u units IH]; intros w Hsem Hdec.
  - exists 0, (Ok []), w. simpl. rewrite app_nil_r.
    repeat split; auto.
  - destruct (gemini_unit_call u w Hsem Hdec) as (w1 & Hcall & Hs & Hset & Hb).
    destruct (backend w (sent w) (gemini_request (Gemini w) false u)) as [y | e].
    + assert (Hsem1 : (0 <= _semaphore_value (Gemini w1))%Z).
      { change (0 <= s_semaphore_value (settings_of (Gemini w1)))%Z.
        rewrite Hset. exact Hsem. }
      assert (Hdec1 : _decorator_to_use (Gemini w1) = None).
      { change (s_decorator_to_use (settings_of (Gemini w1)) = None).
        rewrite Hset. exact Hdec. }
      destruct (IH w1 Hsem1 Hdec1) as (k & r & w2 & Hrest & Hk & Hsent & Hall).
      exists (S k).
      destruct r as [rs | e].
      * exists (Ok (y :: rs)), w2. simpl for_each.
        rewrite (bind_eq _ _ _ _ _ _ _ Hcall).
        rewrite (bind_eq _ _ _ _ _ _ _ Hrest).
        split; [reflexivity | ]. split; [simpl; lia | ]. split.
        -- rewrite Hsent, Hs. simpl. rewrite <- app_assoc. simpl.
           do 2 f_equal. apply map_ext. intros x.
           apply gemini_request_settings. exact Hset.
        -- intros rs' _. simpl. f_equal. apply (Hall rs). reflexivity.
      * exists (Raise e), w2. simpl for_each.
        rewrite (bind_eq _ _ _ _ _ _ _ Hcall).
        rewrite (bind_Raise _ _ _ _ _ _ _ Hrest).
        split; [reflexivity | ]. split; [simpl; lia | ]. split.
        -- rewrite Hsent, Hs. simpl. rewrite <- app_assoc. simpl.
           do 2 f_equal. apply map_ext. intros x.
           apply gemini_request_settings. exact Hset.
        -- intros rs' H. discriminate H.
    + exists 1, (Raise e), w1. simpl for_each.
      rewrite (bind_Raise _ _ _ _ _ _ _ Hcall).
      split; [reflexivity | ]. split; [simpl; lia | ]. split.
      * rewrite Hs. reflexivity.
      * intros rs' H. discriminate H.
Qed.



(** ** The settings of Gemini and the rebuild of its client *)

(** X8.  A settings write that gives no limit, followed by the rebuild of
    the client.  The rebuild goes through; the semaphore it builds has
    capacity 15, or 2 for the model [gemini--1.5-pro-latest]; the client
    carries the system message as its system instruction for that model
    only; the generation configuration holds the values written.  The
    decorator is not a parameter of the write: the one stored before, by
    [_set_decorator], is the one [_get_decorator] hands back after. *)
Theorem settings_write_then_rebuild :
  forall (d : option decorator) model system_message temperature top_p top_k
         candidate_count stream stop_sequences max_output_tokens logging_directory
         (w : world),
    exists w1,
      (GeminiService._set_decorator d ;;
       GeminiService._set_attributes model system_message temperature top_p top_k
         candidate_count stream stop_sequences max_output_tokens None
         logging_directory ;;
       GeminiService._redefine_client ;;
       GeminiService._get_decorator) w = (Ok d, w1)
      /\ capacity (_semaphore (Gemini w1))
         = (if String.eqb model "gemini--1.5-pro-latest" then 2 else 15)%Z
      /\ _client (Gemini w1)
         = Some {| model_name := model;
                   system_instruction :=
                     if String.eqb model "gemini--1.5-pro-latest"
                     then system_message else None |}
      /\ _generation_config (Gemini w1)
         = Some {| gc_candidate_count := candidate_count;
                   gc_stop_sequences := stop_sequences;
                   gc_max_output_tokens := max_output_tokens;
                   gc_temperature := temperature;
                   gc_top_p := top_p;
                   gc_top_k := top_k |}
      /\ sent w1 = sent w.
Proof.
  intros.
  unfold GeminiService._set_decorator, GeminiService._set_attributes,
    GeminiService._redefine_client, GeminiService._get_decorator,
    GeminiService.attrs, bind, ret.
  cbn [Gemini with_Gemini _semaphore_value _model _system_message _decorator_to_use].
  destruct (String.eqb model "gemini--1.5-pro-latest"); simpl;
    eexists; repeat split; reflexivity.
Qed.

(** X9.  [_set_attributes] takes a negative limit as it is, and from then
    on nothing of Gemini works: the rebuild of the client that precedes
    every unit call, the credential test and the cost estimate fails with
    [ValueError], before any request is sent.  [test_credentials] does not
    report it as a refusal: it raises too, and so does every Gemini translate
    operation whose response type is recognized and whose arguments the
    validation helpers accept. *)
Theorem negative_limit_stops_every_gemini_call :
  forall (limit : Z) model system_message temperature top_p top_k candidate_count
         stream stop_sequences max_output_tokens logging_directory (w0 : world),
    (limit < 0)%Z ->
    let w := snd (GeminiService._set_attributes model system_message temperature
                    top_p top_k candidate_count stream stop_sequences
                    max_output_tokens (Some limit) logging_directory w0) in
    let failed {A : Type} (m : M A) :=
      fst (m w) = Raise (ValueError "Semaphore initial value must be >= 0")
      /\ sent (snd (m w)) = sent w0 in
    (forall u, failed (GeminiService._translate_text u))
    /\ (forall u, failed (GeminiService._translate_text_async u))
    /\ failed (EasyTL.test_credentials gemini)
    /\ (forall text instructions m, failed (GeminiService._calculate_cost text instructions m))
    /\ (forall o,
          backend_of o = gemini ->
          in_strings (response_type_of o) (recognized gemini) = true ->
          validators_accept (util w0) ->
          failed (run o)).
Proof.
  intros limit model system_message temperature top_p top_k candidate_count stream
    stop_sequences max_output_tokens logging_directory w0 Hneg w failed.
  assert (E : GeminiService._redefine_client w
              = (Raise (ValueError "Semaphore initial value must be >= 0"),
                 snd (GeminiService._redefine_client w))
              /\ sent (snd (GeminiService._redefine_client w)) = sent w0).
  { unfold GeminiService._redefine_client, w. simpl.
    apply Z.ltb_lt in Hneg. rewrite Hneg. split; reflexivity. }
  destruct E as [E Es].
  assert (Hwrapped : forall (A : Type) (m : M A),
            failed _ (GeminiService._redefine_client_decorator m)).
  { intros A m. unfold failed, GeminiService._redefine_client_decorator.
    rewrite (bind_Raise _ _ _ _ _ _ _ E). split; [reflexivity | exact Es]. }
  assert (Htest : failed _ (EasyTL.test_credentials gemini)).
  { unfold failed, EasyTL.test_credentials.
    erewrite bind_Raise; [ | apply bind_Raise; exact E].
    split; [reflexivity | exact Es]. }
  split; [intros u; apply Hwrapped | ].
  split; [intros u; apply Hwrapped | ].
  split; [exact Htest | ].
  split; [intros text instructions m; apply Hwrapped | ].
  intros o Hb Hrt (Hv1 & Hv2 & Hv3 & Hv4).
  destruct Htest as [Ht1 Ht2].
  assert (Hchecks : forall text locals response_type response_schema model'
                           stop_sequences',
            in_strings response_type ["text"; "raw"; "json"; "raw_json"] = true ->
            EasyTL.gemini_checks text locals response_type response_schema model'
              stop_sequences' w
            = (Raise (ValueError "Semaphore initial value must be >= 0"),
               snd (EasyTL.test_credentials gemini w))).
  { intros text locals response_type response_schema model' stop_sequences' Hr.
    destruct (Hv4 response_schema) as [y Hy].
    unfold EasyTL.gemini_checks.
    erewrite bind_eq; [ | apply assert_true; exact Hr].
    erewrite bind_eq; [ | reflexivity].
    change (util w) with (util w0).
    rewrite Hv1, Hv2, Hv3, Hy.
    erewrite bind_eq; [ | apply check_None].
    erewrite bind_eq; [ | apply check_None].
    erewrite bind_eq; [ | apply check_None].
    erewrite bind_eq; [ | reflexivity].
    erewrite bind_Raise; [reflexivity | ].
    destruct (EasyTL.test_credentials gemini w) as [r w1]. simpl in Ht1. subst r.
    reflexivity. }
  destruct o; try discriminate Hb; simpl in Hrt; unfold failed, run.
  - unfold EasyTL.gemini_translate.
    erewrite bind_Raise; [ | apply Hchecks; exact Hrt].
    split; [reflexivity | exact Ht2].
  - unfold EasyTL.gemini_translate_async.
    erewrite bind_Raise; [ | apply Hchecks; exact Hrt].
    split; [reflexivity | exact Ht2].
Qed.

Lemma negative_limit_stops_every_gemini_call_witness :
  fst (EasyTL.test_credentials gemini
         (snd (GeminiService._set_attributes "gemini-pro" None 0.5%Q 0.9%Q 40 1 false
                 None None (Some (-1)%Z) None
                 (Mock.world_on Mock.echo Mock.in_input_order))))
  = Raise (ValueError "Semaphore initial value must be >= 0").
Proof.
  apply (negative_limit_stops_every_gemini_call (-1)%Z "gemini-pro" None 0.5%Q 0.9%Q
           40%Z 1%Z false None None None
           (Mock.world_on Mock.echo Mock.in_input_order)).
  lia.
Defined.



(** ** Bounded concurrency: progress *)

Module BoundedConcurrencyProgress.

Import BoundedConcurrency.

Lemma reachable_trans :
  forall (st0 st1 st2 : state),
    reachable st0 st1 -> reachable st1 st2 -> reachable st0 st2.
Proof.
  intros st0 st1 st2 H01 H12. induction H12 as [ | st st' _ IH Hstep].
  - exact H01.
  - eapply reachable_step; [exact IH | exact Hstep].
Qed.

Lemma find_phase :
  forall (p : phase) (l : list phase),
    existsb (phase_eqb p) l = true -> exists i, nth_error l i = Some p.
Proof.
  intros p. induction l as [ | q l IH]; simpl; intros H; [discriminate H | ].
  destruct (phase_eqb p q) eqn:E.
  - exists 0. simpl. destruct p, q; try discriminate E; reflexivity.
  - destruct (IH H) as [i Hi]. exists (S i). exact Hi.
Qed.

Lemma moves_release :
  forall (l : list phase) (i : nat),
    nth_error l i = Some InFlight ->
    S (remaining_moves (set_phase i Finished l)) = remaining_moves l.
Proof.
  induction l as [ | q l IH]; intros [ | i] H; simpl in H; try discriminate H.
  - inversion H; subst. reflexivity.
  - simpl. destruct q; simpl; rewrite <- (IH i H); reflexivity.
Qed.

Lemma moves_acquire :
  forall (l : list phase) (i : nat),
    nth_error l i = Some Waiting ->
    S (remaining_moves (set_phase i InFlight l)) = remaining_moves l.
Proof.
  induction l as [ | q l IH]; intros [ | i] H; simpl in H; try discriminate H.
  - inversion H; subst. reflexivity.
  - simpl. destruct q; simpl; rewrite <- (IH i H); reflexivity.
Qed.

Lemma no_moves_finished :
  forall (l : list phase),
    remaining_moves l = 0 -> forallb (phase_eqb Finished) l = true.
Proof.
  induction l as [ | q l IH]; simpl; intros H; [reflexivity | ].
  destruct q; try discriminate H. simpl. apply IH. exact H.
Qed.

Lemma some_task_waits :
  forall (l : list phase),
    existsb (phase_eqb InFlight) l = false -> 0 < remaining_moves l ->
    existsb (phase_eqb Waiting) l = true.
Proof.
  induction l as [ | q l IH]; simpl; intros Hn Hm; [lia | ].
  destruct q; simpl in *; try reflexivity; try discriminate Hn.
  apply IH; assumption.
Qed.

Lemma none_in_flight :
  forall (l : list phase),
    existsb (phase_eqb InFlight) l = false ->
    List.length (filter (phase_eqb InFlight) l) = 0.
Proof.
  induction l as [ | q l IH]; simpl; intros H; [reflexivity | ].
  destruct q; simpl in *; try discriminate H; apply IH; exact H.
Qed.

Lemma finished_none_in_flight :
  forall (l : list phase),
    forallb (phase_eqb Finished) l = true ->
    List.length (filter (phase_eqb InFlight) l) = 0.
Proof.
  induction l as [ | q l IH]; simpl; intros H; [reflexivity | ].
  destruct q; simpl in *; try discriminate H. apply IH. exact H.
Qed.

(** While a task has a move left, the event loop has a move it can make. *)
Lemma some_step :
  forall (sem : Semaphore) (n : nat) (st : state),
    (0 < capacity sem)%Z ->
    reachable (start sem n) st ->
    0 < remaining_moves (tasks st) ->
    exists st',
      step st st' /\ S (remaining_moves (tasks st')) = remaining_moves (tasks st).
Proof.
  intros sem n st Hcap Hr Hm.
  destruct (existsb (phase_eqb InFlight) (tasks st)) eqn:E.
  - destruct (find_phase _ _ E) as [i Hi].
    exists {| value := value st + 1; tasks := set_phase i Finished (tasks st) |}.
    split.
    + apply (step_release i). unfold release. rewrite Hi. reflexivity.
    + simpl. apply moves_release. exact Hi.
  - destruct (find_phase _ _ (some_task_waits _ E Hm)) as [i Hi].
    destruct (BoundedConcurrencyFacts.permits_accounted sem n st) as [Hv _];
      [lia | exact Hr | ].
    unfold in_flight in Hv. rewrite (none_in_flight _ E) in Hv.
    exists {| value := value st - 1; tasks := set_phase i InFlight (tasks st) |}.
    split.
    + apply (step_acquire i). unfold acquire. rewrite Hi.
      assert (Hpos : (0 <? value st)%Z = true) by (apply Z.ltb_lt; lia).
      rewrite Hpos. reflexivity.
    + simpl. apply moves_acquire. exact Hi.
Qed.

Lemma runs_to_completion :
  forall (sem : Semaphore) (n m : nat) (st : state),
    (0 < capacity sem)%Z ->
    reachable (start sem n) st ->
    remaining_moves (tasks st) = m ->
    exists st',
      reachable st st' /\ reachable (start sem n) st' /\ all_finished st' = true.
Proof.
  intros sem n m. induction m as [ | m IH]; intros st Hcap Hr Hm.
  - exists st. split; [apply reachable_start | ]. split; [exact Hr | ].
    apply no_moves_finished. exact Hm.
  - destruct (some_step sem n st Hcap Hr) as (st1 & Hstep & Hdec); [lia | ].
    destruct (IH st1 Hcap) as (st' & H1 & H2 & H3).
    + eapply reachable_step; [exact Hr | exact Hstep].
    + lia.
    + exists st'. split; [ | split; assumption].
      eapply reachable_trans; [ | exact H1].
      eapply reachable_step; [apply reachable_start | exact Hstep].
Qed.

(** X11.  No deadlock.  With a limit of at least one, from every state the
    tasks of a batch can reach under the semaphore, whatever the order of
    the moves so far, the batch can still run to completion: there is a
    continuation in which every task has left the block, and then the
    counter of the semaphore is back at the limit. *)
Theorem no_deadlock :
  forall (sem : Semaphore) (n : nat) (st : state),
    (0 < capacity sem)%Z ->
    reachable (start sem n) st ->
    exists st',
      reachable st st'
      /\ all_finished st' = true
      /\ value st' = capacity sem.
Proof.
  intros sem n st Hcap Hr.
  destruct (runs_to_completion sem n (remaining_moves (tasks st)) st Hcap Hr eq_refl)
    as (st' & H1 & H2 & H3).
  exists st'. split; [exact H1 | ]. split; [exact H3 | ].
  destruct (BoundedConcurrencyFacts.permits_accounted sem n st') as [Hv _];
    [lia | exact H2 | ].
  unfold in_flight in Hv. unfold all_finished in H3.
  rewrite (finished_none_in_flight _ H3) in Hv. simpl in Hv. lia.
Qed.

Lemma no_deadlock_witness :
  exists st',
    reachable (start {| capacity := 2 |} 3) st'
    /\ all_finished st' = true
    /\ value st' = 2%Z.
Proof.
  apply (no_deadlock {| capacity := 2 |} 3 (start {| capacity := 2 |} 3)).
  - simpl. lia.
  - apply reachable_start.
Defined.

Lemma start_is_stuck :
  forall (n : nat) (st : state),
    step (start {| capacity := 0 |} n) st -> False.
Proof.
  intros n st H. inversion H as [i s s' Ha | i s s' Hrel]; subst.
  - unfold acquire, start in Ha. simpl in Ha.
    destruct (nth_error (repeat Waiting n) i) as [[ | | ] | ]; discriminate Ha.
  - unfold release, start in Hrel. simpl in Hrel.
    destruct (nth_error (repeat Waiting n) i) as [p | ] eqn:E; [ | discriminate Hrel].
    apply nth_error_In in E. apply repeat_spec in E. subst p. discriminate Hrel.
Qed.

End BoundedConcurrencyProgress.

(** X12.  A limit of zero is taken as it is: the settings write and the
    rebuild go through, and the semaphore has no permit.  Then no task of a
    batch, of any size, can ever enter the block that sends its request: the
    only state the batch can reach is the one it starts in, with every task
    waiting. *)
Theorem zero_limit_blocks_every_task :
  forall model system_message temperature top_p top_k candidate_count stream
         stop_sequences max_output_tokens logging_directory (w : world),
    exists w1,
      (GeminiService._set_attributes model system_message temperature top_p top_k
         candidate_count stream stop_sequences max_output_tokens (Some 0%Z)
         logging_directory ;;
       GeminiService._redefine_client) w = (Ok tt, w1)
      /\ forall (n : nat) (st : BoundedConcurrency.state),
           BoundedConcurrency.reachable
             (BoundedConcurrency.start (_semaphore (Gemini w1)) n) st ->
           st = BoundedConcurrency.start (_semaphore (Gemini w1)) n
           /\ BoundedConcurrency.in_flight st = 0
           /\ (0 < n -> BoundedConcurrency.all_finished st = false).
Proof.
  intros. eexists. split.
  - unfold GeminiService._set_attributes, GeminiService._redefine_client, bind.
    simpl. reflexivity.
  - simpl. intros n st Hr.
    assert (Hst : st = BoundedConcurrency.start {| capacity := 0 |} n).
    { induction Hr as [ | st st' _ IH Hstep]; [reflexivity | ].
      subst st. exfalso.
      exact (BoundedConcurrencyProgress.start_is_stuck n st' Hstep). }
    subst st. split; [reflexivity | ]. split.
    + apply BoundedConcurrencyFacts.in_flight_start.
    + intros Hn. destruct n; [lia | reflexivity].
Qed.

(** ** The asynchronous batch of Gemini *)

Lemma test_credentials_gemini_client :
  forall w p w1,
    EasyTL.test_credentials gemini w = (Ok p, w1) -> client_rebuilt (Gemini w1).
Proof.
  intros w p w1 H.
  unfold EasyTL.test_credentials, EasyTL.test_func,
    GeminiService._test_api_key_validity, GeminiService._redefine_client_decorator in H.
  bind_inv H. bind_inv H0.
  destruct (redefine_client_attrs _ _ _ H1) as (_ & Hcl & _).
  bind_inv H0. unfold try_ in H2.
  unfold GeminiService.client, GeminiService.attrs, send, bind, ret, raise in H2.
  rewrite Hcl in H2. simpl in H2. inversion H2; subst; clear H2.
  assert (Hw : client_rebuilt (Gemini w0)).
  { destruct (backend w2 (sent w2) (CredentialProbe gemini));
      unfold ret in H0; inversion H0; subst; exact Hcl. }
  destruct a as [valid e].
  destruct valid; simpl in H.
  - unfold ret in H. inversion H; subst. exact Hw.
  - destruct (EasyTL.isinstance_exn e _);
      unfold ret, raise in H; inversion H; subst. exact Hw.
Qed.

Lemma gemini_checks_client :
  forall text locals response_type response_schema model stop_sequences w schema w1,
    EasyTL.gemini_checks text locals response_type response_schema model
      stop_sequences w = (Ok schema, w1) ->
    client_rebuilt (Gemini w1).
Proof.
  intros until w1. intros H. unfold EasyTL.gemini_checks in H.
  bind_inv H. apply assert_Ok in H0 as [_ ->].
  bind_inv H. inversion H0; subst; clear H0.
  bind_inv H. apply check_Ok in H0 as [_ ->].
  bind_inv H. apply check_Ok in H0 as [_ ->].
  bind_inv H. apply check_Ok in H0 as [_ ->].
  bind_inv H. apply lift_Ok in H0 as [_ ->].
  bind_inv H. apply test_credentials_gemini_client in H0.
  unfold ret in H. inversion H; subst. exact H0.
Qed.

(** Calling the asynchronous unit function for every unit of a batch hands
    back the coroutines of the units, in their order. *)
Lemma gemini_coroutines :
  forall (units : list string) (w : world),
    (0 <= _semaphore_value (Gemini w))%Z ->
    client_rebuilt (Gemini w) ->
    exists w1,
      for_each GeminiService._translate_text_async units w
      = (Ok (map translate_text_coroutine units), w1)
      /\ backend w1 = backend w
      /\ settings_of (Gemini w1) = settings_of (Gemini w)
      /\ client_rebuilt (Gemini w1).
Proof.
  induction units as [ | u units IH]; intros w Hsem Hcl.
  - exists w. repeat split; auto.
  - destruct (redefine_client_returns w Hsem) as [w0 E].
    destruct (redefine_client_attrs _ _ _ E) as (Hset & Hcl0 & _).
    pose proof (redefine_client_backend _ _ _ E) as Hb.
    assert (Hsem0 : (0 <= _semaphore_value (Gemini w0))%Z).
    { change (0 <= s_semaphore_value (settings_of (Gemini w0)))%Z.
      rewrite Hset. exact Hsem. }
    destruct (IH w0 Hsem0 Hcl0) as (w1 & Hrest & Hb1 & Hset1 & Hcl1).
    exists w1. split; [ | split; [congruence | split; [congruence | exact Hcl1]]].
    simpl for_each.
    erewrite bind_eq;
      [ | unfold GeminiService._translate_text_async,
            GeminiService._redefine_client_decorator;
          rewrite (bind_eq _ _ _ _ _ _ _ E); reflexivity ].
    rewrite (bind_eq _ _ _ _ _ _ _ Hrest). reflexivity.
Qed.



(** ** The settings of Gemini under the translate operations *)

Lemma settings_service_update :
  forall b f, preserves (fun w => settings_of (Gemini w)) (Service.update b f).
Proof. intros b f w. reflexivity. Qed.

Lemma settings_service_set_attributes :
  forall b options, preserves (fun w => settings_of (Gemini w)) (Service._set_attributes b options).
Proof. intros b options w. reflexivity. Qed.

Lemma settings_service_set_system :
  forall b v, preserves (fun w => settings_of (Gemini w)) (Service.set_system b v).
Proof. intros b v w. reflexivity. Qed.

Lemma settings_util : preserves (fun w => settings_of (Gemini w)) (fun w : world => (Ok (util w), w)).
Proof. intros w. reflexivity. Qed.

Lemma settings_test_credentials :
  forall a, preserves (fun w => settings_of (Gemini w)) (EasyTL.test_credentials a).
Proof.
  intros a. destruct a; try apply preserves_test_credentials_gemini;
    unfold EasyTL.test_credentials, EasyTL.test_func, Service._test_credentials;
    (apply preserves_bind;
     [ apply preserves_bind;
       [ apply preserves_try; apply preserves_send_settings
       | intros [r | e]; apply preserves_ret ]
     | intros [valid e]; destruct valid; simpl;
       [ apply preserves_ret
       | destruct (EasyTL.isinstance_exn e _);
         [apply preserves_ret | apply preserves_raise] ] ]).
Qed.

Lemma settings_service_llm :
  forall a instructions u,
    preserves (fun w => settings_of (Gemini w)) (Service._translate_text_llm a instructions u).
Proof.
  intros a instructions u. unfold Service._translate_text_llm.
  apply preserves_bind; [intros w; reflexivity | intros sv].
  destruct (decorator_to_use sv);
    [apply preserves_apply_decorator | ]; apply preserves_send_settings.
Qed.

Lemma settings_service_llm_async :
  forall a instructions u,
    preserves (fun w => settings_of (Gemini w)) (Service._translate_text_llm_async a instructions u).
Proof.
  intros a instructions u. unfold Service._translate_text_llm_async.
  apply preserves_bind; [intros w; reflexivity | intros sv].
  destruct (decorator_to_use sv);
    [apply preserves_apply_decorator | ]; apply preserves_send_settings.
Qed.

(** The choice of [translate], with what follows it. *)
Lemma settings_select_translate :
  forall (B : Type) (a : api) (dec : option decorator) (primitive : string -> M pyval)
         (k : (string -> M pyval) -> M B),
    (forall u, preserves (fun w => settings_of (Gemini w)) (primitive u)) ->
    (forall translate,
        (forall u, preserves (fun w => settings_of (Gemini w)) (translate u)) -> preserves (fun w => settings_of (Gemini w)) (k translate)) ->
    preserves (fun w => settings_of (Gemini w)) (bind (EasyTL.select_translate a dec primitive) k).
Proof.
  intros B a dec primitive k Hp Hk. unfold EasyTL.select_translate.
  destruct dec as [d | ].
  - intros w. unfold bind, Service.attrs, call_decorator.
    destruct (decorator_to_use (Services w a)) as [d' | ]; simpl.
    + apply Hk. intros u. apply preserves_apply_decorator. apply Hp.
    + reflexivity.
  - intros w. unfold bind, ret. apply Hk. exact Hp.
Qed.

Lemma settings_gather_map :
  forall (U A : Type) (f : U -> M A) (l : list U),
    (forall u, preserves (fun w => settings_of (Gemini w)) (f u)) -> preserves (fun w => settings_of (Gemini w)) (gather (map f l)).
Proof.
  intros U A f l H. apply preserves_gather.
  apply Forall_forall. intros t Ht. apply in_map_iff in Ht.
  destruct Ht as (u & <- & _). apply H.
Qed.

Lemma settings_anthropic_loop :
  forall response_type batches translation acc,
    preserves (fun w => settings_of (Gemini w)) (EasyTL.anthropic_loop response_type batches translation acc).
Proof.
  intros response_type. induction batches as [ | t rest IH];
    intros translation acc; simpl.
  - apply preserves_ret.
  - apply preserves_bind.
    + unfold EasyTL.anthropic_turn.
      apply preserves_bind; [intros w; reflexivity | intros sv].
      apply preserves_bind; [apply settings_service_llm | intros r].
      apply preserves_bind; [apply preserves_assert | intros _].
      destruct (in_strings response_type _); [apply preserves_ret | ].
      destruct (isinstance r "AnthropicToolsBetaMessage").
      * apply preserves_bind; [apply preserves_lift | intros block].
        destruct (isinstance block "AnthropicTextBlock");
          [apply preserves_bind; [apply preserves_lift | intros; apply preserves_ret] | ].
        destruct (isinstance block "AnthropicToolUseBlock");
          [apply preserves_bind; [apply preserves_lift | intros; apply preserves_ret] | ].
        apply preserves_ret.
      * destruct (isinstance r "AnthropicMessage"); [ | apply preserves_ret].
        apply preserves_bind; [apply preserves_lift | intros block].
        apply preserves_bind; [apply preserves_lift | intros; apply preserves_ret].
    + intros [x | ]; [apply IH | apply preserves_raise].
Qed.

#[local] Hint Resolve settings_service_update settings_service_set_attributes
  settings_service_set_system settings_util settings_test_credentials
  settings_service_llm settings_service_llm_async settings_anthropic_loop
  preserves_sent_service_attrs : frame.

Lemma settings_service_attrs :
  forall b, preserves (fun w => settings_of (Gemini w)) (Service.attrs b).
Proof. intros b w. reflexivity. Qed.

Lemma settings_service_primitive :
  forall a u, preserves (fun w => settings_of (Gemini w)) (Service._translate_text a u).
Proof. intros a u. apply preserves_send_settings. Qed.

Lemma settings_service_primitive_async :
  forall a u,
    preserves (fun w => settings_of (Gemini w)) (Service._translate_text_async a u).
Proof. intros a u. apply preserves_send_settings. Qed.

Lemma settings_assert_text_llm :
  forall text, preserves (fun w => settings_of (Gemini w)) (EasyTL.assert_text_llm text).
Proof. intros text. apply preserves_assert. Qed.

#[local] Hint Resolve settings_service_attrs settings_service_primitive
  settings_service_primitive_async settings_assert_text_llm : frame.

(** Walks through an entry point; the leaves are closed by the lemmas of
    the [frame] database. *)
Ltac settle :=
  repeat first
    [ solve [auto 2 with frame nocore]
    | simple apply settings_select_translate; [ intros ? | intros ? ? ]
    | simple apply settings_gather_map; intros ?
    | simple apply preserves_try
    | simple apply preserves_retry
    | simple apply preserves_apply_decorator
    | simple apply preserves_for_each; intros ?
    | match goal with
      | |- preserves _ (if ?b then _ else _) => destruct b
      | |- preserves _ (match ?t with TStr _ => _ | _ => _ end) => destruct t
      | |- preserves _ (let (_, _) := ?p in _) => destruct p
      end
    | simple apply preserves_bind; [ | intros ? ] ].

Lemma settings_openai_checks :
  forall text locals response_type model stop,
    preserves (fun w => settings_of (Gemini w))
      (EasyTL.openai_checks text locals response_type model stop).
Proof. intros. unfold EasyTL.openai_checks. settle. Qed.

Lemma settings_anthropic_checks :
  forall text locals response_type response_schema model stop_sequences,
    preserves (fun w => settings_of (Gemini w))
      (EasyTL.anthropic_checks text locals response_type response_schema model
         stop_sequences).
Proof. intros. unfold EasyTL.anthropic_checks. settle. Qed.

Lemma settings_openai_settings :
  forall override options instructions,
    preserves (fun w => settings_of (Gemini w))
      (EasyTL.openai_settings override options instructions).
Proof. intros. unfold EasyTL.openai_settings. settle. Qed.

Lemma settings_anthropic_settings :
  forall override options instructions,
    preserves (fun w => settings_of (Gemini w))
      (EasyTL.anthropic_settings override options instructions).
Proof. intros. unfold EasyTL.anthropic_settings. settle. Qed.

#[local] Hint Resolve settings_openai_checks settings_anthropic_checks
  settings_openai_settings settings_anthropic_settings : frame.

(** An overriding Gemini call stops at the settings write. *)
Lemma settings_gemini_override :
  forall (B : Type) model system_message temperature top_p top_k candidate_count
         stream stop_sequences max_output_tokens semaphore logging_directory
         (v : option string) (k : M B),
    preserves (fun w => settings_of (Gemini w))
      ((call_with_keywords GeminiService._set_attributes_signature
          EasyTL.gemini_set_attributes_keywords
          (GeminiService._set_attributes model system_message temperature top_p top_k
             candidate_count stream stop_sequences max_output_tokens semaphore
             logging_directory) ;;
        GeminiService.set_system_message v) ;;
       k).
Proof. intros. intros w. reflexivity. Qed.

Lemma settings_run :
  forall (o : operation), preserves (fun w => settings_of (Gemini w)) (run o).
Proof.
  intros o.
  destruct (api_eqb (backend_of o) gemini) eqn:Hb.
  - apply api_eqb_eq in Hb. destruct (override_of o) eqn:Ho.
    + destruct o; try discriminate Hb; simpl in Ho; subst; unfold run.
      * unfold EasyTL.gemini_translate. cbv zeta.
        apply preserves_bind; [apply preserves_gemini_checks | intros y].
        apply settings_gemini_override.
      * unfold EasyTL.gemini_translate_async. cbv zeta.
        apply preserves_bind; [apply preserves_gemini_checks | intros y].
        apply settings_gemini_override.
    + intros w. apply gemini_without_override_keeps_settings; assumption.
  - destruct o; try discriminate Hb; unfold run.
    + unfold EasyTL.googletl_translate. settle.
    + unfold EasyTL.googletl_translate_async. settle.
    + unfold EasyTL.deepl_translate. settle.
    + unfold EasyTL.deepl_translate_async. settle.
    + unfold EasyTL.openai_translate. cbv zeta. settle.
    + unfold EasyTL.openai_translate_async. cbv zeta. settle.
    + unfold EasyTL.anthropic_translate. cbv zeta. settle.
    + unfold EasyTL.anthropic_translate_async. cbv zeta. settle.
    + unfold EasyTL.azure_translate. settle.
    + unfold EasyTL.azure_translate_async. settle.
Qed.


(** X15.  Rebuilding the client is idempotent: a second rebuild right after
    the first changes nothing, whether the rebuild goes through or fails on
    a negative limit.  So the rebuild that precedes every wrapped call of
    [GeminiService] leaves the client, the generation configuration and the
    semaphore as one rebuild after the last settings write would. *)
Theorem redefine_client_idempotent :
  forall (w : world),
    (GeminiService._redefine_client ;; GeminiService._redefine_client) w
    = GeminiService._redefine_client w
    /\ settings_of (Gemini (snd (GeminiService._redefine_client w)))
       = settings_of (Gemini w).
Proof.
  intros w. split.
  - unfold GeminiService._redefine_client, bind.
    destruct (_semaphore_value (Gemini w) <? 0)%Z eqn:E; simpl.
    + reflexivity.
    + rewrite E. reflexivity.
  - apply preserves_redefine_client_settings.
Qed.


(** ** The dispatchers by service name *)

(** X17.  The four dispatchers by name are exact and total.  For one of the
    six service names, [set_credentials] is the setter of the service of
    that name, [translate] and [translate_async] are its entry point, and
    [calculate_cost] is its cost estimate, given the text alone for DeepL,
    Google Translate and Azure, and the text, the instructions and the model
    for the chat backends and Gemini.  For anything else, [None] included,
    each of them fails at its assertion, with the [AssertionError] that
    carries the [InvalidAPITypeException], and the world is as it was.  So
    the chain of comparisons never falls through: no call returns [None]. *)
Theorem dispatch_by_name_is_exact_and_total :
  forall (name : option string)
         (setter : api -> string -> M unit) (entry : api -> M pyval)
         (by_text : api -> text_arg -> M (Z * Q * string))
         (by_model : api -> text_arg -> option string -> option string
                     -> M (Z * Q * string))
         (credentials : string) (text : text_arg) (model instructions : option string)
         (w : world),
    match ByName.lookup name with
    | Some a =>
        ByName.set_credentials setter name credentials w = setter a credentials w
        /\ ByName.translate entry name w = entry a w
        /\ ByName.translate_async entry name w = entry a w
        /\ ByName.calculate_cost by_text by_model text name model instructions w
           = (c <- ByName.cost_of by_text by_model a text model instructions ;;
              ret (Some c)) w
    | None =>
        ByName.set_credentials setter name credentials w
        = (Raise (AssertionError (Some ByName.invalid_api_type)), w)
        /\ ByName.translate entry name w
           = (Raise (AssertionError (Some ByName.invalid_service)), w)
        /\ ByName.translate_async entry name w
           = (Raise (AssertionError (Some ByName.invalid_service)), w)
        /\ ByName.calculate_cost by_text by_model text name model instructions w
           = (Raise (AssertionError (Some ByName.invalid_service)), w)
    end.
Proof.
  intros [s | ] setter entry by_text by_model credentials text model instructions w;
    [ | repeat split; reflexivity].
  unfold ByName.set_credentials, ByName.translate, ByName.translate_async,
    ByName.calculate_cost, ByName.lookup, ByName.service_map, in_strings, is_.
  cbn [assoc existsb].
  destruct (String.eqb s "deepl") eqn:E1;
    [apply String.eqb_eq in E1; subst s; repeat split; reflexivity | ].
  destruct (String.eqb s "gemini") eqn:E2;
    [apply String.eqb_eq in E2; subst s; repeat split; reflexivity | ].
  destruct (String.eqb s "openai") eqn:E3;
    [apply String.eqb_eq in E3; subst s; repeat split; reflexivity | ].
  destruct (String.eqb s "google translate") eqn:E4;
    [apply String.eqb_eq in E4; subst s; repeat split; reflexivity | ].
  destruct (String.eqb s "anthropic") eqn:E5;
    [apply String.eqb_eq in E5; subst s; repeat split; reflexivity | ].
  destruct (String.eqb s "azure") eqn:E6;
    [apply String.eqb_eq in E6; subst s; repeat split; reflexivity | ].
  repeat split; reflexivity.
Qed.

(** ** The decorator argument without override *)

(** X18.  The entry points of Google Translate, DeepL and Azure apply the
    decorator that is stored for the service, not the one they are given:
    the argument only decides whether one is applied.  So a call that is
    given a decorator and does not override the settings, on a service for
    which none is stored (as the class body of [GoogleTLService] leaves it),
    fails with the [TypeError] of calling [None], once the credential probe
    has been sent and before any unit is. *)
Theorem decorator_without_override_needs_a_stored_one :
  forall (o : operation) (w : world),
    selects_translate o = true ->
    decorator_of o <> None ->
    override_of o = false ->
    decorator_to_use (Services w (backend_of o)) = None ->
    in_strings (response_type_of o) (recognized (backend_of o)) = true ->
    (forall f, format_of o = Some f -> in_strings (Some f) ["text"; "html"] = true) ->
    probe_returns w (backend_of o) ->
    exists w1,
      run o w = (Raise (TypeError "'NoneType' object is not callable"), w1)
      /\ sent w1 = sent w ++ [CredentialProbe (backend_of o)].
Proof.
  intros o w Hsel Hdec Hov Hstored Hrt Hfmt Hprobe.
  destruct o; try discriminate Hsel; simpl in Hov; subst override_previous_settings;
    simpl in Hdec, Hstored; simpl backend_of in *;
    (destruct decorator0 as [d | ]; [ | contradiction Hdec; reflexivity]);
    unfold run, EasyTL.googletl_translate, EasyTL.googletl_translate_async,
      EasyTL.deepl_translate, EasyTL.deepl_translate_async, EasyTL.azure_translate,
      EasyTL.azure_translate_async;
    (erewrite bind_eq; [ | apply assert_true; exact Hrt]);
    try (erewrite bind_eq; [ | apply assert_true; exact (Hfmt _ eq_refl)]);
    match goal with
    | |- context [EasyTL.test_credentials ?a] =>
        destruct (test_credentials_returns a w) as [p Hp];
          [discriminate | apply Hprobe | ]
    end;
    rewrite (bind_eq _ _ _ _ _ _ _ Hp);
    (erewrite bind_eq; [ | reflexivity]);
    (erewrite bind_Raise; cycle 1;
     [ unfold EasyTL.select_translate, Service.attrs, call_decorator, bind; simpl;
       rewrite Hstored; reflexivity
     | eexists; split; reflexivity ]).
Qed.

Lemma decorator_without_override_needs_a_stored_one_witness :
  exists w1,
    run (googletl_translate (TStr "hello") "en" false (Some (retry_on_exception 2)) None
           (Some "text") None "text" None)
        (Mock.world_on Mock.echo Mock.in_input_order)
    = (Raise (TypeError "'NoneType' object is not callable"), w1)
    /\ sent w1 = [CredentialProbe google_translate].
Proof.
  apply (decorator_without_override_needs_a_stored_one
           (googletl_translate (TStr "hello") "en" false (Some (retry_on_exception 2))
              None (Some "text") None "text" None)
           (Mock.world_on Mock.echo Mock.in_input_order)).
  - reflexivity.
  - discriminate.
  - reflexivity.
  - reflexivity.
  - reflexivity.
  - intros f H. inversion H. reflexivity.
  - intros h. exact I.
Defined.

(** ** The raw response types *)

Lemma in_singleton :
  forall (x : option string) (s : string), in_strings x [s] = true -> is_ x s = true.
Proof.
  intros [y | ] s H; simpl in *; [ | discriminate H].
  rewrite orb_false_r in H. exact H.
Qed.

(** The asynchronous unit call of Gemini on a backend that answers every
    unit with [v]. *)
Lemma gemini_coroutine_answers :
  forall (s : string) (v : pyval) (w : world),
    answers_units_with w v ->
    (0 <= _semaphore_value (Gemini w))%Z ->
    exists task w1 w2,
      GeminiService._translate_text_async s w = (Ok task, w1)
      /\ task w1 = (Ok v, w2).
Proof.
  intros s v w Hunit Hsem.
  destruct (redefine_client_returns w Hsem) as [w0 E].
  destruct (redefine_client_attrs _ _ _ E) as (_ & Hcl & _).
  pose proof (redefine_client_backend _ _ _ E) as Hb.
  destruct (gemini_primitive_call s w0 Hcl) as [_ Hcall].
  unfold gemini_request in Hcall at 1.
  rewrite (answers_same_backend w w0 v Hb Hunit) in Hcall.
  exists (translate_text_coroutine s), w0. eexists. split.
  - unfold GeminiService._translate_text_async,
      GeminiService._redefine_client_decorator.
    rewrite (bind_eq _ _ _ _ _ _ _ E). reflexivity.
  - unfold translate_text_coroutine, GeminiService._logging_decorator.
    unfold GeminiService.attrs at 1. unfold bind at 1. cbv beta iota.
    destruct (_decorator_to_use (Gemini w0)) as [d | ].
    + apply apply_decorator_Ok. exact Hcall.
    + exact Hcall.
Qed.



(** ** The client of Google Translate *)

(** X20.  A function wrapped by [GoogleTLService._redefine_client_decorator]
    runs with a client built from the credentials of the last
    [_set_credentials] that went through, whatever client and credentials
    were held before; the other attributes of the class are as they were.  A
    [_set_credentials] that fails on its key file changes nothing: the
    credentials held before stay in use. *)
Theorem googletl_wrapped_call_uses_latest_credentials :
  forall (from_service_account_file : string -> res GoogleTLService.Credentials)
         (A : Type) (func : GoogleTLService.G A)
         (key_path : string) (c : GoogleTLService.Credentials)
         (a : GoogleTLService.attrs),
    from_service_account_file key_path = Ok c ->
    exists a1,
      GoogleTLService._redefine_client_decorator func
        (snd (GoogleTLService._set_credentials from_service_account_file key_path a))
      = func a1
      /\ GoogleTLService._translator a1 = Some {| GoogleTLService.credentials := c |}
      /\ GoogleTLService._credentials a1 = Some c
      /\ GoogleTLService.settings a1 = GoogleTLService.settings a
      /\ forall (other : string) (e : exn),
           from_service_account_file other = Raise e ->
           GoogleTLService._redefine_client_decorator func
             (snd (GoogleTLService._set_credentials from_service_account_file other
                     (snd (GoogleTLService._set_credentials from_service_account_file
                             key_path a))))
           = func a1.
Proof.
  intros load A func key_path c a Hload.
  unfold GoogleTLService._set_credentials. rewrite Hload.
  eexists. split; [ | split; [ | split; [ | split]]].
  - unfold GoogleTLService._redefine_client_decorator,
      GoogleTLService._redefine_client. simpl. reflexivity.
  - reflexivity.
  - reflexivity.
  - reflexivity.
  - intros other e Hother. rewrite Hother. reflexivity.
Qed.

Lemma googletl_wrapped_call_uses_latest_credentials_witness :
  exists a1,
    GoogleTLService._redefine_client_decorator
      (fun a => (Ok (GoogleTLService._translator a), a))
      (snd (GoogleTLService._set_credentials
              (fun p => Ok {| GoogleTLService.key_file := p |}) "key.json"
              GoogleTLService.class_attributes))
    = (Ok (GoogleTLService._translator a1), a1)
    /\ GoogleTLService._translator a1
       = Some {| GoogleTLService.credentials :=
                   {| GoogleTLService.key_file := "key.json" |} |}.
Proof.
  destruct (googletl_wrapped_call_uses_latest_credentials
              (fun p => Ok {| GoogleTLService.key_file := p |})
              (option GoogleTLService.Client)
              (fun a => (Ok (GoogleTLService._translator a), a))
              "key.json" {| GoogleTLService.key_file := "key.json" |}
              GoogleTLService.class_attributes eq_refl)
    as (a1 & H1 & H2 & _).
  exists a1. split; [exact H1 | exact H2].
Defined.

(** X21.  Before any credentials are set, a function wrapped by
    [GoogleTLService._redefine_client_decorator] does not run: the rebuild of
    the client fails on the attribute [_credentials], which the class body
    only annotates, and the attributes are as they were.  That is the state
    of a process that has just started. *)
Theorem googletl_wrapped_call_needs_credentials :
  forall (A : Type) (func : GoogleTLService.G A) (a : GoogleTLService.attrs),
    GoogleTLService._credentials a = None ->
    GoogleTLService._redefine_client_decorator func a
    = (Raise (AttributeError "_credentials"), a).
Proof.
  intros A func a H.
  unfold GoogleTLService._redefine_client_decorator, GoogleTLService._redefine_client.
  rewrite H. reflexivity.
Qed.

Lemma googletl_wrapped_call_needs_credentials_witness :
  GoogleTLService._redefine_client_decorator
    (fun a => (Ok tt, a)) GoogleTLService.class_attributes
  = (Raise (AttributeError "_credentials"), GoogleTLService.class_attributes).
Proof.
  apply (googletl_wrapped_call_needs_credentials unit (fun a => (Ok tt, a))
           GoogleTLService.class_attributes).
  reflexivity.
Defined.
